(** * scdl: the per-track acquisition pipeline of [scdl/scdl.py]

    A shallow embedding of the functions of [scdl.py] that name a file,
    decide whether a track is already there, keep the download archive,
    choose the source of the audio and tag the result, together with the
    properties of them that the specification states.

    Python values are modelled as follows.
    - [str] is a list of Unicode code points ([list N]); [bytes] is a list
      of octets.  String literals of the source are written [py "..."].
    - [int] is [Z].
    - [**kwargs] is the record [kwargs] of the options the pipeline reads.
    - The working directory is a finite set of file names; the download
      archive is the text of the archive file.  The archive file is taken to
      be no file of the working directory.
    - What the network, [ffmpeg] and [mutagen] answer is read from an [env]
      record; what the program does to them is appended to a trace of
      events.
    - [sys.exit], an uncaught exception and a loop that never ends are
      outcomes of a computation, next to its normal return. *)

From Stdlib Require Import ZArith NArith List String Ascii Lia Bool.
From Stdlib Require Import DecimalString DecimalZ DecimalPos DecimalNat.
From stdpp Require Import base decidable option list gmap strings.

Local Open Scope N_scope.

(** ** Python strings *)

Abbreviation pystr := (list N) (only parsing).
Abbreviation pybytes := (list N) (only parsing).

(** A literal of the source. *)
Definition py (s : string) : pystr :=
  map N_of_ascii (list_ascii_of_string s).

(** [str.encode("utf-8")] of one code point: [None] stands for
    [UnicodeEncodeError] (a surrogate; a number past U+10FFFF is no code
    point of a Python string). *)
Definition is_surrogate (c : N) : bool := (0xD800 <=? c) && (c <=? 0xDFFF).

Definition encode_char (c : N) : option pybytes :=
  if c <? 0x80 then Some [c]
  else if c <? 0x800 then
    Some [N.lor 0xC0 (N.shiftr c 6); N.lor 0x80 (N.land c 0x3F)]
  else if is_surrogate c then None
  else if c <? 0x10000 then
    Some [N.lor 0xE0 (N.shiftr c 12);
          N.lor 0x80 (N.land (N.shiftr c 6) 0x3F);
          N.lor 0x80 (N.land c 0x3F)]
  else if c <? 0x110000 then
    Some [N.lor 0xF0 (N.shiftr c 18);
          N.lor 0x80 (N.land (N.shiftr c 12) 0x3F);
          N.lor 0x80 (N.land (N.shiftr c 6) 0x3F);
          N.lor 0x80 (N.land c 0x3F)]
  else None.

(** [s.encode("utf-8")], strict. *)
Fixpoint encode_utf8 (s : pystr) : option pybytes :=
  match s with
  | [] => Some []
  | c :: s' =>
      match encode_char c, encode_utf8 s' with
      | Some b, Some bs => Some (b ++ bs)
      | _, _ => None
      end
  end.

(** [s.encode("utf-8", "ignore")]: what cannot be encoded is left out. *)
Fixpoint encode_utf8_ignore (s : pystr) : pybytes :=
  match s with
  | [] => []
  | c :: s' =>
      match encode_char c with
      | Some b => b ++ encode_utf8_ignore s'
      | None => encode_utf8_ignore s'
      end
  end.

(** [b.decode("utf-8")], strict, over the sequences [encode_char] writes
    (shortest form, no surrogate, at most U+10FFFF); [None] stands for
    [UnicodeDecodeError].  The fuel is the number of octets. *)
Definition is_cont (b : N) : bool := (0x80 <=? b) && (b <? 0xC0).

Definition cont_bits (b : N) : N := N.land b 0x3F.

(** The first code point of [b] and the octets after it. *)
Definition decode_head (b : pybytes) : option (N * pybytes) :=
  match b with
  | [] => None
  | b0 :: r0 =>
      if b0 <? 0x80 then Some (b0, r0)
      else if (0xC0 <=? b0) && (b0 <? 0xE0) then
        match r0 with
        | b1 :: r1 =>
            let c := N.lor (N.shiftl (N.land b0 0x1F) 6) (cont_bits b1) in
            if is_cont b1 && (0x80 <=? c) then Some (c, r1) else None
        | _ => None
        end
      else if (0xE0 <=? b0) && (b0 <? 0xF0) then
        match r0 with
        | b1 :: b2 :: r2 =>
            let c := N.lor (N.shiftl (N.land b0 0x0F) 12)
                       (N.lor (N.shiftl (cont_bits b1) 6) (cont_bits b2)) in
            if is_cont b1 && is_cont b2 && (0x800 <=? c)
               && negb (is_surrogate c)
            then Some (c, r2) else None
        | _ => None
        end
      else if (0xF0 <=? b0) && (b0 <? 0xF8) then
        match r0 with
        | b1 :: b2 :: b3 :: r3 =>
            let c := N.lor (N.shiftl (N.land b0 0x07) 18)
                       (N.lor (N.shiftl (cont_bits b1) 12)
                          (N.lor (N.shiftl (cont_bits b2) 6) (cont_bits b3))) in
            if is_cont b1 && is_cont b2 && is_cont b3
               && (0x10000 <=? c) && (c <? 0x110000)
            then Some (c, r3) else None
        | _ => None
        end
      else None
  end.

Fixpoint decode_utf8_fuel (fuel : nat) (b : pybytes) : option pystr :=
  match b with
  | [] => Some []
  | _ :: _ =>
      match fuel with
      | O => None
      | S fuel' =>
          match decode_head b with
          | Some (c, r) => cons c <$> decode_utf8_fuel fuel' r
          | None => None
          end
      end
  end.

Definition decode_utf8 (b : pybytes) : option pystr :=
  decode_utf8_fuel (length b) b.

(** [s[:-n]] *)
Definition slice_to_neg (n : nat) (s : pystr) : pystr :=
  take (length s - n)%nat s.

(** [s.startswith(p)] *)
Fixpoint startswith (p s : pystr) : bool :=
  match p, s with
  | [], _ => true
  | _ :: _, [] => false
  | a :: p', b :: s' => (a =? b) && startswith p' s'
  end.

(** [s.endswith(p)] *)
Definition endswith (p s : pystr) : bool :=
  startswith (reverse p) (reverse s).

(** [sub in s] *)
Fixpoint contains (sub s : pystr) : bool :=
  startswith sub s ||
  match s with
  | [] => false
  | _ :: s' => contains sub s'
  end.

(** [str.isspace] of one code point: the Unicode white space. *)
Definition is_space (c : N) : bool :=
  ((0x09 <=? c) && (c <=? 0x0D)) || ((0x1C <=? c) && (c <=? 0x20))
  || (c =? 0x85) || (c =? 0xA0) || (c =? 0x1680)
  || ((0x2000 <=? c) && (c <=? 0x200A))
  || (c =? 0x2028) || (c =? 0x2029) || (c =? 0x202F) || (c =? 0x205F)
  || (c =? 0x3000).

Fixpoint lstrip (s : pystr) : pystr :=
  match s with
  | c :: s' => if is_space c then lstrip s' else s
  | [] => []
  end.

(** [s.strip()] *)
Definition strip (s : pystr) : pystr :=
  reverse (lstrip (reverse (lstrip s))).

(** [s.partition(sep)] when [sep] occurs: the text before and the text after
    its first occurrence. *)
Fixpoint partition (sep s : pystr) : option (pystr * pystr) :=
  if startswith sep s then Some ([], drop (length sep) s)
  else match s with
       | [] => None
       | c :: s' =>
           match partition sep s' with
           | Some (l, r) => Some (c :: l, r)
           | None => None
           end
       end.

(** [s.split(sep)] for a non-empty [sep]: cut at every occurrence, from the
    left.  The fuel bounds the number of cuts; [length s] is enough. *)
Fixpoint split_fuel (fuel : nat) (sep s : pystr) : list pystr :=
  match fuel with
  | O => [s]
  | S fuel' =>
      match partition sep s with
      | Some (l, r) => l :: split_fuel fuel' sep r
      | None => [s]
      end
  end.

Definition split (sep s : pystr) : list pystr :=
  split_fuel (length s) sep s.

(** [str(n)] of an [int]. *)
Definition str_of_Z (n : Z) : pystr :=
  py (NilZero.string_of_int (Z.to_int n)).

(** [os.path.splitext] of [posixpath]: the extension starts at the last dot
    of the last path component, unless only dots stand before it there. *)
Definition dot : N := 46.
Definition slash : N := 47.

(** The text after the last [c] of [s], and the text up to and with it. *)
Fixpoint rpartition_at (c : N) (s : pystr) : option (pystr * pystr) :=
  match s with
  | [] => None
  | x :: s' =>
      match rpartition_at c s' with
      | Some (h, t) => Some (x :: h, t)
      | None => if x =? c then Some ([x], s') else None
      end
  end.

Fixpoint skip_dots (s : pystr) : pystr * pystr :=
  match s with
  | x :: s' =>
      if x =? dot then let '(d, r) := skip_dots s' in (x :: d, r)
      else ([], s)
  | [] => ([], [])
  end.

Definition splitext (p : pystr) : pystr * pystr :=
  let '(dir, base) :=
    match rpartition_at slash p with
    | Some (h, t) => (h, t)
    | None => ([], p)
    end in
  let '(dots, rest) := skip_dots base in
  match rpartition_at dot rest with
  | Some (h, e) => (dir ++ dots ++ removelast h, dot :: e)
  | None => (p, [])
  end.

(** ** Data *)

Local Open Scope Z_scope.

Record user := {
  username : pystr;
  avatar_url : pystr;
}.

(** One entry of [track.media.transcodings]. *)
Record transcoding := {
  protocol : pystr;       (* [format.protocol] *)
  mime_type : pystr;      (* [format.mime_type] *)
  transcoding_url : pystr;
}.

(** [track.created_at], by the three readings the pipeline makes of it;
    calendar arithmetic is not modelled. *)
Record datetime := {
  timestamp : Z;          (* [int(created_at.timestamp())] *)
  mktime : Z;             (* [int(time.mktime(created_at.timetuple()))] *)
  strftime : pystr;       (* [created_at.strftime("%Y-%m-%d %H::%M::%S")] *)
}.

Record track := {
  track_id : Z;
  title : pystr;
  track_user : user;
  created_at : datetime;
  streamable : bool;
  policy : pystr;
  downloadable : bool;
  has_downloads_left : bool;
  transcodings : list transcoding;
  genre : option pystr;
  permalink_url : option pystr;
  description : option pystr;
  artwork_url : option pystr;
}.

(** The [playlist_info] dictionary of [download_playlist]. *)
Record playlist_info := {
  pl_author : pystr;
  pl_title : pystr;
  pl_tracknumber : pystr;
}.

(** The options of [**kwargs] that the pipeline reads. *)
Record kwargs := {
  kw_original_name : bool;
  kw_addtofile : bool;
  kw_addtimestamp : bool;
  kw_name_format : pystr;
  kw_playlist_name_format : pystr;
  kw_onlymp3 : bool;
  kw_no_original : bool;
  kw_only_original : bool;
  kw_remove : bool;
  kw_force_metadata : bool;
  kw_flac : bool;
  kw_overwrite : bool;
  kw_download_archive : option pystr;
  kw_c : bool;
  kw_extract_artist : bool;
  kw_no_album_tag : bool;
  kw_original_art : bool;
}.

(** Truth value of an optional string: [None] and [""] are false. *)
Definition truthy (o : option pystr) : bool :=
  match o with
  | Some (_ :: _) => true
  | _ => false
  end.

(** What the program takes from outside its source: [sanitize_filename] of
    [pathvalidate], [str.lower] with its Unicode tables, and [str.format]
    of a name template against the fields of the track, the playlist and
    the timestamp ([None] when it raises, as for an unknown placeholder). *)
Class Runtime := {
  sanitize_filename : pystr -> pystr;
  str_lower : pystr -> pystr;
  str_format : pystr -> track -> option playlist_info -> pystr -> option pystr;
}.

(** ** Outcomes and the state of a run *)

Inductive exn :=
| UnicodeEncodeError
| UnicodeDecodeError
| FormatError          (* what [str.format] raises *)
| HeaderError          (* a response header the code indexes is missing *)
| IndexError
| TypeError
| MutagenError.

Inductive outcome (A : Type) :=
| Ok (a : A)
| Exit (code : Z)      (* [sys.exit(code)] *)
| Raise (e : exn)
| OutOfFuel.           (* the loop did not end within the fuel *)

Arguments Ok {A} a.
Arguments Exit {A} code.
Arguments Raise {A} e.
Arguments OutOfFuel {A}.

Inductive level := Debug | Info | Error.

(** The messages of the pipeline, by the place that logs them. *)
Inductive message :=
| MsgDownloading (t : pystr)
| MsgNotStreamable (t : pystr)
| MsgGeoBlocked (t : pystr)
| MsgDownloadingOriginal
| MsgNoOriginalLink
| MsgNoDownloadLeft
| MsgNoNameFromStream
| MsgFilename (f : pystr)
| MsgIncomplete
| MsgConverting
| MsgFfmpegStderr
| MsgNoOriginalSkipping (t : pystr)
| MsgAlreadyDownloaded (t : pystr)
| MsgErrorDownloading (f : pystr)
| MsgExiting
| MsgTagError
| MsgNoTagging         (* "This type of audio doesn't support tagging..." *)
| MsgUtimeError
| MsgDownloaded (f : pystr)
| MsgAlreadyExists (t : pystr)
| MsgExitingRunWithC
| MsgArchiveReadError
| MsgArchiveWriteError
| MsgIOError            (* [logger.error(ioe)] *)
| MsgSettingTags
| MsgNoCoverArt.

Inductive event :=
| EvLog (l : level) (m : message)
| EvOriginalLink (id : Z)            (* [client.get_track_original_download] *)
| EvRequest                          (* [requests.get(url, stream=True)] *)
| EvBody (received : Z)              (* the body read into the temporary file *)
| EvConvert (src dst : pystr)        (* [ffmpeg -i src dst] *)
| EvManifest                         (* the request of [get_track_m3u8] *)
| EvRemux (dst : pystr)              (* [ffmpeg -i url -c copy dst] *)
| EvRemove (f : pystr)               (* [os.remove] *)
| EvArchiveWrite (line : pystr)
| EvTags (f : pystr) (tags : gmap string pystr)  (* [audio.save()], with the values assigned to [audio] *)
| EvUtime (f : pystr) (t : Z).

(** The response to the request for the original file. *)
Record response := {
  status_code : Z;
  disposition_filename : option pystr;  (* [re.findall("filename=(.+)", d)[0]] *)
  guessed_extension : option pystr;     (* [mimetypes.guess_extension(mime)] *)
  content_length : option Z;            (* [int(r.headers.get("content-length"))] *)
  body_received : Z;                    (* octets that arrive before the stream ends *)
}.

(** What the outside answers during one run of [download_track]. *)
Record env := {
  original_download : option response;  (* [None]: no download link *)
  manifest_url : option pystr;          (* [r.json()["url"]]; [None]: it raises *)
  remux_writes_file : bool;
  remux_stderr : bool;
  convert_writes_file : bool;
  archive_ioerror : bool;               (* [open] of the archive raises [IOError] *)
  mutagen_raises : bool;
  cover_art_found : bool;
  utime_fails : bool;
}.

(** The state of a run.  [files] holds the names at which the program finds
    a regular file, as it writes them from the directory it is in; whether
    two names denote one file, and in which directory a name with a
    separator lies, is not told.  [archive] is the text of the file that
    [--download-archive] names; it is kept apart from [files]. *)
Record world := {
  files : gset (list N);                (* the names of the regular files *)
  archive : pystr;                      (* the text of the archive file *)
  fileToKeep : list pystr;
  trace : list event;
}.

(** A computation of the pipeline. *)
Definition M (A : Type) : Type := world -> outcome A * world.

Definition ret {A} (a : A) : M A := fun w => (Ok a, w).

#[global] Instance M_ret : MRet M := @ret.

#[global] Instance M_bind : MBind M := fun A B k m w =>
  match m w with
  | (Ok a, w') => k a w'
  | (Exit c, w') => (Exit c, w')
  | (Raise e, w') => (Raise e, w')
  | (OutOfFuel, w') => (OutOfFuel, w')
  end.

Definition emit (e : event) : M unit :=
  fun w => (Ok tt, {| files := files w; archive := archive w;
                      fileToKeep := fileToKeep w; trace := trace w ++ [e] |}).

Definition log (l : level) (m : message) : M unit := emit (EvLog l m).

Definition sys_exit {A} (code : Z) : M A := fun w => (Exit code, w).

Definition raise {A} (e : exn) : M A := fun w => (Raise e, w).

(** A pure computation with an outcome, run in the pipeline. *)
Definition lift {A} (o : outcome A) : M A := fun w => (o, w).

(** [os.path.isfile(f)] *)
Definition isfile (f : pystr) : M bool :=
  fun w => (Ok (bool_decide (f ∈ files w)), w).

(** [os.remove(f)] of a file that is there. *)
Definition os_remove (f : pystr) : M unit :=
  fun w => (Ok tt, {| files := files w ∖ {[f]}; archive := archive w;
                      fileToKeep := fileToKeep w;
                      trace := trace w ++ [EvRemove f] |}).

(** A file appears under the name [f]. *)
Definition create_file (f : pystr) : M unit :=
  fun w => (Ok tt, {| files := {[f]} ∪ files w; archive := archive w;
                      fileToKeep := fileToKeep w; trace := trace w |}).

#[global] Instance outcome_ret : MRet outcome := fun A a => Ok a.

#[global] Instance outcome_bind : MBind outcome := fun A B k o =>
  match o with
  | Ok a => k a
  | Exit c => Exit c
  | Raise e => Raise e
  | OutOfFuel => OutOfFuel
  end.

(** Sequencing, with the computation before its continuation. *)
Definition bind {T : Type -> Type} `{MBind T} {A B} (m : T A) (k : A -> T B) : T B :=
  mbind k m.

Notation "x <- m ; k" := (bind m (fun x => k))
  (at level 20, m at level 100, k at level 200, only parsing).
Notation "' p <- m ; k" := (bind m (fun x => let 'p := x in k))
  (at level 20, p pattern, m at level 100, k at level 200, only parsing).

(** An optional value whose absence raises [e]. *)
Definition or_raise {A} (e : exn) (o : option A) : outcome A :=
  match o with
  | Some a => Ok a
  | None => Raise e
  end.

(** ** [get_filename] (lines 367-399) *)

(** [s.encode("utf-8", "ignore").decode("utf-8")] *)
Definition utf8_ignore (s : pystr) : outcome pystr :=
  or_raise UnicodeDecodeError (decode_utf8 (encode_utf8_ignore s)).

(** [len(s.encode("utf-8"))] *)
Definition utf8_len (s : pystr) : outcome Z :=
  b <- or_raise UnicodeEncodeError (encode_utf8 s); mret (Z.of_nat (length b)).

(** Lines 395-396:
    [while len(title.encode("utf-8")) > 255 - len(ext.encode("utf-8")): title = title[:-1]].
    One unit of fuel pays for one test of the condition. *)
Fixpoint truncate_title (fuel : nat) (title ext : pystr) : outcome pystr :=
  match fuel with
  | O => OutOfFuel
  | S fuel' =>
      lt <- utf8_len title;
      le <- utf8_len ext;
      if 255 - le <? lt then truncate_title fuel' (slice_to_neg 1 title) ext
      else mret title
  end.

(** Lines 372-388: the title before it is cut. *)
Definition compose_title {R : Runtime} (t : track) (playlist : option playlist_info)
    (kw : kwargs) : outcome pystr :=
  let username := username (track_user t) in
  title <- utf8_ignore (title t);
  let title :=
    if kw_addtofile kw then
      if negb (contains username title) && negb (contains (py "-") title)
      then username ++ py " - " ++ title
      else title
    else title in
  let timestamp := str_of_Z (timestamp (created_at t)) in
  let title := if kw_addtimestamp kw then timestamp ++ py "_" ++ title else title in
  if negb (kw_addtofile kw) && negb (kw_addtimestamp kw) then
    match playlist with
    | Some _ => or_raise FormatError (str_format (kw_playlist_name_format kw) t playlist timestamp)
    | None => or_raise FormatError (str_format (kw_name_format kw) t None timestamp)
    end
  else mret title.

(** Lines 390-393: the extension. *)
Definition resolve_ext (original_filename : option pystr) (aac : bool) : outcome pystr :=
  let ext := if aac then py ".m4a" else py ".mp3" in
  match original_filename with
  | Some o => _ <- utf8_ignore o; mret (snd (splitext o))
  | None => mret ext
  end.

Definition get_filename {R : Runtime} (fuel : nat) (t : track)
    (original_filename : option pystr) (aac : bool)
    (playlist : option playlist_info) (kw : kwargs) : outcome pystr :=
  if kw_original_name kw && truthy original_filename then
    Ok (default [] original_filename)
  else
    title <- compose_title t playlist kw;
    ext <- resolve_ext original_filename aac;
    title <- truncate_title fuel title ext;
    let filename := title ++ str_lower ext in
    mret (sanitize_filename filename).

(** ** The download archive (lines 632-667) *)

Definition LF : N := 10.
Definition CR : N := 13.

(** The lines a text file yields when it is iterated: a line ends at
    ["\n"], ["\r\n"] or ["\r"], each read as ["\n"] and kept; the last line
    may lack it.  [cur] holds the line being read, reversed. *)
Fixpoint readlines_from (cur : pystr) (s : pystr) : list pystr :=
  match s with
  | [] => match cur with [] => [] | _ :: _ => [reverse cur] end
  | c :: s' =>
      if (c =? LF)%N then reverse (LF :: cur) :: readlines_from [] s'
      else if (c =? CR)%N then
        match s' with
        | c' :: s'' =>
            if (c' =? LF)%N then reverse (LF :: cur) :: readlines_from [] s''
            else reverse (LF :: cur) :: readlines_from [] s'
        | [] => [reverse (LF :: cur)]
        end
      else readlines_from (c :: cur) s'
  end.

Definition readlines (s : pystr) : list pystr := readlines_from [] s.

(** The loop of lines 644-646 over the text of the archive. *)
Definition archive_has (text : pystr) (id : Z) : bool :=
  existsb (fun line => bool_decide (strip line = str_of_Z id)) (readlines text).

Definition archive_enabled (kw : kwargs) : bool := truthy (kw_download_archive kw).

(** The text of the archive file, as [open] and the iteration read it. *)
Definition read_archive : M pystr := fun w => (Ok (archive w), w).

(** Without an archive the function returns no value: [None], which is
    false where it is tested. *)
Definition in_download_archive (E : env) (t : track) (kw : kwargs) : M bool :=
  if negb (archive_enabled kw) then ret false
  else if archive_ioerror E then
    log Error MsgArchiveReadError;; log Error MsgIOError;; ret false
  else
    text <- read_archive;
    ret (archive_has text (track_id t)).

(** [file.write(f"{track.id}\n")] on the archive opened with ["a"]. *)
Definition archive_append (line : pystr) : M unit :=
  fun w => (Ok tt, {| files := files w; archive := archive w ++ line;
                      fileToKeep := fileToKeep w;
                      trace := trace w ++ [EvArchiveWrite line] |}).

Definition record_download_archive (E : env) (t : track) (kw : kwargs) : M unit :=
  if negb (archive_enabled kw) then ret tt
  else if archive_ioerror E then
    log Error MsgArchiveWriteError;; log Error MsgIOError
  else archive_append (str_of_Z (track_id t) ++ [LF]).

(** ** [can_convert] and [already_downloaded] (lines 591-629) *)

Definition can_convert (filename : pystr) : bool :=
  let ext := snd (splitext filename) in
  contains (py "wav") ext || contains (py "aif") ext.

(** [filename[:-4] + ".flac"] *)
Definition flac_name (filename : pystr) : pystr :=
  slice_to_neg 4 filename ++ py ".flac".

Definition already_downloaded (E : env) (t : track) (title filename : pystr)
    (kw : kwargs) : M bool :=
  (* lines 602-606 *)
  here <- isfile filename;
  found <- (if here then
             if kw_overwrite kw then os_remove filename;; ret false
             else ret true
           else ret false);
  (* lines 607-615 *)
  sibling <- (if kw_flac kw && can_convert filename
             then isfile (flac_name filename) else ret false);
  found <- (if sibling then
             if kw_overwrite kw then os_remove (flac_name filename);; ret false
             else ret true
           else ret found);
  (* lines 616-617 *)
  listed <- (if archive_enabled kw then in_download_archive E t kw else ret false);
  let found := if listed then true else found in
  (* lines 619-620 *)
  source <- (if kw_flac kw && can_convert filename
            then isfile filename else ret false);
  let found := if source then false else found in
  (* lines 622-629 *)
  if found then
    if kw_c kw || kw_remove kw || kw_force_metadata kw then ret true
    else
      log Error (MsgAlreadyExists title);;
      log Error MsgExitingRunWithC;;
      sys_exit (-1)
  else ret false.

(** ** [set_metadata] (lines 670-763) *)

(** The dash variants of line 712, in the order of the list. *)
Definition dashes : list pystr :=
  [ [32; 45; 32]; [32; 0x2212; 32]; [32; 0x2013; 32]; [32; 0x2014; 32];
    [32; 0x2015; 32] ]%N.

(** Lines 712-717: the loop over the dash variants, from [artist] and
    [title] as they stand before it to what they are after it. *)
Fixpoint extract_artist (ds : list pystr) (artist title : pystr) : outcome (pystr * pystr) :=
  match ds with
  | [] => Ok (artist, title)
  | dash :: ds' =>
      if contains dash title then
        let artist_title := split dash title in
        a <- or_raise IndexError (artist_title !! 0%nat);
        b <- or_raise IndexError (artist_title !! 1%nat);
        Ok (strip a, strip b)
      else extract_artist ds' artist title
  end.

(** Lines 710-717: [(track.artist, track.title)] as the tags are written. *)
Definition artist_and_title (t : track) (kw : kwargs) : outcome (pystr * pystr) :=
  let artist := username (track_user t) in
  if kw_extract_artist kw then extract_artist dashes artist (title t)
  else Ok (artist, title t).

Definition set_if (k : string) (v : option pystr) (audio : gmap string pystr) : gmap string pystr :=
  match v with
  | Some (c :: v') => <[k := c :: v']> audio
  | _ => audio
  end.

(** Lines 719-732: the values that are assigned to the keys of [audio]
    before [audio.save()], as the program hands them to [mutagen].  What a
    tag format keeps of a value is not told: of the text of the date an ID3
    time stamp keeps the part that it can read. *)
Definition easy_tags (t : track) (artist title : pystr)
    (playlist : option playlist_info) (kw : kwargs) : gmap string pystr :=
  let audio : gmap string pystr := ∅ in
  let audio := <["title"%string := title]> audio in
  let audio := <["artist"%string := artist]> audio in
  let audio := set_if "genre" (genre t) audio in
  let audio := set_if "website" (permalink_url t) audio in
  let audio := set_if "date" (Some (strftime (created_at t))) audio in
  match playlist with
  | Some pl =>
      let audio := if kw_no_album_tag kw then audio
                   else <["album"%string := pl_title pl]> audio in
      <["tracknumber"%string := pl_tracknumber pl]> audio
  | None => audio
  end.

(** The requests for the cover art and the frames written after
    [audio.save()] are kept to whether a cover was found and whether
    anything in the function raises. *)
Definition set_metadata (E : env) (t : track) (filename : pystr)
    (playlist : option playlist_info) (kw : kwargs) : M unit :=
  log Info MsgSettingTags;;
  (if cover_art_found E then ret tt else log Error MsgNoCoverArt);;
  '(artist, title) <- lift (artist_and_title t kw);
  if mutagen_raises E then raise MutagenError
  else emit (EvTags filename (easy_tags t artist title playlist kw)).

(** ** [download_original_file] (lines 402-470) *)

Definition download_original_file {R : Runtime} (fuel : nat) (E : env) (t : track)
    (title : pystr) (playlist : option playlist_info) (kw : kwargs)
    : M (option pystr * bool) :=
  log Info MsgDownloadingOriginal;;
  emit (EvOriginalLink (track_id t));;
  match original_download E with
  | None => log Info MsgNoOriginalLink;; ret (None, false)
  | Some r =>
      emit EvRequest;;
      if status_code r =? 401 then log Info MsgNoDownloadLeft;; ret (None, false)
      else if status_code r =? 404 then log Info MsgNoNameFromStream;; ret (None, false)
      else
        filename <- lift (or_raise HeaderError (disposition_filename r));
        let '(filename, ext) := splitext filename in
        let ext := if truthy (guessed_extension r)
                   then default ext (guessed_extension r) else ext in
        let filename := filename ++ ext in
        filename <- lift (get_filename fuel t (Some filename) false playlist kw);
        log Debug (MsgFilename filename);;
        skip <- already_downloaded E t title filename kw;
        if skip then
          let filename := if kw_flac kw && can_convert filename
                          then flac_name filename else filename in
          ret (Some filename, true)
        else
          total_length <- lift (or_raise HeaderError (content_length r));
          let received := body_received r in
          emit (EvBody received);;
          if negb (received =? total_length) then
            log Error MsgIncomplete;; sys_exit (-1)
          else
            create_file filename;;
            if kw_flac kw && can_convert filename then
              log Info MsgConverting;;
              let newfilename := flac_name filename in
              emit (EvConvert filename newfilename);;
              (if convert_writes_file E then create_file newfilename else ret tt);;
              os_remove filename;;
              ret (Some newfilename, false)
            else ret (Some filename, false)
  end.

(** ** [get_track_m3u8] and [download_hls] (lines 473-517) *)

(** Lines 475-480: the url of the last transcoding that fits. *)
Definition pick_transcoding (t : track) (aac : bool) : option pystr :=
  fold_left
    (fun url tr =>
       if bool_decide (protocol tr = py "hls") then
         if (negb aac && bool_decide (mime_type tr = py "audio/mpeg"))
            || (aac && startswith (py "audio/mp4") (mime_type tr))
         then Some (transcoding_url tr) else url
       else url)
    (transcodings t) None.

Definition get_track_m3u8 (E : env) (t : track) (aac : bool) : M (option pystr) :=
  match pick_transcoding t aac with
  | Some _ =>
      emit EvManifest;;
      u <- lift (or_raise HeaderError (manifest_url E));
      ret (Some u)
  | None => ret None
  end.

(** Lines 493-499: the container of the stream. *)
Definition prefers_aac (t : track) (kw : kwargs) : bool :=
  if kw_onlymp3 kw then false
  else existsb (fun tr => startswith (py "audio/mp4") (mime_type tr)) (transcodings t).

Definition download_hls {R : Runtime} (fuel : nat) (E : env) (t : track)
    (title : pystr) (playlist : option playlist_info) (kw : kwargs)
    : M (pystr * bool) :=
  let aac := prefers_aac t kw in
  filename <- lift (get_filename fuel t None aac playlist kw);
  log Debug (MsgFilename filename);;
  skip <- already_downloaded E t title filename kw;
  if skip then ret (filename, true)
  else
    url <- get_track_m3u8 E t aac;
    match url with
    | None => raise TypeError     (* [subprocess.run] with [None] among its arguments *)
    | Some _ =>
        emit (EvRemux filename);;
        (if remux_writes_file E then create_file filename else ret tt);;
        (if remux_stderr E then log Error MsgFfmpegStderr else ret tt);;
        ret (filename, false)
    end.

(** ** [download_track] (lines 520-588) *)

Definition try_utime (E : env) (path : pystr) (filetime : Z) : M unit :=
  if utime_fails E then log Error MsgUtimeError
  else emit (EvUtime path filetime).

Definition keep_file (f : pystr) : M unit :=
  fun w => (Ok tt, {| files := files w; archive := archive w;
                      fileToKeep := fileToKeep w ++ [f]; trace := trace w |}).

(** [try: ... except: handler]: whatever is raised, [sys.exit] too, ends in
    the handler. *)
Definition try_except {A} (m : M A) (handler : M A) : M A :=
  fun w =>
    match m w with
    | (Raise _, w') => handler w'
    | (Exit _, w') => handler w'
    | r => r
    end.

Definition tagged_extension (filename : pystr) : bool :=
  endswith (py ".mp3") filename || endswith (py ".flac") filename
  || endswith (py ".m4a") filename.

(** Lines 538-547: the original file is asked for. *)
Definition wants_original (t : track) (kw : kwargs) : bool :=
  downloadable t && has_downloads_left t && negb (kw_onlymp3 kw)
  && negb (kw_no_original kw).

(** Lines 565-588, from the check that the file is there. *)
Definition tag_and_finish (E : env) (t : track) (filename : pystr)
    (playlist : option playlist_info) (kw : kwargs) : M unit :=
  there <- isfile filename;
  if negb there then
    log Error (MsgErrorDownloading filename);;
    log Error MsgExiting;;
    sys_exit (-1)
  else
    (if tagged_extension filename then
       try_except (set_metadata E t filename playlist kw) (log Error MsgTagError)
     else log Error MsgNoTagging);;
    let filetime := mktime (created_at t) in
    try_utime E filename filetime;;
    log Info (MsgDownloaded filename).

Definition download_track {R : Runtime} (fuel : nat) (E : env) (t : track)
    (playlist : option playlist_info) (kw : kwargs) : M unit :=
  title <- lift (utf8_ignore (title t));
  log Info (MsgDownloading title);;
  if negb (streamable t) then log Error (MsgNotStreamable title)
  else if bool_decide (policy t = py "BLOCK") then log Error (MsgGeoBlocked title)
  else
    '(filename, is_already_downloaded) <-
      (if wants_original t kw
       then download_original_file fuel E t title playlist kw
       else ret (None, false));
    acquired <-
      (match filename with
       | None =>
           if kw_only_original kw then
             log Info (MsgNoOriginalSkipping title);; ret None
           else
             r <- download_hls fuel E t title playlist kw; ret (Some r)
       | Some f => ret (Some (f, is_already_downloaded))
       end);
    match acquired with
    | None => ret tt
    | Some (filename, is_already_downloaded) =>
        (if kw_remove kw then keep_file filename else ret tt);;
        record_download_archive E t kw;;
        if is_already_downloaded && negb (kw_force_metadata kw) then
          log Info (MsgAlreadyDownloaded title)
        else tag_and_finish E t filename playlist kw
    end.

(** ** [download_playlist] (lines 324-359): the tracks and their numbers *)

(** What this part takes from outside its source: the order of two
    [datetime] values, by the position of a value on the time line, and
    [int] of a string ([None] when it raises [ValueError]). *)
Class Builtins := {
  instant : datetime -> Z;
  py_int : pystr -> option Z;
}.

(** A playlist whose entries are full tracks. *)
Record playlist := {
  playlist_title : pystr;
  playlist_user : user;
  playlist_tracks : list track;
}.

(** The options that [download_playlist] reads besides those of the
    pipeline: [-n], the offset that [main] derives from [-o] (1 without
    it), [--no-playlist-folder]. *)
Record playlist_kwargs := {
  kw_n : option pystr;
  kw_offset : Z;
  kw_no_playlist_folder : bool;
}.

(** The number of elements before the end of the slice [l[:k]] of a list
    of [len] elements. *)
Definition slice_stop (k : Z) (len : nat) : nat :=
  Z.to_nat (if k <? 0 then Z.max 0 (Z.of_nat len + k) else Z.min k (Z.of_nat len)).

(** [tracks.sort(key=lambda track: track.created_at, reverse=True)]: the
    newest first; the sort is stable, tracks of one instant stay in their
    order.  [insert_newest x l] puts [x], which stood before all of [l],
    into the sorted [l]. *)
Fixpoint insert_newest {B : Builtins} (x : track) (l : list track) : list track :=
  match l with
  | [] => [x]
  | y :: l' =>
      if instant (created_at x) <? instant (created_at y)
      then y :: insert_newest x l'
      else x :: l
  end.

Definition sort_newest_first {B : Builtins} (l : list track) : list track :=
  foldr insert_newest [] l.

(** Lines 338-344: the tracks that are downloaded.  [None] stands for the
    [ValueError] of [int]. *)
Definition select_tracks {B : Builtins} (pk : playlist_kwargs) (tracks : list track)
    : option (list track) :=
  if truthy (kw_n pk) then
    let tracks := sort_newest_first tracks in
    n <- py_int (default [] (kw_n pk));
    Some (take (slice_stop n (length tracks)) tracks)
  else
    Some (drop (slice_stop (kw_offset pk - 1) (length tracks)) tracks).

(** [s.zfill(width)]: zeros are put before the digits, behind a sign. *)
Definition zfill (width : nat) (s : pystr) : pystr :=
  let zeros := replicate (width - length s) 48%N in
  match s with
  | c :: r => if ((c =? 43) || (c =? 45))%N then c :: zeros ++ r else zeros ++ s
  | [] => zeros
  end.

(** Lines 345-353: the tracks with the counter of [enumerate] and the
    [playlist_info] that [download_track] is called with. *)
Definition numbered (p : playlist) (offset : Z) (tracks : list track)
    : list (Z * track * playlist_info) :=
  let tracknumber_digits := length (str_of_Z (Z.of_nat (length tracks))) in
  imap (fun i t =>
          let counter := offset + Z.of_nat i in
          (counter, t,
           {| pl_author := username (playlist_user p);
              pl_title := playlist_title p;
              pl_tracknumber := zfill tracknumber_digits (str_of_Z counter) |}))
       tracks.

(** ** The session around the runs of [download_track] *)

(** The messages of [remove_files] and [download_playlist]. *)
Inductive note :=
| NoteRemoving                   (* line 318 *)
| NoteTrack (t : track)          (* [logger.debug(track)], line 347 *)
| NoteTrackNumber (counter : Z). (* [Track n°{counter}], line 348 *)

(** How a computation of the session ends when it does not return: as a
    run of [download_track] ends, or with an exception of [int] or of the
    file system.  [StopBeyond] stands for a path that the two levels of
    directories of a session do not hold. *)
Inductive stop :=
| StopExit (code : Z)
| StopRaise (e : exn)
| StopFuel
| StopValueError
| StopFileNotFound
| StopNotADirectory
| StopBeyond.

Inductive result (A : Type) :=
| Fine (a : A)
| Stop (s : stop).

Arguments Fine {A} a.
Arguments Stop {A} s.

(** The program is in its starting directory or in one of the
    subdirectories of it.  [cwd] holds the regular files of the directory
    the program is in, with the archive, the list [fileToKeep] and the
    trace, which do not depend on the directory: the archive is one file
    wherever the program is, as it is for an absolute path.  A name with
    a separator that a run of [download_track] uses lies in another
    directory than the one the program is in, or is a second name of an
    entry; the session does not follow it, and what is proved of the
    directories is proved of runs whose file names are plain.  A message
    of the session is kept with the length the trace has when it is
    logged. *)
Record session := {
  cwd : world;
  notes : list (nat * (level * note));
  folder : option pystr;                 (* the subdirectory the program is in *)
  start_files : gset (list N);           (* the files of the starting directory, while in a subdirectory *)
  folders : gmap (list N) (gset (list N)); (* the subdirectories of the starting directory *)
}.

Definition Sess (A : Type) : Type := session -> result A * session.

#[global] Instance Sess_ret : MRet Sess := fun A a s => (Fine a, s).

#[global] Instance Sess_bind : MBind Sess := fun A B k m s =>
  match m s with
  | (Fine a, s') => k a s'
  | (Stop e, s') => (Stop e, s')
  end.

Definition with_cwd (s : session) (w : world) : session :=
  {| cwd := w; notes := notes s; folder := folder s;
     start_files := start_files s; folders := folders s |}.

(** A computation of the pipeline, run in the directory the program is
    in. *)
Definition run_here {A} (m : M A) : Sess A := fun s =>
  match m (cwd s) with
  | (Ok a, w) => (Fine a, with_cwd s w)
  | (Exit c, w) => (Stop (StopExit c), with_cwd s w)
  | (Raise e, w) => (Stop (StopRaise e), with_cwd s w)
  | (OutOfFuel, w) => (Stop StopFuel, with_cwd s w)
  end.

Definition log_note (l : level) (n : note) : Sess unit := fun s =>
  (Fine tt, {| cwd := cwd s;
               notes := notes s ++ [(length (trace (cwd s)), (l, n))];
               folder := folder s; start_files := start_files s;
               folders := folders s |}).

Definition stop_with {A} (e : stop) : Sess A := fun s => (Stop e, s).

(** [try: body finally: cleanup] *)
Definition try_finally {A} (body : Sess A) (cleanup : Sess unit) : Sess A := fun s =>
  match body s with
  | (r, s') =>
      match cleanup s' with
      | (Fine _, s'') => (r, s'')
      | (Stop e, s'') => (Stop e, s'')
      end
  end.

(** ** [remove_files] (lines 314-322) *)

(** A name that denotes an entry of the directory the program is in: it is
    not empty, neither [.] nor [..], and holds neither a separator nor a
    null character. *)
Definition plain_name (name : pystr) : bool :=
  negb (bool_decide (name = [])) && negb (bool_decide (name = py "."))
  && negb (bool_decide (name = py ".."))
  && forallb (fun c => negb ((c =? slash)%N || (c =? 0)%N)) name.

(** The regular files that the directory lists: the names of [files] and,
    when the archive is a file of this directory, its name there, which
    [archive_entry] tells; [None] stands for an archive that lies
    elsewhere or is not kept. *)
Definition regular_files (archive_entry : option pystr) (w : world) : gset (list N) :=
  match archive_entry with
  | Some a => {[a]} ∪ files w
  | None => files w
  end.

(** [[f for f in os.listdir(".") if os.path.isfile(f)]], in the order in
    which the directory lists them.  [os.listdir] yields plain names; a
    name of [files] that is not plain is a path into another directory or
    a second name of an entry, and what is listed for it is beyond the
    session. *)
Definition listdir_files (archive_entry : option pystr) : Sess (list pystr) := fun s =>
  let entries := elements (regular_files archive_entry (cwd s)) in
  if forallb plain_name entries then (Fine entries, s) else (Stop StopBeyond, s).

(** [f not in fileToKeep] *)
Definition not_kept (f : pystr) : M bool :=
  fun w => (Ok (negb (bool_decide (f ∈ fileToKeep w))), w).

(** The archive file is gone: opened again, it is empty. *)
Definition drop_archive : M unit :=
  fun w => (Ok tt, {| files := files w; archive := [];
                      fileToKeep := fileToKeep w; trace := trace w |}).

(** [os.remove(f)] of an entry of the directory.  When the entry is the
    archive, its text goes with it. *)
Definition remove_entry (archive_entry : option pystr) (f : pystr) : M unit :=
  os_remove f;;
  if bool_decide (archive_entry = Some f) then drop_archive else ret tt.

(** The loop of lines 320-322. *)
Fixpoint remove_unkept (archive_entry : option pystr) (fs : list pystr) : M unit :=
  match fs with
  | [] => ret tt
  | f :: fs' =>
      gone <- not_kept f;
      (if gone then remove_entry archive_entry f else ret tt);;
      remove_unkept archive_entry fs'
  end.

Definition remove_files (archive_entry : option pystr) : Sess unit :=
  log_note Info NoteRemoving;;
  fs <- listdir_files archive_entry;
  run_here (remove_unkept archive_entry fs).

(** ** [download_playlist] (lines 324-359) *)

(** What the outside answers during the run of [download_track] for the
    track with the given counter. *)
Record client := {
  answers : Z -> track -> env;
}.

(** [os.path.exists(name)], in the starting directory. *)
Definition path_exists (name : pystr) : Sess bool := fun s =>
  match folder s with
  | Some _ => (Stop StopBeyond, s)
  | None =>
      if bool_decide (name = []) then (Fine false, s)
      else if plain_name name then
        (Fine (bool_decide (name ∈ dom (folders s))
               || bool_decide (name ∈ files (cwd s))), s)
      else (Stop StopBeyond, s)
  end.

(** [os.makedirs(name)] of a name that does not exist, in the starting
    directory. *)
Definition makedirs (name : pystr) : Sess unit := fun s =>
  match folder s with
  | Some _ => (Stop StopBeyond, s)
  | None =>
      if bool_decide (name = []) then (Stop StopFileNotFound, s)
      else if plain_name name then
        (Fine tt, {| cwd := cwd s; notes := notes s; folder := None;
                     start_files := start_files s;
                     folders := <[name := ∅]> (folders s) |})
      else (Stop StopBeyond, s)
  end.

Definition set_files (w : world) (fs : gset (list N)) : world :=
  {| files := fs; archive := archive w; fileToKeep := fileToKeep w;
     trace := trace w |}.

(** [os.chdir(name)], from the starting directory. *)
Definition chdir (name : pystr) : Sess unit := fun s =>
  match folder s with
  | Some _ => (Stop StopBeyond, s)
  | None =>
      if bool_decide (name = []) then (Stop StopFileNotFound, s)
      else if plain_name name then
        match folders s !! name with
        | Some fs =>
            (Fine tt, {| cwd := set_files (cwd s) fs; notes := notes s;
                         folder := Some name; start_files := files (cwd s);
                         folders := folders s |})
        | None =>
            if bool_decide (name ∈ files (cwd s)) then (Stop StopNotADirectory, s)
            else (Stop StopFileNotFound, s)
        end
      else (Stop StopBeyond, s)
  end.

(** [os.chdir("..")], from a subdirectory back to the starting directory. *)
Definition chdir_up : Sess unit := fun s =>
  match folder s with
  | Some name =>
      (Fine tt, {| cwd := set_files (cwd s) (start_files s); notes := notes s;
                   folder := None; start_files := start_files s;
                   folders := <[name := files (cwd s)]> (folders s) |})
  | None => (Stop StopBeyond, s)
  end.

(** The loop of lines 346-356. *)
Fixpoint download_each {R : Runtime} (fuel : nat) (c : client) (kw : kwargs)
    (items : list (Z * track * playlist_info)) : Sess unit :=
  match items with
  | [] => mret tt
  | (counter, t, info) :: items' =>
      log_note Debug (NoteTrack t);;
      log_note Info (NoteTrackNumber counter);;
      run_here (download_track fuel (answers c counter t) t (Some info) kw);;
      download_each fuel c kw items'
  end.

Definition download_playlist {R : Runtime} {B : Builtins} (fuel : nat) (c : client)
    (p : playlist) (kw : kwargs) (pk : playlist_kwargs) : Sess unit :=
  playlist_name <- run_here (lift (utf8_ignore (playlist_title p)));
  let playlist_name := sanitize_filename playlist_name in
  (if negb (kw_no_playlist_folder pk) then
     there <- path_exists playlist_name;
     (if negb there then makedirs playlist_name else mret tt);;
     chdir playlist_name
   else mret tt);;
  try_finally
    (match select_tracks pk (playlist_tracks p) with
     | None => stop_with StopValueError
     | Some tracks =>
         download_each fuel c kw (numbered p (kw_offset pk) tracks)
     end)
    (if negb (kw_no_playlist_folder pk) then chdir_up else mret tt).

(** ** Notions the properties are stated with *)

(** What [already_downloaded] concludes after lines 602-620, from what is
    there when it is called: [here], the target file; [sibling], the
    [.flac] file next to it; [listed], the archive names the track. *)
Definition verdict (kw : kwargs) (convertible here sibling listed : bool) : bool :=
  let found := here && negb (kw_overwrite kw) in
  let found := if kw_flac kw && convertible && sibling
               then negb (kw_overwrite kw) else found in
  let found := if listed then true else found in
  if kw_flac kw && convertible && here && negb (kw_overwrite kw)
  then false else found.

(** The archive is kept, can be read and names the track. *)
Definition is_listed (E : env) (t : track) (kw : kwargs) (w : world) : bool :=
  archive_enabled kw && negb (archive_ioerror E)
  && archive_has (archive w) (track_id t).

(** [record_download_archive] for one track after the other. *)
Fixpoint record_all (E : env) (kw : kwargs) (ts : list track) : M unit :=
  match ts with
  | [] => ret tt
  | t :: ts' => record_download_archive E t kw;; record_all E kw ts'
  end.

(** The lines of the archive that name the track. *)
Definition archive_entries (text : pystr) (id : Z) : nat :=
  length (filter (fun line => strip line = str_of_Z id) (readlines text)).

(** [sanitize_filename] keeps a name of at most 255 octets that ends with
    [e] within 255 octets and with [e] at its end. *)
Definition sanitize_keeps {R : Runtime} (e : pystr) : Prop :=
  forall (s : pystr) (ls : Z),
    utf8_len (s ++ e) = Ok ls -> ls <= 255 ->
    exists (s' : pystr) (lr : Z),
      sanitize_filename (s ++ e) = s' ++ e /\
      utf8_len (s' ++ e) = Ok lr /\ lr <= 255.

(** Lines 520-553 of [download_track], for a track that can be streamed
    and is not blocked: the name of the file and whether it was found
    there, or nothing with [--only-original] and no original file. *)
Definition acquire {R : Runtime} (fuel : nat) (E : env) (t : track)
    (playlist : option playlist_info) (kw : kwargs) : M (option (pystr * bool)) :=
  title <- lift (utf8_ignore (title t));
  log Info (MsgDownloading title);;
  '(filename, is_already_downloaded) <-
    (if wants_original t kw
     then download_original_file fuel E t title playlist kw
     else ret (None, false));
  match filename with
  | None =>
      if kw_only_original kw then
        log Info (MsgNoOriginalSkipping title);; ret None
      else
        r <- download_hls fuel E t title playlist kw; ret (Some r)
  | Some f => ret (Some (f, is_already_downloaded))
  end.

(** Lines 555-558 of [download_track]: the name goes to [fileToKeep] with
    [--remove], and the track to the archive. *)
Definition keep_and_record (E : env) (t : track) (filename : pystr) (kw : kwargs)
    : M unit :=
  (if kw_remove kw then keep_file filename else ret tt);;
  record_download_archive E t kw.

(** The text is empty or ends a line. *)
Definition line_terminated (text : pystr) : Prop :=
  text = [] \/ exists a, text = a ++ [LF].

(** The audio is fetched: the body of the original file is read, or the
    stream is copied by [ffmpeg]. *)
Definition is_download (e : event) : bool :=
  match e with
  | EvBody _ | EvRemux _ => true
  | _ => false
  end.

(** The original file is asked for. *)
Definition is_original_attempt (e : event) : bool :=
  match e with
  | EvOriginalLink _ => true
  | _ => false
  end.

(** The stream is asked for or copied. *)
Definition is_stream_attempt (e : event) : bool :=
  match e with
  | EvManifest | EvRemux _ => true
  | _ => false
  end.

(** Tags are written to a file only if its name has a tagged extension. *)
Definition tags_only_tagged (e : event) : bool :=
  match e with
  | EvTags f _ => tagged_extension f
  | _ => true
  end.

(** Every event [m] adds to the trace satisfies [p]. *)
Definition emits {A} (p : event -> bool) (m : M A) : Prop :=
  forall w, exists new,
    trace (snd (m w)) = trace w ++ new /\ forallb p new = true.

(** A code point that [encode_char] accepts. *)
Definition encodable (c : N) : bool :=
  match encode_char c with Some _ => true | None => false end.

(** [p] holds of every number below [n]. *)
Definition all_below (p : N -> bool) (n : N) : bool :=
  snd (N.iter n (fun '(i, ok) => (N.succ i, ok && p i)) (0%N, true)).

(** Decoding the encoding of [c] gives [c] back. *)
Definition roundtrip_char (c : N) : bool :=
  match encode_char c with
  | Some b =>
      match decode_head b with
      | Some (c', []) => (c' =? c)%N
      | _ => false
      end
  | None => true
  end.

(** A character of a decimal numeral: a digit or the sign. *)
Definition numeral_char (c : N) : bool :=
  ((48 <=? c) && (c <=? 57))%N || (c =? 45)%N.

(** [w1] is reached from [w] without fetching audio and without writing to
    the archive. *)
Definition calm (w w1 : world) : Prop :=
  archive w1 = archive w /\
  exists new, trace w1 = trace w ++ new /\
              forallb (fun e => negb (is_download e)) new = true.

(** Every run of [m] leaves a world that [R] relates to the world it
    starts from. *)
Definition keeps {A} (R : world -> world -> Prop) (m : M A) : Prop :=
  forall w, R w (snd (m w)).

(** The archive is as it was. *)
Definition same_archive (w w1 : world) : Prop := archive w1 = archive w.

(** Every file is still there. *)
Definition files_stay (w w1 : world) : Prop := files w ⊆ files w1.

(** The archive is as it was, or [line] has been appended to it once. *)
Definition one_line_more (line : pystr) (w w1 : world) : Prop :=
  archive w1 = archive w \/ archive w1 = archive w ++ line.

(** Nothing but [code] is handed to [sys.exit] by [m]. *)
Definition exits_only {A} (code : Z) (m : M A) : Prop :=
  forall w c, fst (m w) = Exit c -> c = code.

(** A file is deleted. *)
Definition is_removal (e : event) : bool :=
  match e with
  | EvRemove _ => true
  | _ => false
  end.

(** The test of lines 476-479 on one transcoding. *)
Definition transcoding_fits (aac : bool) (tr : transcoding) : bool :=
  bool_decide (protocol tr = py "hls")
  && ((negb aac && bool_decide (mime_type tr = py "audio/mpeg"))
      || (aac && startswith (py "audio/mp4") (mime_type tr))).

(** Lines 422-429: the name of the original file, from the name [d] of the
    [content-disposition] header and the extension of the content type. *)
Definition response_filename (r : response) (d : pystr) : pystr :=
  fst (splitext d)
  ++ (if truthy (guessed_extension r)
      then default (snd (splitext d)) (guessed_extension r)
      else snd (splitext d)).

(** The last message of a run that went well: [{filename} Downloaded.] *)
Definition is_downloaded_message (e : event) : bool :=
  match e with
  | EvLog Info (MsgDownloaded _) => true
  | _ => false
  end.

(** From [w] to [w1] the trace has grown, and if the run has ended on the
    message that [f] is downloaded, then [f] is in the directory and among
    the files to keep. *)
Definition downloaded_is_kept (w w1 : world) : Prop :=
  exists new, trace w1 = trace w ++ new /\
    forall f new', new = new' ++ [EvLog Info (MsgDownloaded f)] ->
                   f ∈ files w1 /\ f ∈ fileToKeep w1.

(** From [w] to [w1] the trace has grown by events that [p] holds of. *)
Definition grown_by (p : event -> bool) (w w1 : world) : Prop :=
  exists new, trace w1 = trace w ++ new /\ forallb p new = true.

(** The file name that line 432 or line 502 logs is plain. *)
Definition names_plainly (e : event) : bool :=
  match e with
  | EvLog Debug (MsgFilename f) => plain_name f
  | _ => true
  end.

(** [remove_files] deletes the archive: it is an entry of the directory
    and its name is not among the files to keep. *)
Definition archive_goes (archive_entry : option pystr) (w : world) : bool :=
  match archive_entry with
  | Some a => negb (bool_decide (a ∈ fileToKeep w))
  | None => false
  end.

(** The regular files of the directory have plain names, as the entries
    of a directory have. *)
Definition plain_entries (a : option pystr) (w : world) : bool :=
  forallb plain_name (elements (regular_files a w)).

(** The number that a decimal numeral of ASCII digits denotes, with its
    sign and its leading zeros. *)
Definition read_int (s : pystr) : option Z :=
  if forallb (fun c => (c <? 128)%N) s then
    Z.of_int <$> NilZero.int_of_string (string_of_list_ascii (map ascii_of_N s))
  else None.

(** [l] is in the order of [sort_newest_first]: no track is older than one
    behind it. *)
Fixpoint newest_first {B : Builtins} (l : list track) : Prop :=
  match l with
  | [] => True
  | x :: l' =>
      Forall (fun y => instant (created_at y) <= instant (created_at x)) l'
      /\ newest_first l'
  end.

(** ** Sample data to compute with *)

(** Modelled from the spec: the runtime of the examples.  [sanitize_filename]
    ("strip/replace characters illegal on common filesystems") is the
    removal of the control characters and of the characters
    [\ / : * ? < > |] and the double quote; [str_lower] is the lowering of
    the ASCII letters; [str_format] knows the placeholders [{title}], [{id}],
    [{timestamp}], [{user[username]}], [{playlist[author]}],
    [{playlist[title]}] and [{playlist[tracknumber]}].  It instantiates the
    [Runtime] where a property is evaluated on an input; no theorem assumes
    it. *)
Module Sample.

Definition illegal (c : N) : bool :=
  (c <? 32)%N || (c =? 127)%N
  || bool_decide (c ∈ [92; 47; 58; 42; 63; 34; 60; 62; 124]%N).

Definition sanitize (s : pystr) : pystr := filter (fun c => illegal c = false) s.

Definition lower_char (c : N) : N :=
  if ((65 <=? c) && (c <=? 90))%N then (c + 32)%N else c.

Definition lower (s : pystr) : pystr := map lower_char s.

Definition field (t : track) (pl : option playlist_info) (ts : pystr) (k : pystr) : option pystr :=
  if bool_decide (k = py "title") then Some (title t)
  else if bool_decide (k = py "id") then Some (str_of_Z (track_id t))
  else if bool_decide (k = py "timestamp") then Some ts
  else if bool_decide (k = py "user[username]") then Some (username (track_user t))
  else if bool_decide (k = py "playlist[author]") then pl_author <$> pl
  else if bool_decide (k = py "playlist[title]") then pl_title <$> pl
  else if bool_decide (k = py "playlist[tracknumber]") then pl_tracknumber <$> pl
  else None.

(** [key] holds the placeholder being read, reversed, once a brace opened. *)
Fixpoint format_from (t : track) (pl : option playlist_info) (ts : pystr)
    (key : option pystr) (s : pystr) : option pystr :=
  match s, key with
  | [], None => Some []
  | [], Some _ => None
  | c :: s', None =>
      if (c =? 123)%N then format_from t pl ts (Some []) s'
      else cons c <$> format_from t pl ts None s'
  | c :: s', Some k =>
      if (c =? 125)%N then
        v <- field t pl ts (reverse k);
        r <- format_from t pl ts None s';
        Some (v ++ r)
      else format_from t pl ts (Some (c :: k)) s'
  end.

#[export] Instance runtime : Runtime := {|
  sanitize_filename := sanitize;
  str_lower := lower;
  str_format := fun template t pl ts => format_from t pl ts None template;
|}.

(** [str.lower] where it adds an octet: of the capital I with a dot above,
    U+0130, Python makes the two code points i and U+0307, three octets
    for two.  The other characters are lowered as by [lower]. *)
Definition lower_dotted (s : pystr) : pystr :=
  flat_map (fun c => if (c =? 0x130)%N then [0x69; 0x307]%N else [lower_char c]) s.

Definition runtime_dotted : Runtime := {|
  sanitize_filename := sanitize;
  str_lower := lower_dotted;
  str_format := fun template t pl ts => format_from t pl ts None template;
|}.

Definition artist : user :=
  {| username := py "Artist"; avatar_url := py "https://i1.sndcdn.com/avatars-large.jpg" |}.

Definition when : datetime :=
  {| timestamp := 1600000000; mktime := 1600000000;
     strftime := py "2020-09-13 12::26::40" |}.

(** A track with the given title that can be streamed and downloaded. *)
Definition track_titled (s : pystr) : track :=
  {| track_id := 42; title := s; track_user := artist; created_at := when;
     streamable := true; policy := py "ALLOW";
     downloadable := true; has_downloads_left := true;
     transcodings :=
       [ {| protocol := py "hls"; mime_type := py "audio/mpeg";
            transcoding_url := py "https://api/media/stream/hls" |} ];
     genre := Some (py "pop"); permalink_url := None; description := None;
     artwork_url := None |}.

Definition song : track := track_titled (py "Artist - Title").

(** The options, by the flags the examples set: the archive is kept in
    [archive.txt], [-c], [--overwrite], [--flac], [--original-name],
    [--no-original], [--extract-artist]; all others are unset and the name
    formats are those of the default configuration. *)
Definition options (archive c overwrite flac original_name no_original
    extract_artist : bool) : kwargs :=
  {| kw_original_name := original_name; kw_addtofile := false;
     kw_addtimestamp := false; kw_name_format := py "{title}";
     kw_playlist_name_format := py "{playlist[title]}_{title}";
     kw_onlymp3 := false; kw_no_original := no_original;
     kw_only_original := false; kw_remove := false;
     kw_force_metadata := false; kw_flac := flac; kw_overwrite := overwrite;
     kw_download_archive := if archive then Some (py "archive.txt") else None;
     kw_c := c; kw_extract_artist := extract_artist;
     kw_no_album_tag := false; kw_original_art := false |}.

(** No flag set. *)
Definition plain : kwargs := options false false false false false false false.
(** [--download-archive archive.txt -c] *)
Definition archive_c : kwargs := options true true false false false false false.
(** [--download-archive archive.txt -c --overwrite] *)
Definition archive_c_overwrite : kwargs := options true true true false false false false.
(** [--flac] *)
Definition flac_only : kwargs := options false false false true false false false.
(** [--original-name] *)
Definition original_name_only : kwargs := options false false false false true false false.
(** [--no-original] *)
Definition no_original_only : kwargs := options false false false false false true false.
(** [--extract-artist] *)
Definition extract_only : kwargs := options false false false false false false true.

(** The outside: the original file is answered by [original]; the stream
    is copied without error; nothing else fails. *)
Definition outside (original : option response) : env :=
  {| original_download := original; manifest_url := Some (py "https://cf-hls/playlist.m3u8");
     remux_writes_file := true; remux_stderr := false;
     convert_writes_file := true; archive_ioerror := false;
     mutagen_raises := false; cover_art_found := true; utime_fails := false |}.

(** The download is refused: status 401. *)
Definition refused : response :=
  {| status_code := 401; disposition_filename := None; guessed_extension := None;
     content_length := None; body_received := 0 |}.

(** The original is a [.wav] file of 1000 octets, all received. *)
Definition wav : response :=
  {| status_code := 200; disposition_filename := Some (py "song.wav");
     guessed_extension := Some (py ".wav"); content_length := Some 1000;
     body_received := 1000 |}.

Definition empty_world : world :=
  {| files := ∅; archive := []; fileToKeep := []; trace := [] |}.

(** A directory with the given files and an archive with the given text. *)
Definition world_with (fs : list pystr) (text : pystr) : world :=
  {| files := list_to_set fs; archive := text; fileToKeep := []; trace := [] |}.

(** The world after a first run on [song] with the archive kept. *)
Definition after_first_run : world :=
  snd (download_track 400 (outside (Some refused)) song None archive_c empty_world).

End Sample.

(** ** More data to compute with *)

Module Cases.

(** [--download-archive archive.txt -c --no-original] *)
Definition no_original_archive : kwargs :=
  Sample.options true true false false false true false.

(** A track with an mp3 stream over hls and an aac stream that is not
    over hls. *)
Definition progressive_aac : track :=
  {| track_id := 42; title := py "Artist - Title"; track_user := Sample.artist;
     created_at := Sample.when; streamable := true; policy := py "ALLOW";
     downloadable := false; has_downloads_left := false;
     transcodings :=
       [ {| protocol := py "hls"; mime_type := py "audio/mpeg";
            transcoding_url := py "https://api/media/stream/hls" |};
         {| protocol := py "progressive"; mime_type := py "audio/mp4";
            transcoding_url := py "https://api/media/stream/progressive" |} ];
     genre := None; permalink_url := None; description := None;
     artwork_url := None |}.

(** The original is a [.wav] file of 1000 octets of which 400 arrive. *)
Definition cut_short : response :=
  {| status_code := 200; disposition_filename := Some (py "song.wav");
     guessed_extension := Some (py ".wav"); content_length := Some 1000;
     body_received := 400 |}.

(** [--overwrite] *)
Definition overwrite_only : kwargs :=
  Sample.options false false true false false false false.

(** The outside of [Sample.outside] with an [ffmpeg] that converts nothing. *)
Definition no_conversion (original : option response) : env :=
  {| original_download := original;
     manifest_url := Some (py "https://cf-hls/playlist.m3u8");
     remux_writes_file := true; remux_stderr := false;
     convert_writes_file := false; archive_ioerror := false;
     mutagen_raises := false; cover_art_found := true; utime_fails := false |}.

(** [-c --no-original] *)
Definition continue_no_original : kwargs :=
  Sample.options false true false false false true false.

(** The builtins of the examples: the instant of a [datetime] is its time
    stamp in seconds, and [int] reads a decimal numeral.  No theorem
    assumes them. *)
#[export] Instance builtins : Builtins := {|
  instant := timestamp;
  py_int := read_int;
|}.

(** A track by its id and the second of its creation. *)
Definition track_at (id : Z) (second : Z) : track :=
  {| track_id := id; title := py "Title " ++ str_of_Z id;
     track_user := Sample.artist;
     created_at := {| timestamp := second; mktime := second;
                      strftime := py "2020-09-13 12::26::40" |};
     streamable := true; policy := py "ALLOW";
     downloadable := false; has_downloads_left := false;
     transcodings :=
       [ {| protocol := py "hls"; mime_type := py "audio/mpeg";
            transcoding_url := py "https://api/media/stream/hls" |} ];
     genre := None; permalink_url := None; description := None;
     artwork_url := None |}.

(** A playlist of four tracks, two of them of one instant. *)
Definition album : playlist :=
  {| playlist_title := py "Album"; playlist_user := Sample.artist;
     playlist_tracks := [track_at 1 100; track_at 2 300; track_at 3 200;
                         track_at 4 300] |}.

(** [-n 2] *)
Definition newest_two : playlist_kwargs :=
  {| kw_n := Some (py "2"); kw_offset := 1; kw_no_playlist_folder := false |}.

(** [-n some] *)
Definition some_tracks : playlist_kwargs :=
  {| kw_n := Some (py "some"); kw_offset := 1; kw_no_playlist_folder := false |}.

(** [-o 3] *)
Definition from_third : playlist_kwargs :=
  {| kw_n := None; kw_offset := 3; kw_no_playlist_folder := false |}.

(** [--remove --no-original] *)
Definition remove_no_original : kwargs :=
  {| kw_original_name := false; kw_addtofile := false;
     kw_addtimestamp := false; kw_name_format := py "{title}";
     kw_playlist_name_format := py "{playlist[title]}_{title}";
     kw_onlymp3 := false; kw_no_original := true;
     kw_only_original := false; kw_remove := true;
     kw_force_metadata := false; kw_flac := false; kw_overwrite := false;
     kw_download_archive := None; kw_c := false; kw_extract_artist := false;
     kw_no_album_tag := false; kw_original_art := false |}.

(** The outside answers every run as [Sample.outside None] does. *)
Definition site : client :=
  {| answers := fun _ _ => Sample.outside None |}.

(** The program is in its starting directory, which holds the given files
    and has no subdirectory. *)
Definition start (fs : list pystr) : session :=
  {| cwd := Sample.world_with fs []; notes := []; folder := None;
     start_files := ∅; folders := ∅ |}.

(** A playlist whose title has only characters that [Sample.sanitize]
    removes. *)
Definition nameless : playlist :=
  {| playlist_title := py "???"; playlist_user := Sample.artist;
     playlist_tracks := [track_at 1 100] |}.

(** [--force-metadata --no-original], with or without
    [--download-archive archive.txt] *)
Definition force_metadata (archive : bool) : kwargs :=
  {| kw_original_name := false; kw_addtofile := false;
     kw_addtimestamp := false; kw_name_format := py "{title}";
     kw_playlist_name_format := py "{playlist[title]}_{title}";
     kw_onlymp3 := false; kw_no_original := true;
     kw_only_original := false; kw_remove := false;
     kw_force_metadata := true; kw_flac := false; kw_overwrite := false;
     kw_download_archive := if archive then Some (py "archive.txt") else None;
     kw_c := false; kw_extract_artist := false;
     kw_no_album_tag := false; kw_original_art := false |}.

Definition force_metadata_no_original : kwargs := force_metadata false.

Definition force_metadata_archive : kwargs := force_metadata true.

End Cases.

(** * Properties *)

(** Unfold the sequencing of a pure computation. *)
Ltac outcome_simpl :=
  unfold bind, mbind, mret, outcome_bind, outcome_ret, or_raise in *; simpl in *.

(** Unfold the sequencing of the pipeline. *)
Ltac run_M :=
  unfold bind, mbind, mret, M_bind, M_ret, ret, lift, log, emit, isfile,
    os_remove, create_file, sys_exit, raise, read_archive in *; simpl in *.

(** ** Examples of the string functions *)

Example splitext_wav :
  splitext (py "a.b/song.tar.wav") = (py "a.b/song.tar", py ".wav").
Proof. reflexivity. Qed.

Example splitext_hidden : splitext (py "dir/..bashrc") = (py "dir/..bashrc", []).
Proof. reflexivity. Qed.

Example split_three : split (py " - ") (py "A - B - C") = [py "A"; py "B"; py "C"].
Proof. reflexivity. Qed.

Example str_of_Z_42 :
  str_of_Z 42 = py "42" /\ str_of_Z (-7) = py "-7" /\ str_of_Z 0 = py "0".
Proof. repeat split; reflexivity. Qed.

Example decode_encode_sample :
  decode_utf8 (encode_utf8_ignore [0x41; 0xE9; 0xD800; 0x20AC; 0x1F600]%N)
  = Some [0x41; 0xE9; 0x20AC; 0x1F600]%N.
Proof. reflexivity. Qed.

(** ** Strings *)

Lemma encode_utf8_app (a b : pystr) :
  encode_utf8 (a ++ b) =
  match encode_utf8 a, encode_utf8 b with
  | Some x, Some y => Some (x ++ y)
  | _, _ => None
  end.
Proof.
  induction a as [|c a IH]; simpl.
  - by destruct (encode_utf8 b).
  - rewrite IH. destruct (encode_char c), (encode_utf8 a), (encode_utf8 b); simpl; try done.
    by rewrite app_assoc.
Qed.

Lemma encode_utf8_take (n : nat) (s : pystr) (b : pybytes) :
  encode_utf8 s = Some b ->
  exists b', encode_utf8 (take n s) = Some b' /\ (length b' <= length b)%nat.
Proof.
  intros Hs. rewrite <- (take_drop n s) in Hs. rewrite encode_utf8_app in Hs.
  destruct (encode_utf8 (take n s)) as [x|]; [|done].
  destruct (encode_utf8 (drop n s)) as [y|]; [|done].
  injection Hs as <-. exists x. split; [done|]. rewrite length_app. lia.
Qed.

Lemma slice_to_neg_length (n : nat) (s : pystr) :
  length (slice_to_neg n s) = (length s - n)%nat.
Proof. unfold slice_to_neg. rewrite length_take. lia. Qed.

Lemma utf8_len_Ok (s : pystr) (n : Z) :
  utf8_len s = Ok n <-> exists b, encode_utf8 s = Some b /\ n = Z.of_nat (length b).
Proof.
  unfold utf8_len. destruct (encode_utf8 s) as [b|]; outcome_simpl; split.
  - intros [= <-]. eauto.
  - intros (b' & [= <-] & ->). done.
  - done.
  - by intros (b' & ? & _).
Qed.

(** ** The loop that cuts the title *)

(** The loop of [get_filename], when title and extension can be encoded and
    the extension takes at most 255 octets: it ends with the longest prefix
    of the title that fits. *)
Lemma truncate_title_spec (fuel : nat) (title ext : pystr) (tb eb : pybytes) :
  encode_utf8 title = Some tb ->
  encode_utf8 ext = Some eb ->
  (length eb <= 255)%nat ->
  (length title < fuel)%nat ->
  exists (k : nat) (kb : pybytes),
    (k <= length title)%nat /\
    truncate_title fuel title ext = Ok (take k title) /\
    encode_utf8 (take k title) = Some kb /\
    (length kb + length eb <= 255)%nat /\
    (k = length title \/
     exists kb', encode_utf8 (take (S k) title) = Some kb' /\
                 (255 < length kb' + length eb)%nat).
Proof.
  intros Ht He Hle. revert title tb Ht.
  induction fuel as [|fuel IH]; intros title tb Ht Hfuel; [lia|].
  simpl. unfold utf8_len. rewrite Ht, He. outcome_simpl.
  destruct (255 - Z.of_nat (length eb) <? Z.of_nat (length tb)) eqn:Hcmp.
  - apply Z.ltb_lt in Hcmp.
    assert (Hne : (0 < length title)%nat).
    { destruct title; simpl in *; [|lia]. injection Ht as <-. simpl in Hcmp. lia. }
    destruct (encode_utf8_take (length title - 1) title tb Ht) as (tb' & Ht' & _).
    destruct (IH (slice_to_neg 1 title) tb' Ht') as (k & kb & Hk & Hrun & Hkb & Hfit & Hmax).
    { rewrite slice_to_neg_length. lia. }
    rewrite slice_to_neg_length in Hk.
    unfold slice_to_neg in *.
    rewrite take_take in Hrun, Hkb. rewrite Nat.min_l in Hrun, Hkb by lia.
    exists k, kb. split_and!; [lia|done|done|done|].
    right. destruct Hmax as [->|(kb' & Hkb' & Hbig)].
    + rewrite length_take, Nat.min_l by lia.
      replace (S (length title - 1)) with (length title) by lia.
      rewrite firstn_all. exists tb. split; [done|lia].
    + destruct (decide (S k <= length title - 1)%nat) as [Hs|Hs].
      * rewrite take_take, Nat.min_l in Hkb' by lia. eauto.
      * rewrite take_take, Nat.min_r in Hkb' by lia.
        replace (S k) with (length title) by lia.
        rewrite firstn_all. exists tb. split; [done|]. rewrite Ht' in Hkb'.
        injection Hkb' as <-. lia.
  - apply Z.ltb_ge in Hcmp.
    exists (length title), tb. rewrite firstn_all.
    split_and!; [lia|done|done|lia|by left].
Qed.

(** When the extension takes more than 255 octets the condition of the loop
    holds at every title, the empty one too: the loop never ends. *)
Lemma truncate_title_diverges (fuel : nat) (title ext : pystr) (tb eb : pybytes) :
  encode_utf8 title = Some tb ->
  encode_utf8 ext = Some eb ->
  (255 < length eb)%nat ->
  truncate_title fuel title ext = OutOfFuel.
Proof.
  intros Ht He Hbig. revert title tb Ht.
  induction fuel as [|fuel IH]; intros title tb Ht; [done|].
  simpl. unfold utf8_len. rewrite Ht, He. outcome_simpl.
  destruct (255 - Z.of_nat (length eb) <? Z.of_nat (length tb)) eqn:Hcmp.
  - destruct (encode_utf8_take (length title - 1) title tb Ht) as (tb' & Ht' & _).
    by apply (IH _ tb').
  - apply Z.ltb_ge in Hcmp. lia.
Qed.

(** ** The claims about the length of the file name *)

(** C9. The loop of lines 395-396 ends whenever the extension takes at most
    255 octets: with more fuel than the title has characters the run does
    not stop for want of fuel; it returns a prefix of the title, or the
    encoding of the title raises.  Each pass drops exactly one character
    from the end, and at the empty title the loop is left at once. *)
Theorem truncate_title_terminates (title ext : pystr) (le : Z) (fuel : nat) :
  utf8_len ext = Ok le ->
  le <= 255 ->
  (length title < fuel)%nat ->
  ((exists k, (k <= length title)%nat /\
              truncate_title fuel title ext = Ok (take k title))
   \/ truncate_title fuel title ext = Raise UnicodeEncodeError)
  /\ (forall s : pystr, length (slice_to_neg 1 s) = (length s - 1)%nat)
  /\ truncate_title fuel [] ext = Ok [].
Proof.
  intros He Hle Hfuel. apply utf8_len_Ok in He as (eb & He & ->).
  split_and!.
  - destruct (encode_utf8 title) as [tb|] eqn:Ht.
    + left. destruct (truncate_title_spec fuel title ext tb eb Ht He) as (k & kb & Hk & Hrun & _);
        [lia|done|]. eauto.
    + right. destruct fuel as [|fuel]; [lia|].
      simpl. unfold utf8_len. rewrite Ht. by outcome_simpl.
  - intros s. apply slice_to_neg_length.
  - destruct (truncate_title_spec fuel [] ext [] eb eq_refl He) as (k & kb & Hk & Hrun & _);
      [lia|simpl in *; lia|]. by rewrite take_nil in Hrun.
Qed.

Lemma truncate_title_terminates_witness :
  ((exists k, (k <= length (replicate 300 65%N))%nat /\
              truncate_title 301 (replicate 300 65%N) (py ".mp3") = Ok (take k (replicate 300 65%N)))
   \/ truncate_title 301 (replicate 300 65%N) (py ".mp3") = Raise UnicodeEncodeError)
  /\ (forall s : pystr, length (slice_to_neg 1 s) = (length s - 1)%nat)
  /\ truncate_title 301 [] (py ".mp3") = Ok [].
Proof.
  apply (truncate_title_terminates (replicate 300 65%N) (py ".mp3") 4 301).
  - reflexivity.
  - lia.
  - vm_compute. lia.
Defined.

(** [get_filename] behind the early return of line 370. *)
Lemma get_filename_unfold {R : Runtime} (fuel : nat) (t : track) (o : option pystr)
    (aac : bool) (pl : option playlist_info) (kw : kwargs) (title ext : pystr) :
  kw_original_name kw && truthy o = false ->
  compose_title t pl kw = Ok title ->
  resolve_ext o aac = Ok ext ->
  get_filename fuel t o aac pl kw =
  match truncate_title fuel title ext with
  | Ok title' => Ok (sanitize_filename (title' ++ str_lower ext))
  | Exit c => Exit c
  | Raise e => Raise e
  | OutOfFuel => OutOfFuel
  end.
Proof.
  intros Hearly Ht He. unfold get_filename. rewrite Hearly, Ht, He.
  unfold bind, mbind, outcome_bind. simpl.
  by destruct (truncate_title fuel title ext).
Qed.

(** C2, as amended.  Behind the early return for a kept original name:
    when the extension takes at most 255 octets, its lower case takes no
    more octets than it, and [sanitize_filename] keeps a name that fits
    within 255 octets and with its extension, the name that [get_filename]
    returns takes at most 255 octets and ends with the extension in lower
    case.  It is the sanitized form of the longest prefix of the composed
    title whose octets and those of the extension are at most 255 together,
    followed by the extension in lower case.  A title of 300 letters A with
    [.mp3] gives 251 letters and [.mp3], 255 octets. *)
Theorem get_filename_fits {R : Runtime} (fuel : nat) (t : track) (o : option pystr)
    (aac : bool) (pl : option playlist_info) (kw : kwargs)
    (title ext : pystr) (lt le le' : Z) :
  kw_original_name kw && truthy o = false ->
  compose_title t pl kw = Ok title ->
  resolve_ext o aac = Ok ext ->
  utf8_len title = Ok lt ->
  utf8_len ext = Ok le ->
  le <= 255 ->
  utf8_len (str_lower ext) = Ok le' ->
  le' <= le ->
  sanitize_keeps (str_lower ext) ->
  (length title < fuel)%nat ->
  (exists (name stem : pystr) (ln : Z),
     get_filename fuel t o aac pl kw = Ok name /\
     name = stem ++ str_lower ext /\
     utf8_len name = Ok ln /\
     ln <= 255 /\
     exists (k : nat) (lk : Z),
       (k <= length title)%nat /\
       name = sanitize_filename (take k title ++ str_lower ext) /\
       utf8_len (take k title) = Ok lk /\
       lk + le <= 255 /\
       (k = length title \/
        exists lk', utf8_len (take (S k) title) = Ok lk' /\ 255 < lk' + le))
  /\ (title = replicate 300 65%N -> ext = py ".mp3" ->
      str_lower (py ".mp3") = py ".mp3" ->
      sanitize_filename (replicate 251 65%N ++ py ".mp3")
        = replicate 251 65%N ++ py ".mp3" ->
      get_filename fuel t o aac pl kw = Ok (replicate 251 65%N ++ py ".mp3")
      /\ utf8_len (replicate 251 65%N ++ py ".mp3") = Ok 255).
Proof.
  intros Hearly Ht He Hlt Hle Hbound Hlow Hlowle Hsan Hfuel.
  apply utf8_len_Ok in Hlt as (tb & Htb & ->).
  apply utf8_len_Ok in Hle as (eb & Heb & ->).
  apply utf8_len_Ok in Hlow as (lb & Hlb & ->).
  destruct (truncate_title_spec fuel title ext tb eb Htb Heb) as
    (k & kb & Hk & Hrun & Hkb & Hfit & Hmax); [lia|done|].
  assert (Hget : get_filename fuel t o aac pl kw
                 = Ok (sanitize_filename (take k title ++ str_lower ext))).
  { rewrite (get_filename_unfold fuel t o aac pl kw title ext) by done. by rewrite Hrun. }
  split.
  - destruct (Hsan (take k title) (Z.of_nat (length (kb ++ lb))))
      as (stem & lr & Hname & Hlen & Hlr).
    { apply utf8_len_Ok. exists (kb ++ lb). split; [|done].
      by rewrite encode_utf8_app, Hkb, Hlb. }
    { rewrite length_app. lia. }
    exists (sanitize_filename (take k title ++ str_lower ext)), stem, lr.
    split_and!; [done|done|by rewrite Hname|done|].
    exists k, (Z.of_nat (length kb)). split_and!; [done|done| |lia|].
    + apply utf8_len_Ok. eauto.
    + destruct Hmax as [->|(kb' & Hkb' & Hbig)]; [by left|right].
      exists (Z.of_nat (length kb')). split; [apply utf8_len_Ok; eauto|lia].
  - intros -> -> Hmp3 Hclean. split; [|reflexivity].
    assert (k = 251%nat) as ->.
    2:{ rewrite Hget, take_replicate, Hmp3. simpl Nat.min. exact (f_equal Ok Hclean). }
    assert (Henc : forall n : nat, encode_utf8 (replicate n 65%N) = Some (replicate n 65%N)).
    { induction n as [|n IH]; [done|]. simpl. by rewrite IH. }
    assert (Heb' : eb = py ".mp3") by (vm_compute in Heb; injection Heb as <-; reflexivity). subst eb.
    rewrite length_replicate in Hk.
    rewrite take_replicate, Nat.min_l, Henc in Hkb by done. injection Hkb as <-.
    rewrite length_replicate in Hfit. change (length (py ".mp3")) with 4%nat in *.
    destruct Hmax as [Hmax|(kb' & Hkb' & Hbig)].
    + rewrite length_replicate in Hmax. lia.
    + rewrite take_replicate, Henc in Hkb'. injection Hkb' as <-.
      simpl in Hbig. rewrite length_replicate in Hbig. lia.
Qed.

(** X1. When the extension of the original file name takes more than 255 octets,
    the loop of lines 395-396 is never left: whatever the fuel,
    [get_filename] does not return. *)
Theorem get_filename_long_extension {R : Runtime} (t : track) (o : option pystr)
    (aac : bool) (pl : option playlist_info) (kw : kwargs)
    (title ext : pystr) (lt le : Z) (fuel : nat) :
  kw_original_name kw && truthy o = false ->
  compose_title t pl kw = Ok title ->
  resolve_ext o aac = Ok ext ->
  utf8_len title = Ok lt ->
  utf8_len ext = Ok le ->
  255 < le ->
  get_filename fuel t o aac pl kw = OutOfFuel.
Proof.
  intros Hearly Ht He Hlt Hle Hbig.
  apply utf8_len_Ok in Hlt as (tb & Htb & ->).
  apply utf8_len_Ok in Hle as (eb & Heb & ->).
  rewrite (get_filename_unfold fuel t o aac pl kw title ext) by done.
  rewrite (truncate_title_diverges fuel title ext tb eb) by (done || lia). done.
Qed.

Lemma get_filename_long_extension_witness :
  get_filename (R := Sample.runtime) 1000 Sample.song
    (Some (py "x." ++ replicate 256 97%N)) false None Sample.plain
  = OutOfFuel.
Proof.
  apply (get_filename_long_extension (R := Sample.runtime) Sample.song
           (Some (py "x." ++ replicate 256 97%N)) false None Sample.plain
           (py "Artist - Title") (py "." ++ replicate 256 97%N) 14 257 1000).
  - reflexivity.
  - vm_compute. reflexivity.
  - vm_compute. reflexivity.
  - reflexivity.
  - vm_compute. reflexivity.
  - lia.
Defined.

(** ** UTF-8: decoding what was encoded *)

Lemma all_below_spec (p : N -> bool) (n : N) :
  all_below p n = true -> forall c, (c < n)%N -> p c = true.
Proof.
  unfold all_below.
  assert (Hiter : forall m,
    fst (N.iter m (fun '(i, ok) => (N.succ i, ok && p i)) (0%N, true)) = m /\
    (snd (N.iter m (fun '(i, ok) => (N.succ i, ok && p i)) (0%N, true)) = true ->
     forall c, (c < m)%N -> p c = true)).
  { induction m as [|m IH] using N.peano_ind.
    - split; [done|]. intros _ c Hc. lia.
    - rewrite N.iter_succ.
      destruct (N.iter m _ _) as [i ok]. simpl in *. destruct IH as [-> IH].
      split; [done|]. intros [Hok Hp]%andb_true_iff c Hc.
      destruct (decide (c = m)) as [->|Hne]; [done|]. apply IH; [done|lia]. }
  intros H. by apply Hiter.
Qed.

(** The six bits of [c] from bit [k] on. *)
Lemma chunk_bound (c k : N) : (N.land (N.shiftr c k) 0x3F < 64)%N.
Proof.
  change 0x3F%N with (N.ones 6). rewrite N.land_ones.
  apply N.mod_lt. done.
Qed.

(** A continuation octet carries its six bits. *)
Lemma cont_octet (x : N) :
  (x < 64)%N ->
  is_cont (N.lor 0x80 x) = true /\ cont_bits (N.lor 0x80 x) = x
  /\ (N.lor 0x80 x <? 0x80)%N = false.
Proof.
  intros Hx.
  pose proof (all_below_spec
    (fun x => is_cont (N.lor 0x80 x) && (cont_bits (N.lor 0x80 x) =? x)%N
              && negb (N.lor 0x80 x <? 0x80)%N) 64 eq_refl x Hx) as Hall.
  simpl in Hall. apply andb_true_iff in Hall as [[H1 H2]%andb_true_iff H3].
  apply N.eqb_eq in H2. apply negb_true_iff in H3. done.
Qed.

(** The leading octets of the sequences of two, three and four octets. *)
Lemma lead2_octet (q : N) :
  (q < 32)%N ->
  (N.lor 0xC0 q <? 0x80)%N = false
  /\ (0xC0 <=? N.lor 0xC0 q)%N && (N.lor 0xC0 q <? 0xE0)%N = true
  /\ N.land (N.lor 0xC0 q) 0x1F = q.
Proof.
  intros Hq.
  pose proof (all_below_spec
    (fun q => negb (N.lor 0xC0 q <? 0x80)%N
              && ((0xC0 <=? N.lor 0xC0 q)%N && (N.lor 0xC0 q <? 0xE0)%N)
              && (N.land (N.lor 0xC0 q) 0x1F =? q)%N) 32 eq_refl q Hq) as Hall.
  simpl in Hall. apply andb_true_iff in Hall as [[H1 H2]%andb_true_iff H3].
  apply N.eqb_eq in H3. apply negb_true_iff in H1. done.
Qed.

Lemma lead3_octet (q : N) :
  (q < 16)%N ->
  (N.lor 0xE0 q <? 0x80)%N = false
  /\ (0xC0 <=? N.lor 0xE0 q)%N && (N.lor 0xE0 q <? 0xE0)%N = false
  /\ (0xE0 <=? N.lor 0xE0 q)%N && (N.lor 0xE0 q <? 0xF0)%N = true
  /\ N.land (N.lor 0xE0 q) 0x0F = q.
Proof.
  intros Hq.
  pose proof (all_below_spec
    (fun q => negb (N.lor 0xE0 q <? 0x80)%N
              && negb ((0xC0 <=? N.lor 0xE0 q)%N && (N.lor 0xE0 q <? 0xE0)%N)
              && ((0xE0 <=? N.lor 0xE0 q)%N && (N.lor 0xE0 q <? 0xF0)%N)
              && (N.land (N.lor 0xE0 q) 0x0F =? q)%N) 16 eq_refl q Hq) as Hall.
  simpl in Hall.
  apply andb_true_iff in Hall as [[[H1 H2]%andb_true_iff H3]%andb_true_iff H4].
  apply N.eqb_eq in H4. apply negb_true_iff in H1, H2. done.
Qed.

Lemma lead4_octet (q : N) :
  (q < 8)%N ->
  (N.lor 0xF0 q <? 0x80)%N = false
  /\ (0xC0 <=? N.lor 0xF0 q)%N && (N.lor 0xF0 q <? 0xE0)%N = false
  /\ (0xE0 <=? N.lor 0xF0 q)%N && (N.lor 0xF0 q <? 0xF0)%N = false
  /\ (0xF0 <=? N.lor 0xF0 q)%N && (N.lor 0xF0 q <? 0xF8)%N = true
  /\ N.land (N.lor 0xF0 q) 0x07 = q.
Proof.
  intros Hq.
  pose proof (all_below_spec
    (fun q => negb (N.lor 0xF0 q <? 0x80)%N
              && negb ((0xC0 <=? N.lor 0xF0 q)%N && (N.lor 0xF0 q <? 0xE0)%N)
              && negb ((0xE0 <=? N.lor 0xF0 q)%N && (N.lor 0xF0 q <? 0xF0)%N)
              && ((0xF0 <=? N.lor 0xF0 q)%N && (N.lor 0xF0 q <? 0xF8)%N)
              && (N.land (N.lor 0xF0 q) 0x07 =? q)%N) 8 eq_refl q Hq) as Hall.
  simpl in Hall.
  apply andb_true_iff in Hall
    as [[[[H1 H2]%andb_true_iff H3]%andb_true_iff H4]%andb_true_iff H5].
  apply N.eqb_eq in H5. apply negb_true_iff in H1, H2, H3. done.
Qed.

(** The bits of [c] from [k] on are those from [k + 6] on and the six
    before them. *)
Lemma recombine (c k : N) :
  N.lor (N.shiftl (N.shiftr c (k + 6)) (k + 6))
        (N.shiftl (N.land (N.shiftr c k) 0x3F) k)
  = N.shiftl (N.shiftr c k) k.
Proof.
  apply N.bits_inj. intros n. rewrite N.lor_spec.
  destruct (N.lt_ge_cases n k) as [Hlt|Hge].
  - rewrite !N.shiftl_spec_low by lia. done.
  - rewrite (N.shiftl_spec_high' (N.shiftr c k)) by done.
    rewrite (N.shiftl_spec_high' (N.land _ _)) by done.
    rewrite N.land_spec, !N.shiftr_spec'.
    replace (n - k + k)%N with n by lia.
    change 0x3F%N with (N.ones 6).
    destruct (N.lt_ge_cases (n - k) 6) as [Hlow|Hhigh].
    + rewrite N.ones_spec_low by done.
      rewrite N.shiftl_spec_low by lia. by rewrite andb_true_r.
    + rewrite N.ones_spec_high by done.
      rewrite N.shiftl_spec_high' by lia. rewrite N.shiftr_spec'.
      replace (n - (k + 6) + (k + 6))%N with n by lia.
      by rewrite andb_false_r, orb_false_r.
Qed.

Lemma shiftr_small (c k b : N) : (c < b * 2 ^ k)%N -> (N.shiftr c k < b)%N.
Proof.
  intros Hc. rewrite N.shiftr_div_pow2.
  apply N.Div0.div_lt_upper_bound. lia.
Qed.

Lemma roundtrip_char_ok (c : N) : roundtrip_char c = true.
Proof.
  unfold roundtrip_char, encode_char.
  destruct (c <? 0x80)%N eqn:H1.
  { unfold decode_head. rewrite H1. apply N.eqb_refl. }
  apply N.ltb_ge in H1.
  destruct (c <? 0x800)%N eqn:H2.
  { apply N.ltb_lt in H2.
    destruct (lead2_octet (N.shiftr c 6)) as (L1 & L2 & L3).
    { apply shiftr_small. lia. }
    destruct (cont_octet (N.land c 0x3F)) as (C1 & C2 & _).
    { apply (chunk_bound c 0). }
    unfold decode_head. rewrite L1, L2, L3, C1, C2.
    pose proof (recombine c 0) as Hc. rewrite N.shiftr_0_r, !N.shiftl_0_r in Hc.
    change (0 + 6)%N with 6%N in Hc. rewrite Hc.
    rewrite (proj2 (N.leb_le _ _) H1). simpl. apply N.eqb_refl. }
  apply N.ltb_ge in H2.
  destruct (is_surrogate c) eqn:Hs; [done|].
  destruct (c <? 0x10000)%N eqn:H3.
  { apply N.ltb_lt in H3.
    destruct (lead3_octet (N.shiftr c 12)) as (L1 & L2 & L3 & L4).
    { apply shiftr_small. lia. }
    destruct (cont_octet (N.land (N.shiftr c 6) 0x3F)) as (C1 & C2 & _).
    { apply chunk_bound. }
    destruct (cont_octet (N.land c 0x3F)) as (D1 & D2 & _).
    { apply (chunk_bound c 0). }
    unfold decode_head. rewrite L1, L2, L3, L4, C1, C2, D1, D2.
    pose proof (recombine c 0) as Hc0. rewrite N.shiftr_0_r, !N.shiftl_0_r in Hc0.
    change (0 + 6)%N with 6%N in Hc0.
    pose proof (recombine c 6) as Hc6. change (6 + 6)%N with 12%N in Hc6.
    rewrite N.lor_assoc, Hc6, Hc0.
    rewrite (proj2 (N.leb_le _ _) H2), Hs. simpl. apply N.eqb_refl. }
  apply N.ltb_ge in H3.
  destruct (c <? 0x110000)%N eqn:H4; [|done].
  pose proof H4 as H4'. apply N.ltb_lt in H4.
  destruct (lead4_octet (N.shiftr c 18)) as (L1 & L2 & L3 & L4 & L5).
  { apply shiftr_small. lia. }
  destruct (cont_octet (N.land (N.shiftr c 12) 0x3F)) as (B1 & B2 & _).
  { apply chunk_bound. }
  destruct (cont_octet (N.land (N.shiftr c 6) 0x3F)) as (C1 & C2 & _).
  { apply chunk_bound. }
  destruct (cont_octet (N.land c 0x3F)) as (D1 & D2 & _).
  { apply (chunk_bound c 0). }
  unfold decode_head. rewrite L1, L2, L3, L4, L5, B1, B2, C1, C2, D1, D2.
  pose proof (recombine c 0) as Hc0. rewrite N.shiftr_0_r, !N.shiftl_0_r in Hc0.
  change (0 + 6)%N with 6%N in Hc0.
  pose proof (recombine c 6) as Hc6. change (6 + 6)%N with 12%N in Hc6.
  pose proof (recombine c 12) as Hc12. change (12 + 6)%N with 18%N in Hc12.
  rewrite !N.lor_assoc, Hc12, Hc6, Hc0.
  rewrite (proj2 (N.leb_le _ _) H3), H4'. simpl. apply N.eqb_refl.
Qed.

Lemma encode_char_bound (c : N) (b : pybytes) :
  encode_char c = Some b -> (c < 0x110000)%N /\ b <> [].
Proof.
  unfold encode_char. intros Hc.
  repeat match type of Hc with
         | (if ?x then _ else _) = _ => destruct x eqn:?
         end; try done; injection Hc as <-; split; try done;
    repeat match goal with
           | H : (_ <? _)%N = true |- _ => apply N.ltb_lt in H
           end; lia.
Qed.

Lemma decode_head_app (b rest r : pybytes) (c : N) :
  decode_head b = Some (c, r) -> decode_head (b ++ rest) = Some (c, r ++ rest).
Proof.
  unfold decode_head. intros Hb.
  destruct b as [|b0 [|b1 [|b2 [|b3 b']]]]; simpl in *; try done;
    repeat match type of Hb with
           | (if ?x then _ else _) = _ => destruct x
           end; try done; by injection Hb as <- <-.
Qed.

Lemma decode_head_encode (c : N) (b rest : pybytes) :
  encode_char c = Some b -> decode_head (b ++ rest) = Some (c, rest).
Proof.
  intros Hc. pose proof (roundtrip_char_ok c) as Hrt.
  unfold roundtrip_char in Hrt. rewrite Hc in Hrt.
  destruct (decode_head b) as [[c' [|? ?]]|] eqn:Hd; try done.
  apply N.eqb_eq in Hrt as ->. exact (decode_head_app b rest [] c Hd).
Qed.

Lemma decode_encode_ignore (s : pystr) (fuel : nat) :
  (length (encode_utf8_ignore s) <= fuel)%nat ->
  decode_utf8_fuel fuel (encode_utf8_ignore s)
  = Some (List.filter encodable s).
Proof.
  revert fuel. induction s as [|c s IH]; intros fuel; simpl.
  - by destruct fuel.
  - unfold encodable at 1. destruct (encode_char c) as [b|] eqn:Hc; [|by apply IH].
    intros Hfuel. destruct (encode_char_bound c b Hc) as [_ Hne].
    rewrite length_app in Hfuel.
    destruct b as [|b0 b]; [done|]. simpl in Hfuel.
    destruct fuel as [|fuel]; [lia|].
    change (decode_utf8_fuel (S fuel) ((b0 :: b) ++ encode_utf8_ignore s))
      with (match decode_head ((b0 :: b) ++ encode_utf8_ignore s) with
            | Some (c, r) => cons c <$> decode_utf8_fuel fuel r
            | None => None
            end).
    rewrite (decode_head_encode c (b0 :: b)) by done.
    rewrite IH by lia. done.
Qed.

(** [s.encode("utf-8", "ignore").decode("utf-8")] never raises: it is [s]
    without the code points that cannot be encoded. *)
Lemma utf8_ignore_eq (s : pystr) : utf8_ignore s = Ok (List.filter encodable s).
Proof. unfold utf8_ignore, decode_utf8. by rewrite decode_encode_ignore. Qed.

(** ** [already_downloaded] *)

Lemma flac_name_neq (filename : pystr) : flac_name filename <> filename.
Proof.
  intros Heq. apply (f_equal length) in Heq. unfold flac_name in Heq.
  rewrite length_app, slice_to_neg_length in Heq. simpl in Heq. lia.
Qed.

Lemma bool_decide_difference_ne (f g : pystr) (X : gset (list N)) :
  f <> g -> bool_decide (f ∈ X ∖ {[g]}) = bool_decide (f ∈ X).
Proof.
  intros Hne. apply bool_decide_ext.
  rewrite elem_of_difference, elem_of_singleton. tauto.
Qed.

Lemma bool_decide_difference_eq (f : pystr) (X : gset (list N)) :
  bool_decide (f ∈ X ∖ {[f]}) = false.
Proof.
  apply bool_decide_eq_false.
  rewrite elem_of_difference, elem_of_singleton. tauto.
Qed.

Lemma difference_absent (f : pystr) (X : gset (list N)) :
  bool_decide (f ∈ X) = false -> X ∖ {[f]} = X.
Proof.
  intros Hf%bool_decide_eq_false_1. apply set_eq. intros x.
  rewrite elem_of_difference, elem_of_singleton.
  split; [tauto|]. intros Hx. split; [done|]. by intros ->.
Qed.

Ltac simpl_files :=
  repeat first [ rewrite bool_decide_difference_eq
               | rewrite bool_decide_difference_ne by done ].

(** The result of [already_downloaded] and the files it leaves. *)
Lemma already_downloaded_run (E : env) (t : track) (title filename : pystr)
    (kw : kwargs) (w : world) :
  let here := bool_decide (filename ∈ files w) in
  let sibling := bool_decide (flac_name filename ∈ files w) in
  let r := already_downloaded E t title filename kw w in
  fst r =
    (if verdict kw (can_convert filename) here sibling (is_listed E t kw w) then
       if kw_c kw || kw_remove kw || kw_force_metadata kw then Ok true
       else Exit (-1)
     else Ok false)
  /\ files (snd r) =
     (if kw_overwrite kw then
        if kw_flac kw && can_convert filename
        then files w ∖ {[filename]} ∖ {[flac_name filename]}
        else files w ∖ {[filename]}
      else files w)
  /\ archive (snd r) = archive w
  /\ fileToKeep (snd r) = fileToKeep w.
Proof.
  pose proof (flac_name_neq filename) as Hne.
  unfold already_downloaded, verdict, is_listed, in_download_archive. run_M.
  destruct (bool_decide (filename ∈ files w)) eqn:Hhere;
    destruct (kw_overwrite kw) eqn:Hov;
    destruct (kw_flac kw); destruct (can_convert filename); simpl;
    simpl_files; rewrite ?Hhere;
    destruct (bool_decide (flac_name filename ∈ files w)) eqn:Hsib; simpl;
    simpl_files; rewrite ?Hhere;
    destruct (archive_enabled kw); simpl;
    try destruct (archive_ioerror E); simpl;
    try destruct (archive_has (archive w) (track_id t)); simpl;
    simpl_files; rewrite ?Hhere;
    destruct (kw_c kw || kw_remove kw || kw_force_metadata kw); simpl;
    split_and!; try done.
  all: rewrite ?(difference_absent (flac_name filename)) by (by simpl_files);
       rewrite ?(difference_absent filename) by done; done.
Qed.

(** ** The archive *)

Lemma py_inj (s1 s2 : string) : py s1 = py s2 -> s1 = s2.
Proof.
  unfold py. intros Heq.
  rewrite <- (string_of_list_ascii_of_string s1), <- (string_of_list_ascii_of_string s2).
  f_equal. revert Heq. generalize (list_ascii_of_string s1) (list_ascii_of_string s2).
  induction l as [|a l IH]; intros [|b l']; simpl; try done.
  intros [= Hab Hl]. f_equal; [|by apply IH].
  rewrite <- (ascii_N_embedding a), <- (ascii_N_embedding b). by rewrite Hab.
Qed.

Lemma str_of_Z_inj (n m : Z) : str_of_Z n = str_of_Z m -> n = m.
Proof.
  unfold str_of_Z. intros Heq%py_inj. apply DecimalZ.to_int_inj.
  assert (Hnn : forall z, Z.to_int z <> Decimal.Pos Decimal.Nil /\ Z.to_int z <> Decimal.Neg Decimal.Nil).
  { intros [|p|p]; simpl; split; try done; intros [= Hp];
      by apply DecimalPos.Unsigned.to_uint_nonnil in Hp. }
  pose proof (NilZero.isi (Z.to_int n) (proj1 (Hnn n)) (proj2 (Hnn n))) as Hn.
  pose proof (NilZero.isi (Z.to_int m) (proj1 (Hnn m)) (proj2 (Hnn m))) as Hm.
  rewrite Heq in Hn. congruence.
Qed.

Lemma string_of_uint_numeral (d : Decimal.uint) :
  forallb numeral_char (py (NilEmpty.string_of_uint d)) = true.
Proof. induction d; simpl; try done. Qed.

Lemma str_of_Z_numeral (n : Z) : forallb numeral_char (str_of_Z n) = true.
Proof.
  unfold str_of_Z. destruct (Z.to_int n) as [d|d]; simpl.
  - destruct d; try done; apply (string_of_uint_numeral (_ d)).
  - destruct d; try done; apply (string_of_uint_numeral (_ d)).
Qed.

Lemma str_of_Z_nonempty (n : Z) : str_of_Z n <> [].
Proof.
  unfold str_of_Z. destruct (Z.to_int n) as [d|d]; simpl; [|done].
  by destruct d.
Qed.

Lemma numeral_char_plain (c : N) :
  numeral_char c = true ->
  is_space c = false /\ (c =? LF)%N = false /\ (c =? CR)%N = false.
Proof.
  unfold numeral_char, is_space, LF, CR. intros Hc.
  apply orb_true_iff in Hc as [Hc|Hc].
  - apply andb_true_iff in Hc as [H1%N.leb_le H2%N.leb_le].
    split_and!; repeat (apply orb_false_iff; split); try apply andb_false_iff;
      rewrite ?N.eqb_neq, ?N.leb_gt; lia.
  - apply N.eqb_eq in Hc as ->. done.
Qed.

(** A line of plain characters, read up to its end. *)
Lemma readlines_from_plain (s cur rest : pystr) :
  forallb numeral_char s = true ->
  readlines_from cur (s ++ LF :: rest)
  = (reverse cur ++ s ++ [LF]) :: readlines_from [] rest.
Proof.
  revert cur. induction s as [|c s IH]; intros cur Hs; simpl.
  - by rewrite reverse_cons.
  - simpl in Hs. apply andb_true_iff in Hs as [Hc Hs].
    destruct (numeral_char_plain c Hc) as (_ & -> & ->).
    rewrite IH by done. rewrite reverse_cons, <- app_assoc. done.
Qed.

Lemma readlines_from_cons (cur : pystr) (c : N) (s : pystr) :
  readlines_from cur (c :: s) =
  if (c =? LF)%N then reverse (LF :: cur) :: readlines_from [] s
  else if (c =? CR)%N then
    match s with
    | c' :: s'' =>
        if (c' =? LF)%N then reverse (LF :: cur) :: readlines_from [] s''
        else reverse (LF :: cur) :: readlines_from [] s
    | [] => [reverse (LF :: cur)]
    end
  else readlines_from (c :: cur) s.
Proof. done. Qed.

(** Reading past the end of a line starts afresh. *)
Lemma readlines_from_app (a cur rest : pystr) :
  readlines_from cur (a ++ LF :: rest)
  = readlines_from cur (a ++ [LF]) ++ readlines_from [] rest.
Proof.
  remember (length a) as n eqn:Hn. revert a cur Hn.
  induction n as [n IH] using lt_wf_ind. intros a cur ->.
  destruct a as [|c a]; [done|].
  rewrite <- !app_comm_cons, !(readlines_from_cons cur c).
  destruct (c =? LF)%N.
  { rewrite <- app_comm_cons. f_equal. apply (IH (length a)); simpl; [lia|done]. }
  destruct (c =? CR)%N.
  - destruct a as [|c' a]; [done|].
    rewrite <- !app_comm_cons.
    destruct (c' =? LF)%N.
    + rewrite <- app_comm_cons. f_equal. apply (IH (length a)); simpl; [lia|done].
    + rewrite <- app_comm_cons. f_equal.
      rewrite !app_comm_cons. apply (IH (length (c' :: a))); simpl; [lia|done].
  - apply (IH (length a)); simpl; [lia|done].
Qed.

Lemma lstrip_plain (c : N) (s : pystr) : is_space c = false -> lstrip (c :: s) = c :: s.
Proof. intros Hc. simpl. by rewrite Hc. Qed.

(** [strip] of a numeral followed by the end of its line. *)
Lemma strip_numeral_line (s : pystr) :
  s <> [] -> forallb numeral_char s = true -> strip (s ++ [LF]) = s.
Proof.
  intros Hne Hs. unfold strip.
  destruct s as [|c s]; [done|]. simpl in Hs. apply andb_true_iff in Hs as [Hc Hs].
  destruct (numeral_char_plain c Hc) as (Hsp & _).
  change ((c :: s) ++ [LF]) with (c :: (s ++ [LF])). rewrite lstrip_plain by done.
  change (c :: (s ++ [LF])) with ((c :: s) ++ [LF]).
  rewrite reverse_app. simpl. change (is_space LF) with true. simpl.
  assert (Hlast : exists c' s', reverse (c :: s) = c' :: s' /\ is_space c' = false).
  { destruct (reverse (c :: s)) as [|c' s'] eqn:Hrev.
    - apply (f_equal length) in Hrev. rewrite length_reverse in Hrev. done.
    - exists c', s'. split; [done|].
      assert (Hin : c' ∈ c :: s).
      { apply elem_of_reverse. rewrite Hrev. apply elem_of_cons. by left. }
      assert (Hall : forallb numeral_char (c :: s) = true) by (simpl; by rewrite Hc, Hs).
      rewrite forallb_forall in Hall. apply list_elem_of_In in Hin.
      by destruct (numeral_char_plain c' (Hall c' Hin)). }
  destruct Hlast as (c' & s' & Hrev & Hc').
  rewrite Hrev, lstrip_plain by done. rewrite <- Hrev. apply reverse_involutive.
Qed.

Lemma archive_has_app_line (a : pystr) (n id : Z) :
  archive_has ((a ++ [LF]) ++ str_of_Z n ++ [LF]) id
  = archive_has (a ++ [LF]) id || bool_decide (n = id).
Proof.
  unfold archive_has, readlines. rewrite <- app_assoc. simpl.
  rewrite readlines_from_app, existsb_app. f_equal.
  rewrite (readlines_from_plain (str_of_Z n) [] []) by apply str_of_Z_numeral.
  simpl. rewrite orb_false_r.
  rewrite strip_numeral_line by (apply str_of_Z_nonempty || apply str_of_Z_numeral).
  apply bool_decide_ext. split; [apply str_of_Z_inj|by intros ->].
Qed.

Lemma archive_has_first_line (n id : Z) :
  archive_has (str_of_Z n ++ [LF]) id = bool_decide (n = id).
Proof.
  unfold archive_has, readlines.
  rewrite (readlines_from_plain (str_of_Z n) [] []) by apply str_of_Z_numeral.
  simpl. rewrite orb_false_r.
  rewrite strip_numeral_line by (apply str_of_Z_nonempty || apply str_of_Z_numeral).
  apply bool_decide_ext. split; [apply str_of_Z_inj|by intros ->].
Qed.

(** After a line is appended to a text that ends a line, the archive names
    what it named before and the track of the new line. *)
Lemma archive_has_append (text : pystr) (n id : Z) :
  line_terminated text ->
  archive_has (text ++ str_of_Z n ++ [LF]) id
  = archive_has text id || bool_decide (n = id).
Proof.
  intros [->|(a & ->)].
  - apply archive_has_first_line.
  - apply archive_has_app_line.
Qed.

Lemma line_terminated_append (text line : pystr) :
  line_terminated (text ++ line ++ [LF]).
Proof. right. exists (text ++ line). by rewrite <- app_assoc. Qed.

(** ** Cutting a string at a separator *)

Lemma startswith_app (p r : pystr) : startswith p (p ++ r) = true.
Proof. induction p as [|a p IH]; [done|]. simpl. by rewrite N.eqb_refl, IH. Qed.

Lemma startswith_inv (p s : pystr) :
  startswith p s = true -> s = p ++ drop (length p) s.
Proof.
  revert s. induction p as [|a p IH]; intros [|b s]; simpl; try done.
  intros [->%N.eqb_eq Hp]%andb_true_iff. f_equal. by apply IH.
Qed.

Lemma startswith_shorter (p a b : pystr) :
  startswith p (a ++ b) = true -> (length p <= length a)%nat -> startswith p a = true.
Proof.
  revert a. induction p as [|x p IH]; intros [|y a]; simpl; try done; [lia|].
  intros [-> Hp]%andb_true_iff Hlen. simpl. apply (IH a); [done|lia].
Qed.

Lemma partition_None (sep s : pystr) :
  partition sep s = None <-> contains sep s = false.
Proof.
  induction s as [|c s IH]; simpl.
  - destruct (startswith sep []); simpl; split; done.
  - destruct (startswith sep (c :: s)); simpl; [split; done|].
    rewrite <- IH. destruct (partition sep s) as [[l r]|]; split; done.
Qed.

(** [partition] cuts at the first occurrence: the text before it is the
    shortest that the separator follows. *)
Lemma partition_first (sep l r : pystr) :
  sep <> [] ->
  contains sep (l ++ removelast sep) = false ->
  partition sep (l ++ sep ++ r) = Some (l, r).
Proof.
  intros Hne. induction l as [|c l IH]; intros Hfirst.
  - simpl app. destruct sep as [|x sep]; [done|].
    assert (Hsw : startswith (x :: sep) ((x :: sep) ++ r) = true) by apply startswith_app.
    simpl in *. rewrite Hsw. by rewrite drop_app_length.
  - change ((c :: l) ++ sep ++ r) with (c :: (l ++ sep ++ r)).
    cbn [partition].
    change ((c :: l) ++ removelast sep) with (c :: (l ++ removelast sep)) in Hfirst.
    cbn [contains] in Hfirst. apply orb_false_iff in Hfirst as [Hsw Hrest].
    destruct (startswith sep (c :: l ++ sep ++ r)) eqn:Hsw'.
    + exfalso. rewrite (app_removelast_last 0%N Hne) in Hsw' at 2.
      rewrite <- app_assoc, app_assoc in Hsw'.
      change (c :: (l ++ removelast sep) ++ [List.last sep 0%N] ++ r)
        with ((c :: l ++ removelast sep) ++ [List.last sep 0%N] ++ r) in Hsw'.
      apply startswith_shorter in Hsw'; [congruence|].
      simpl. rewrite length_app.
      assert (length sep = S (length (removelast sep))).
      { rewrite (app_removelast_last 0%N Hne) at 1. rewrite length_app. simpl. lia. }
      lia.
    + by rewrite (IH Hrest).
Qed.

Lemma partition_Some (sep s l r : pystr) :
  partition sep s = Some (l, r) -> s = l ++ sep ++ r.
Proof.
  revert l r. induction s as [|c s IH]; intros l r; simpl.
  - destruct (startswith sep []) eqn:Hsw; [|done].
    intros [= <- <-]. by apply startswith_inv in Hsw.
  - destruct (startswith sep (c :: s)) eqn:Hsw.
    + intros [= <- <-]. by apply startswith_inv in Hsw.
    + destruct (partition sep s) as [[l' r']|]; [|done].
      intros [= <- <-]. simpl. f_equal. by apply IH.
Qed.

(** The first two pieces of [split], when the separator occurs. *)
Lemma split_first_two (sep s l r : pystr) :
  sep <> [] ->
  partition sep s = Some (l, r) ->
  split sep s !! 0%nat = Some l /\
  split sep s !! 1%nat
  = Some (match partition sep r with Some (m, _) => m | None => r end).
Proof.
  intros Hne Hpart. unfold split.
  pose proof (partition_Some sep s l r Hpart) as Hs.
  destruct (length s) as [|n] eqn:Hlen.
  - exfalso. destruct s; [|done]. destruct l, sep; done.
  - simpl. rewrite Hpart. split; [done|]. simpl.
    destruct n as [|n].
    + assert (r = []) as ->.
      { subst s. rewrite !length_app in Hlen. destruct sep; [done|]. simpl in Hlen.
        destruct r; [done|]. simpl in Hlen. lia. }
      assert (Hp : partition sep [] = None) by (by destruct sep).
      by rewrite Hp.
    + simpl. by destruct (partition sep r) as [[m ?]|].
Qed.

(** ** [set_metadata]: artist and title *)

Lemma dashes_nonempty (d : pystr) : d ∈ dashes -> d <> [].
Proof.
  unfold dashes. rewrite !elem_of_cons, elem_of_nil.
  intros [->|[->|[->|[->|[->|[]]]]]]; done.
Qed.

(** The loop over the dash variants: the first variant of the list that
    occurs in the title decides. *)
Lemma extract_artist_spec (ds : list pystr) (artist title : pystr) :
  (forall d, d ∈ ds -> d <> []) ->
  ((forall d, d ∈ ds -> contains d title = false) /\
   extract_artist ds artist title = Ok (artist, title))
  \/ (exists ds1 dash ds2 l r,
        ds = ds1 ++ dash :: ds2 /\
        (forall d, d ∈ ds1 -> contains d title = false) /\
        partition dash title = Some (l, r) /\
        extract_artist ds artist title
        = Ok (strip l,
              strip (match partition dash r with Some (m, _) => m | None => r end))).
Proof.
  induction ds as [|d ds IH]; intros Hne.
  - left. split; [by intros d Hd%elem_of_nil|done].
  - simpl. destruct (contains d title) eqn:Hd.
    + right. destruct (partition d title) as [[l r]|] eqn:Hpart.
      2:{ apply partition_None in Hpart. congruence. }
      exists [], d, ds, l, r. split_and!; [done|by intros ? ?%elem_of_nil|done|].
      destruct (split_first_two d title l r) as [-> ->]; [|done|done].
      apply Hne. by left.
    + destruct IH as [[Hnone Hrun]|(ds1 & dash & ds2 & l & r & -> & Hnone & Hpart & Hrun)].
      { intros d' Hd'. apply Hne. by right. }
      * left. split; [|done]. intros d' [->|Hd']%elem_of_cons; [done|by apply Hnone].
      * right. exists (d :: ds1), dash, ds2, l, r. split_and!; try done.
        intros d' [->|Hd']%elem_of_cons; [done|by apply Hnone].
Qed.

Lemma extract_artist_none (ds : list pystr) (artist title : pystr) :
  (forall d, d ∈ ds -> contains d title = false) ->
  extract_artist ds artist title = Ok (artist, title).
Proof.
  induction ds as [|d ds IH]; intros Hnone; [done|].
  simpl. rewrite Hnone by (by left). apply IH. intros d' Hd'. apply Hnone. by right.
Qed.

Lemma extract_artist_at (ds1 ds2 : list pystr) (dash artist title l r : pystr) :
  (forall d, d ∈ ds1 -> contains d title = false) ->
  dash <> [] ->
  partition dash title = Some (l, r) ->
  extract_artist (ds1 ++ dash :: ds2) artist title
  = Ok (strip l, strip (match partition dash r with Some (m, _) => m | None => r end)).
Proof.
  intros Hnone Hne Hpart. induction ds1 as [|d ds1 IH]; simpl.
  - destruct (contains dash title) eqn:Hd.
    + by destruct (split_first_two dash title l r) as [-> ->].
    + apply partition_None in Hd. congruence.
  - rewrite Hnone by (by left). apply IH. intros d' Hd'. apply Hnone. by right.
Qed.

(** Lines 710-717 always yield an artist and a title. *)
Lemma artist_and_title_returns (t : track) (kw : kwargs) :
  exists a b, artist_and_title t kw = Ok (a, b).
Proof.
  unfold artist_and_title. destruct (kw_extract_artist kw); [|eauto].
  destruct (extract_artist_spec dashes (username (track_user t)) (title t) dashes_nonempty)
    as [[_ ->]|(? & ? & ? & ? & ? & _ & _ & _ & ->)]; eauto.
Qed.

(** ** What a computation adds to the trace *)

Lemma emits_ret {A} (p : event -> bool) (a : A) : emits p (ret a).
Proof. intros w. exists []. by rewrite app_nil_r. Qed.

Lemma emits_bind {A B} (p : event -> bool) (m : M A) (k : A -> M B) :
  emits p m -> (forall a, emits p (k a)) -> emits p (mbind k m).
Proof.
  intros Hm Hk w. destruct (Hm w) as (new1 & Ht1 & Hp1).
  unfold mbind, M_bind. destruct (m w) as [[a|c|e|] w1]; simpl in *;
    try (exists new1; by split).
  destruct (Hk a w1) as (new2 & Ht2 & Hp2).
  exists (new1 ++ new2). rewrite Ht2, Ht1, app_assoc. split; [done|].
  rewrite forallb_app. by rewrite Hp1, Hp2.
Qed.

Lemma emits_emit (p : event -> bool) (e : event) : p e = true -> emits p (emit e).
Proof. intros He w. exists [e]. simpl. by rewrite He. Qed.

Lemma emits_still {A} (p : event -> bool) (m : M A) :
  (forall w, trace (snd (m w)) = trace w) -> emits p m.
Proof. intros Hm w. exists []. by rewrite Hm, app_nil_r. Qed.

Lemma emits_os_remove (p : event -> bool) (f : pystr) :
  p (EvRemove f) = true -> emits p (os_remove f).
Proof. intros He w. exists [EvRemove f]. simpl. by rewrite He. Qed.

Lemma emits_archive_append (p : event -> bool) (line : pystr) :
  p (EvArchiveWrite line) = true -> emits p (archive_append line).
Proof. intros He w. exists [EvArchiveWrite line]. simpl. by rewrite He. Qed.

Lemma emits_try_except {A} (p : event -> bool) (m handler : M A) :
  emits p m -> emits p handler -> emits p (try_except m handler).
Proof.
  intros Hm Hh w. destruct (Hm w) as (new1 & Ht1 & Hp1).
  unfold try_except. destruct (m w) as [[a|c|e|] w1]; simpl in *;
    try (exists new1; by split).
  - destruct (Hh w1) as (new2 & Ht2 & Hp2).
    exists (new1 ++ new2). rewrite Ht2, Ht1, app_assoc. split; [done|].
    rewrite forallb_app. by rewrite Hp1, Hp2.
  - destruct (Hh w1) as (new2 & Ht2 & Hp2).
    exists (new1 ++ new2). rewrite Ht2, Ht1, app_assoc. split; [done|].
    rewrite forallb_app. by rewrite Hp1, Hp2.
Qed.

(** One step through a computation of the pipeline. *)
Ltac emits_step :=
  match goal with
  | |- emits _ (mbind _ _) => apply emits_bind; [|intros]
  | |- emits _ (bind _ _) => unfold bind; apply emits_bind; [|intros]
  | |- emits _ (ret _) => apply emits_ret
  | |- emits _ (log _ _) => apply emits_emit; first [reflexivity|assumption]
  | |- emits _ (emit _) => apply emits_emit; first [reflexivity|assumption]
  | |- emits _ (os_remove _) => apply emits_os_remove; first [reflexivity|assumption]
  | |- emits _ (archive_append _) => apply emits_archive_append; first [reflexivity|assumption]
  | |- emits _ (lift _) => by apply emits_still
  | |- emits _ (isfile _) => by apply emits_still
  | |- emits _ (create_file _) => by apply emits_still
  | |- emits _ (keep_file _) => by apply emits_still
  | |- emits _ (sys_exit _) => by apply emits_still
  | |- emits _ (raise _) => by apply emits_still
  | |- emits _ read_archive => by apply emits_still
  | |- emits _ (try_except _ _) => apply emits_try_except
  | |- emits _ (if ?b then _ else _) => destruct b eqn:?
  | |- emits _ (match ?x with _ => _ end) => destruct x eqn:?
  end.

Ltac emits_run :=
  unfold download_track, download_original_file, download_hls, get_track_m3u8,
    already_downloaded, in_download_archive, record_download_archive,
    tag_and_finish, set_metadata, try_utime;
  repeat emits_step.

(** The trace only grows. *)
Lemma download_track_extends {R : Runtime} (fuel : nat) (E : env) (t : track)
    (pl : option playlist_info) (kw : kwargs) :
  emits (fun _ => true) (download_track fuel E t pl kw).
Proof. emits_run. Qed.

Lemma download_original_file_extends {R : Runtime} (fuel : nat) (E : env) (t : track)
    (title : pystr) (pl : option playlist_info) (kw : kwargs) :
  emits (fun _ => true) (download_original_file fuel E t title pl kw).
Proof. emits_run. Qed.

(** [download_hls] never asks for the original file. *)
Lemma download_hls_no_original {R : Runtime} (fuel : nat) (E : env) (t : track)
    (title : pystr) (pl : option playlist_info) (kw : kwargs) :
  emits (fun e => negb (is_original_attempt e)) (download_hls fuel E t title pl kw).
Proof. emits_run. Qed.

(** Tags are written by [download_track] to files with a tagged extension
    only. *)
Lemma download_track_tags {R : Runtime} (fuel : nat) (E : env) (t : track)
    (pl : option playlist_info) (kw : kwargs) :
  emits tags_only_tagged (download_track fuel E t pl kw).
Proof. emits_run. Qed.

(** ** [download_track]: tagging and the choice of the source *)

Lemma forallb_elem_of (p : event -> bool) (l : list event) (e : event) :
  forallb p l = true -> e ∈ l -> p e = true.
Proof.
  intros Hall Hin. rewrite forallb_forall in Hall. apply Hall.
  by apply list_elem_of_In.
Qed.

(** The run of lines 555-558, case by case. *)
Ltac finish_assoc :=
  unfold ret; simpl;
  match goal with
  | |- context [(if kw_remove ?kw then keep_file ?f else ?r) ?w] =>
      destruct ((if kw_remove kw then keep_file f else r) w) as [[[]|?|?|] ?]; simpl;
      try reflexivity
  end;
  match goal with
  | |- context [record_download_archive ?E ?t ?kw ?w] =>
      destruct (record_download_archive E t kw w) as [[[]|?|?|] ?]; simpl;
      try reflexivity
  end.

(** [download_track] on a track that can be streamed and is not blocked,
    from the name that lines 520-553 end with. *)
Lemma download_track_acquire {R : Runtime} (fuel : nat) (E : env) (t : track)
    (pl : option playlist_info) (kw : kwargs) (w w1 : world) (f : pystr)
    (again : bool) :
  streamable t = true ->
  policy t <> py "BLOCK" ->
  acquire fuel E t pl kw w = (Ok (Some (f, again)), w1) ->
  download_track fuel E t pl kw w
  = (keep_and_record E t f kw;;
     if again && negb (kw_force_metadata kw) then
       log Info (MsgAlreadyDownloaded (List.filter encodable (title t)))
     else tag_and_finish E t f pl kw) w1.
Proof.
  intros Hs Hp. unfold acquire, download_track, keep_and_record.
  rewrite utf8_ignore_eq, Hs. rewrite bool_decide_eq_false_2 by done.
  unfold bind, mbind, M_bind, lift, log, emit. simpl.
  match goal with |- context [(if wants_original t kw then ?a else ?b) ?w0] =>
    destruct ((if wants_original t kw then a else b) w0) as [[[[g|] b0]|c|x|] w0'] end;
    try discriminate.
  - unfold ret at 1. intros [= <- <- <-]. by finish_assoc.
  - destruct (kw_only_original kw); simpl.
    + unfold ret. discriminate.
    + match goal with |- context [download_hls ?a1 ?a2 ?a3 ?a4 ?a5 ?a6 ?w0] =>
        destruct (download_hls a1 a2 a3 a4 a5 a6 w0) as [[[g b1]|c|x|] w0''] end;
        try discriminate.
      unfold ret at 1. intros [= <- <- <-]. by finish_assoc.
Qed.

(** C10. [download_track] writes tags only to a file whose name ends in
    [.mp3], [.flac] or [.m4a].  When the run has its file name (lines
    520-553), does not return on the message that the track is already
    downloaded (line 561), and the file is there (line 566): for a name
    with another ending the run of [download_track] logs the error of line
    582, writes no tag, sets the time stamp, logs the final message and
    returns; for a name with one of the three endings [set_metadata] is
    called and the run ends in the same way, whatever [set_metadata]
    raises. *)
Theorem tagging_by_extension {R : Runtime} (fuel : nat) (E : env) (t : track)
    (pl : option playlist_info) (kw : kwargs) (w : world) :
  (exists new,
     trace (snd (download_track fuel E t pl kw w)) = trace w ++ new /\
     forall f tags, EvTags f tags ∈ new -> tagged_extension f = true)
  /\ (forall (f : pystr) (again : bool) (w1 : world),
        streamable t = true ->
        policy t <> py "BLOCK" ->
        acquire fuel E t pl kw w = (Ok (Some (f, again)), w1) ->
        again && negb (kw_force_metadata kw) = false ->
        f ∈ files w1 ->
        let w2 := snd (keep_and_record E t f kw w1) in
        let finish :=
          [if utime_fails E then EvLog Error MsgUtimeError
           else EvUtime f (mktime (created_at t));
           EvLog Info (MsgDownloaded f)] in
        (tagged_extension f = false ->
         download_track fuel E t pl kw w
         = (Ok tt,
            {| files := files w2; archive := archive w2;
               fileToKeep := fileToKeep w2;
               trace := trace w2 ++ EvLog Error MsgNoTagging :: finish |}))
        /\ (tagged_extension f = true ->
            fst (download_track fuel E t pl kw w) = Ok tt /\
            files (snd (download_track fuel E t pl kw w)) = files w2 /\
            exists mid,
              trace (snd (download_track fuel E t pl kw w))
              = trace w2 ++ EvLog Info MsgSettingTags :: mid ++ finish)).
Proof.
  split.
  - destruct (download_track_tags fuel E t pl kw w) as (new & Hnew & Hall).
    exists new. split; [done|]. intros f tags Hin.
    apply (forallb_elem_of _ _ _ Hall Hin).
  - intros f again w1 Hs Hp Hacq Hgo Hf w2 finish.
    assert (Hrec : fst (keep_and_record E t f kw w1) = Ok tt /\ files w2 = files w1).
    { subst w2. unfold keep_and_record, record_download_archive, keep_file, archive_append.
      destruct (kw_remove kw), (archive_enabled kw), (archive_ioerror E); run_M; done. }
    destruct Hrec as [Hok Hfiles].
    assert (Hrun : download_track fuel E t pl kw w = tag_and_finish E t f pl kw w2).
    { rewrite (download_track_acquire fuel E t pl kw w w1 f again) by done.
      rewrite Hgo. unfold bind, mbind, M_bind. subst w2.
      destruct (keep_and_record E t f kw w1) as [[[]|c|x|] w']; simpl in *; done. }
    rewrite Hrun. rewrite <- Hfiles in Hf. clearbody w2. clear Hrun Hacq Hok Hfiles.
    subst finish. split; intros Hext.
    + unfold tag_and_finish. run_M.
      rewrite bool_decide_eq_true_2 by done. simpl. rewrite Hext.
      unfold try_utime. destruct (utime_fails E); run_M; by rewrite <- !app_assoc.
    + unfold tag_and_finish, set_metadata, try_except, try_utime. run_M.
      rewrite bool_decide_eq_true_2 by done. simpl. rewrite Hext.
      destruct (artist_and_title_returns t kw) as (a & b & ->).
      destruct (cover_art_found E), (mutagen_raises E), (utime_fails E); simpl;
        (split; [done|]); (split; [done|]); rewrite <- ?app_assoc; simpl.
      all: first [ by exists []
                 | by eexists [_]
                 | by eexists [_; _]
                 | by eexists [_; _; _] ].
Qed.

Lemma download_track_unblocked {R : Runtime} (fuel : nat) (E : env) (t : track)
    (pl : option playlist_info) (kw : kwargs) (w : world) :
  streamable t = true ->
  policy t <> py "BLOCK" ->
  download_track fuel E t pl kw w =
  (let title := List.filter encodable (title t) in
   log Info (MsgDownloading title);;
   '(filename, is_already_downloaded) <-
      (if wants_original t kw
       then download_original_file fuel E t title pl kw
       else ret (None, false));
   acquired <-
     (match filename with
      | None =>
          if kw_only_original kw then
            log Info (MsgNoOriginalSkipping title);; ret None
          else
            r <- download_hls fuel E t title pl kw; ret (Some r)
      | Some f => ret (Some (f, is_already_downloaded))
      end);
   match acquired with
   | None => ret tt
   | Some (filename, is_already_downloaded) =>
       (if kw_remove kw then keep_file filename else ret tt);;
       record_download_archive E t kw;;
       if is_already_downloaded && negb (kw_force_metadata kw) then
         log Info (MsgAlreadyDownloaded title)
       else tag_and_finish E t filename pl kw
   end) w.
Proof.
  intros Hs Hp. unfold download_track. rewrite utf8_ignore_eq, Hs.
  rewrite bool_decide_eq_false_2 by done. done.
Qed.

(** C4, as amended.  For a track that can be streamed and is not blocked,
    the original file is asked for exactly when the track is downloadable,
    has downloads left, and neither [onlymp3] nor [no_original] is set; the
    request for it is then the first thing done after the opening messages,
    before anything of the stream.  So a track without downloads left never
    has its original asked for, and one with them, downloadable, with
    [onlymp3] and [no_original] unset, always has, ahead of the stream. *)
Theorem original_attempt_iff {R : Runtime} (fuel : nat) (E : env) (t : track)
    (pl : option playlist_info) (kw : kwargs) (w : world) :
  streamable t = true ->
  policy t <> py "BLOCK" ->
  exists new,
    trace (snd (download_track fuel E t pl kw w)) = trace w ++ new /\
    ((exists id, EvOriginalLink id ∈ new) <-> wants_original t kw = true) /\
    (wants_original t kw
     = downloadable t && has_downloads_left t && negb (kw_onlymp3 kw)
       && negb (kw_no_original kw)) /\
    (has_downloads_left t = false -> forall id, EvOriginalLink id ∉ new) /\
    (downloadable t = true -> has_downloads_left t = true ->
     kw_onlymp3 kw = false -> kw_no_original kw = false ->
     exists title rest,
       new = EvLog Info (MsgDownloading title) :: EvLog Info MsgDownloadingOriginal
             :: EvOriginalLink (track_id t) :: rest).
Proof.
  intros Hs Hp.
  destruct (download_track_extends fuel E t pl kw w) as (new & Hnew & _).
  exists new. split; [done|].
  assert (Hno : wants_original t kw = false -> forall id, EvOriginalLink id ∉ new).
  { intros Hw id Hin.
    assert (Hem : emits (fun e => negb (is_original_attempt e)) (download_track fuel E t pl kw)).
    { unfold download_track. rewrite Hw.
      pose proof (download_hls_no_original fuel E t) as Hhls.
      unfold already_downloaded, in_download_archive, record_download_archive,
        tag_and_finish, set_metadata, try_utime.
      repeat first [apply Hhls | emits_step]. }
    destruct (Hem w) as (new' & Hnew' & Hall).
    rewrite Hnew in Hnew'. apply app_inv_head in Hnew' as <-.
    by apply (forallb_elem_of _ _ _ Hall) in Hin. }
  assert (Hyes : wants_original t kw = true ->
    exists title rest,
      new = EvLog Info (MsgDownloading title) :: EvLog Info MsgDownloadingOriginal
            :: EvOriginalLink (track_id t) :: rest).
  { intros Hw. rewrite download_track_unblocked in Hnew by done.
    rewrite Hw in Hnew. cbv zeta in Hnew.
    remember (List.filter encodable (title t)) as title' eqn:Htitle.
    unfold download_original_file in Hnew at 1.
    set (rest := match original_download E with
                 | Some r => _ | None => _ end) in Hnew.
    assert (Hrest : emits (fun _ => true) rest).
    { subst rest. unfold already_downloaded, in_download_archive. repeat emits_step. }
    set (k1 := fun x : option pystr * bool => _) in Hnew.
    assert (Hk1 : forall x, emits (fun _ => true) (k1 x)).
    { intros x. subst k1. simpl. destruct x as [filename already].
      unfold download_hls, get_track_m3u8, already_downloaded, in_download_archive,
        record_download_archive, tag_and_finish, set_metadata, try_utime.
      repeat emits_step. }
    assert (Htail : emits (fun _ => true) (bind rest k1)).
    { unfold bind. by apply emits_bind. }
    set (w3 := {| files := files w; archive := archive w; fileToKeep := fileToKeep w;
                  trace := trace w ++ [EvLog Info (MsgDownloading title');
                                       EvLog Info MsgDownloadingOriginal;
                                       EvOriginalLink (track_id t)] |}).
    destruct (Htail w3) as (rest' & Hrest' & _).
    exists title', rest'. apply (app_inv_head (trace w)).
    rewrite <- Hnew. clear Hnew.
    transitivity (trace (snd (bind rest k1 w3))).
    - subst w3. unfold bind, mbind, M_bind, log, emit. simpl.
      rewrite <- !app_assoc. simpl. done.
    - rewrite Hrest'. subst w3. simpl. by rewrite <- app_assoc. }
  split_and!.
  - split.
    + intros (id & Hin). destruct (wants_original t kw) eqn:Hw; [done|].
      by apply Hno in Hin.
    + intros Hw. destruct (Hyes Hw) as (title' & rest & ->).
      exists (track_id t). do 2 right. by left.
  - done.
  - intros Hleft. apply Hno. unfold wants_original. rewrite Hleft.
    by rewrite andb_false_r.
  - intros Hd Hl Ho Hn. apply Hyes. unfold wants_original. by rewrite Hd, Hl, Ho, Hn.
Qed.

(** ** A run on a track that the archive names *)

Lemma calm_refl (w : world) : calm w w.
Proof. split; [done|]. exists []. by rewrite app_nil_r. Qed.

Lemma calm_trans (w w1 w2 : world) : calm w w1 -> calm w1 w2 -> calm w w2.
Proof.
  intros [Ha1 (n1 & Ht1 & Hq1)] [Ha2 (n2 & Ht2 & Hq2)]. split; [congruence|].
  exists (n1 ++ n2). rewrite Ht2, Ht1, app_assoc. split; [done|].
  rewrite forallb_app. by rewrite Hq1, Hq2.
Qed.

Lemma calm_emits {A} (m : M A) (w : world) :
  emits (fun e => negb (is_download e)) m ->
  archive (snd (m w)) = archive w ->
  calm w (snd (m w)).
Proof. intros Hm Ha. split; [done|]. destruct (Hm w) as (new & ? & ?). eauto. Qed.

Lemma already_downloaded_quiet (E : env) (t : track) (title f : pystr) (kw : kwargs) :
  emits (fun e => negb (is_download e)) (already_downloaded E t title f kw).
Proof. emits_run. Qed.

(** A track that the archive names is found, whatever the files. *)
Lemma already_downloaded_listed (E : env) (t : track) (title f : pystr)
    (kw : kwargs) (w : world) :
  is_listed E t kw w = true ->
  kw_flac kw = false ->
  calm w (snd (already_downloaded E t title f kw w)) /\
  fst (already_downloaded E t title f kw w)
  = if kw_c kw || kw_remove kw || kw_force_metadata kw then Ok true else Exit (-1).
Proof.
  intros Hl Hf.
  destruct (already_downloaded_run E t title f kw w) as (Hres & _ & Harch & _).
  split.
  - apply calm_emits; [apply already_downloaded_quiet|done].
  - rewrite Hres. unfold verdict. rewrite Hl, Hf. done.
Qed.

Lemma tag_and_finish_calm (E : env) (t : track) (f : pystr)
    (pl : option playlist_info) (kw : kwargs) (w : world) :
  calm w (snd (tag_and_finish E t f pl kw w)).
Proof.
  apply calm_emits.
  - unfold tag_and_finish, set_metadata, try_utime. repeat emits_step.
  - unfold tag_and_finish, set_metadata, try_except, try_utime. run_M.
    destruct (bool_decide (f ∈ files w)); simpl; [|done].
    destruct (artist_and_title_returns t kw) as (a & b & ->).
    by destruct (tagged_extension f), (cover_art_found E), (mutagen_raises E),
      (utime_fails E).
Qed.

Ltac calm_now :=
  first [ apply calm_refl
        | split; [done|]; simpl; eexists [_]; by split
        | split; [done|]; simpl; rewrite <- ?app_assoc; simpl;
          first [by eexists [_] | by eexists [_; _] | by eexists [_; _; _]
                | by eexists [_; _; _; _] | by eexists [_; _; _; _; _]] ].

(** [download_hls] on a listed track: nothing is fetched, and what it
    returns says the track was there. *)
Lemma download_hls_listed {R : Runtime} (fuel : nat) (E : env) (t : track)
    (title : pystr) (pl : option playlist_info) (kw : kwargs) (w : world) :
  is_listed E t kw w = true ->
  kw_flac kw = false ->
  let r := download_hls fuel E t title pl kw w in
  calm w (snd r) /\
  (forall x, fst r = Ok x -> snd x = true) /\
  (kw_c kw || kw_remove kw || kw_force_metadata kw = true ->
   forall f, get_filename fuel t None (prefers_aac t kw) pl kw = Ok f ->
             fst r = Ok (f, true)).
Proof.
  intros Hl Hf. unfold download_hls. cbv zeta.
  unfold bind, mbind, M_bind, lift, log, emit.
  destruct (get_filename fuel t None (prefers_aac t kw) pl kw) as [f| | |]; simpl;
    try (split_and!; [apply calm_refl|done|done]).
  set (w1 := {| files := files w; archive := archive w;
                fileToKeep := fileToKeep w;
                trace := trace w ++ [EvLog Debug (MsgFilename f)] |}).
  assert (Hw1 : calm w w1) by (subst w1; calm_now).
  destruct (already_downloaded_listed E t title f kw w1 Hl Hf) as [Hcalm Hres].
  destruct (already_downloaded E t title f kw w1) as [o w2]. simpl in *. subst o.
  destruct (kw_c kw || kw_remove kw || kw_force_metadata kw); simpl.
  - split_and!; [by apply (calm_trans w w1)| |].
    + by intros x [= <-].
    + by intros _ f' [= <-].
  - split_and!; [by apply (calm_trans w w1)|done|done].
Qed.

(** [download_original_file] on a listed track: the link and the response
    are asked for, but the body is not read. *)
Lemma download_original_file_listed {R : Runtime} (fuel : nat) (E : env) (t : track)
    (title : pystr) (pl : option playlist_info) (kw : kwargs) (w : world) :
  is_listed E t kw w = true ->
  kw_flac kw = false ->
  let r := download_original_file fuel E t title pl kw w in
  calm w (snd r) /\
  (forall f b, fst r = Ok (Some f, b) -> b = true).
Proof.
  intros Hl Hf. unfold download_original_file.
  unfold bind, mbind, M_bind, lift, log, emit, ret.
  destruct (original_download E) as [resp|]; simpl; [|split; [calm_now|done]].
  destruct (status_code resp =? 401); simpl; [split; [calm_now|done]|].
  destruct (status_code resp =? 404); simpl; [split; [calm_now|done]|].
  destruct (disposition_filename resp) as [d|]; simpl; [|split; [calm_now|done]].
  destruct (splitext d) as [base ext].
  set (o := Some _).
  destruct (get_filename fuel t o false pl kw) as [f| | |]; simpl;
    try (split; [calm_now|done]).
  set (w1 := {| files := files w; archive := archive w; fileToKeep := fileToKeep w;
                trace := _ |}).
  assert (Hw1 : calm w w1) by (subst w1; calm_now).
  destruct (already_downloaded_listed E t title f kw w1 Hl Hf) as [Hcalm Hres].
  destruct (already_downloaded E t title f kw w1) as [r w2]. simpl in *. subst r.
  destruct (kw_c kw || kw_remove kw || kw_force_metadata kw); simpl.
  - split; [by apply (calm_trans w w1)|]. by intros f' b [= _ <-].
  - split; [by apply (calm_trans w w1)|done].
Qed.

Lemma archive_entries_append (text : pystr) (n id : Z) :
  line_terminated text ->
  archive_entries (text ++ str_of_Z n ++ [LF]) id
  = (archive_entries text id + if bool_decide (n = id) then 1 else 0)%nat.
Proof.
  intros Hterm. unfold archive_entries, readlines.
  assert (Hline : readlines_from [] (str_of_Z n ++ [LF]) = [str_of_Z n ++ [LF]]).
  { by rewrite (readlines_from_plain (str_of_Z n) [] []) by apply str_of_Z_numeral. }
  assert (Hcount : length (filter (fun line => strip line = str_of_Z id)
                             [str_of_Z n ++ [LF]])
                   = if bool_decide (n = id) then 1%nat else 0%nat).
  { rewrite filter_cons, filter_nil.
    rewrite strip_numeral_line by (apply str_of_Z_nonempty || apply str_of_Z_numeral).
    case_decide as Heq; case_bool_decide as Hn; try done.
    - by apply str_of_Z_inj in Heq.
    - by subst. }
  destruct Hterm as [->|(a & ->)].
  - simpl app at 1. by rewrite Hline, Hcount.
  - rewrite <- app_assoc. simpl app at 2.
    rewrite readlines_from_app, filter_app, length_app, Hline, Hcount. done.
Qed.

(** Lines 555-563 and what follows them, for a track that was found: the
    archive gets one more line, and nothing is fetched. *)
Lemma record_and_finish (E : env) (t : track) (title f : pystr)
    (pl : option playlist_info) (kw : kwargs) (w : world) :
  archive_enabled kw = true ->
  archive_ioerror E = false ->
  let r := ((if kw_remove kw then keep_file f else ret tt);;
            record_download_archive E t kw;;
            if true && negb (kw_force_metadata kw) then
              log Info (MsgAlreadyDownloaded title)
            else tag_and_finish E t f pl kw) w in
  archive (snd r) = archive w ++ str_of_Z (track_id t) ++ [LF] /\
  (exists new, trace (snd r) = trace w ++ new /\
               forallb (fun e => negb (is_download e)) new = true) /\
  (kw_force_metadata kw = false -> fst r = Ok tt).
Proof.
  intros Hen Hio. unfold record_download_archive. rewrite Hen, Hio. simpl negb. cbv iota.
  unfold mbind, M_bind, archive_append, keep_file, ret, log, emit.
  destruct (kw_force_metadata kw); simpl.
  - assert (Hgen : forall w1,
      archive w1 = archive w ++ str_of_Z (track_id t) ++ [LF] ->
      trace w1 = trace w ++ [EvArchiveWrite (str_of_Z (track_id t) ++ [LF])] ->
      archive (snd (tag_and_finish E t f pl kw w1))
      = archive w ++ str_of_Z (track_id t) ++ [LF] /\
      (exists new, trace (snd (tag_and_finish E t f pl kw w1)) = trace w ++ new /\
                   forallb (fun e => negb (is_download e)) new = true) /\
      (true = false -> fst (tag_and_finish E t f pl kw w1) = Ok tt)).
    { intros w1 Ha1 Ht1.
      destruct (tag_and_finish_calm E t f pl kw w1) as [Ha (new & Ht & Hq)].
      split_and!; [congruence| |done].
      exists (EvArchiveWrite (str_of_Z (track_id t) ++ [LF]) :: new).
      rewrite Ht, Ht1, <- app_assoc. by split. }
    destruct (kw_remove kw); simpl; by apply Hgen.
  - destruct (kw_remove kw); simpl; (split_and!; [done| |done]);
      rewrite <- app_assoc; simpl; by eexists [_; _].
Qed.

Lemma archive_has_entries (text : pystr) (id : Z) :
  archive_has text id = true -> (1 <= archive_entries text id)%nat.
Proof.
  unfold archive_has, archive_entries. generalize (readlines text).
  induction l as [|line l IH]; simpl; [done|].
  rewrite filter_cons. case_bool_decide; case_decide; simpl; try done; try lia.
Qed.

Lemma calm_quiet (w w1 : world) :
  calm w w1 ->
  exists new, trace w1 = trace w ++ new /\
              forallb (fun e => negb (is_download e)) new = true.
Proof. by intros [_ ?]. Qed.

Lemma bind_run {A B} (m : M A) (k : A -> M B) (w : world) :
  bind m k w =
  match m w with
  | (Ok a, w') => k a w'
  | (Exit c, w') => (Exit c, w')
  | (Raise e, w') => (Raise e, w')
  | (OutOfFuel, w') => (OutOfFuel, w')
  end.
Proof. done. Qed.

Lemma bind_bind_ret {A B C} (m : M A) (g : A -> B) (k : B -> M C) (w : world) :
  bind (bind m (fun r => ret (g r))) k w = bind m (fun r => k (g r)) w.
Proof.
  unfold bind, mbind, M_bind, ret. by destruct (m w) as [[a|c|e|] w'].
Qed.

(** The part of [download_track] behind the two early returns, on a track
    that the archive names. *)
Lemma download_track_listed_core {R : Runtime} (fuel : nat) (E : env) (t : track)
    (title : pystr) (pl : option playlist_info) (kw : kwargs) (w : world) :
  archive_enabled kw = true ->
  archive_ioerror E = false ->
  kw_flac kw = false ->
  archive_has (archive w) (track_id t) = true ->
  let r :=
    ('(filename, is_already_downloaded) <-
        (if wants_original t kw
         then download_original_file fuel E t title pl kw
         else ret (None, false));
     acquired <-
       (match filename with
        | None =>
            if kw_only_original kw then
              log Info (MsgNoOriginalSkipping title);; ret None
            else
              r <- download_hls fuel E t title pl kw; ret (Some r)
        | Some f => ret (Some (f, is_already_downloaded))
        end);
     match acquired with
     | None => ret tt
     | Some (filename, is_already_downloaded) =>
         (if kw_remove kw then keep_file filename else ret tt);;
         record_download_archive E t kw;;
         if is_already_downloaded && negb (kw_force_metadata kw) then
           log Info (MsgAlreadyDownloaded title)
         else tag_and_finish E t filename pl kw
     end) w in
  (exists new, trace (snd r) = trace w ++ new /\
               forallb (fun e => negb (is_download e)) new = true) /\
  (archive (snd r) = archive w \/
   archive (snd r) = archive w ++ str_of_Z (track_id t) ++ [LF]) /\
  (fst r = Ok tt -> kw_only_original kw = false ->
   archive (snd r) = archive w ++ str_of_Z (track_id t) ++ [LF]) /\
  (wants_original t kw = false -> kw_only_original kw = false ->
   kw_c kw || kw_remove kw = true -> kw_force_metadata kw = false ->
   (exists f, get_filename fuel t None (prefers_aac t kw) pl kw = Ok f) ->
   fst r = Ok tt).
Proof.
  intros Hen Hio Hflac Hhas.
  assert (Hl : forall w', archive w' = archive w -> is_listed E t kw w' = true).
  { intros w' Hw'. unfold is_listed. by rewrite Hen, Hio, Hw', Hhas. }
  (* what the rest does once a file name was found *)
  assert (Htail : forall f w1, calm w w1 ->
    let r := ((if kw_remove kw then keep_file f else ret tt);;
              record_download_archive E t kw;;
              if true && negb (kw_force_metadata kw) then
                log Info (MsgAlreadyDownloaded title)
              else tag_and_finish E t f pl kw) w1 in
    (exists new, trace (snd r) = trace w ++ new /\
                 forallb (fun e => negb (is_download e)) new = true) /\
    archive (snd r) = archive w ++ str_of_Z (track_id t) ++ [LF] /\
    (kw_force_metadata kw = false -> fst r = Ok tt)).
  { intros f w1 [Ha1 (n1 & Ht1 & Hq1)].
    destruct (record_and_finish E t title f pl kw w1 Hen Hio) as (Ha & (n2 & Ht2 & Hq2) & Hok).
    cbv zeta. split_and!; [|congruence|done].
    exists (n1 ++ n2). rewrite Ht2, Ht1, app_assoc. split; [done|].
    rewrite forallb_app. by rewrite Hq1, Hq2. }
  (* the stream, when there is no original *)
  assert (Hhls : forall w1, calm w w1 ->
    let r := (acquired <- (r <- download_hls fuel E t title pl kw; ret (Some r));
              match acquired with
              | None => ret tt
              | Some (filename, is_already_downloaded) =>
                  (if kw_remove kw then keep_file filename else ret tt);;
                  record_download_archive E t kw;;
                  if is_already_downloaded && negb (kw_force_metadata kw) then
                    log Info (MsgAlreadyDownloaded title)
                  else tag_and_finish E t filename pl kw
              end) w1 in
    (exists new, trace (snd r) = trace w ++ new /\
                 forallb (fun e => negb (is_download e)) new = true) /\
    (archive (snd r) = archive w \/
     archive (snd r) = archive w ++ str_of_Z (track_id t) ++ [LF]) /\
    (fst r = Ok tt -> archive (snd r) = archive w ++ str_of_Z (track_id t) ++ [LF]) /\
    (kw_c kw || kw_remove kw = true -> kw_force_metadata kw = false ->
     (exists f, get_filename fuel t None (prefers_aac t kw) pl kw = Ok f) ->
     fst r = Ok tt)).
  { intros w1 Hw1.
    destruct (download_hls_listed fuel E t title pl kw w1 (Hl w1 (proj1 Hw1)) Hflac)
      as (Hcalm & Hval & Hflags).
    cbv zeta. rewrite bind_bind_ret, bind_run.
    destruct (download_hls fuel E t title pl kw w1) as [[[f b]| | |] w2]; simpl in *.
    - pose proof (Hval (f, b) eq_refl) as Hb. simpl in Hb. subst b.
      destruct (Htail f w2 (calm_trans _ _ _ Hw1 Hcalm)) as (Hq & Ha & Hok).
      split_and!; [done|by right|done|]. intros _ Hforce _. by apply Hok.
    - pose proof (calm_trans _ _ _ Hw1 Hcalm) as [Ha Hq].
      split_and!; [done|by left|done|].
      intros Hc Hforce (f & Hf). assert (Hcf : kw_c kw || kw_remove kw || kw_force_metadata kw = true)
        by (by rewrite Hc). by specialize (Hflags Hcf f Hf).
    - pose proof (calm_trans _ _ _ Hw1 Hcalm) as [Ha Hq].
      split_and!; [done|by left|done|].
      intros Hc Hforce (f & Hf). assert (Hcf : kw_c kw || kw_remove kw || kw_force_metadata kw = true)
        by (by rewrite Hc). by specialize (Hflags Hcf f Hf).
    - pose proof (calm_trans _ _ _ Hw1 Hcalm) as [Ha Hq].
      split_and!; [done|by left|done|].
      intros Hc Hforce (f & Hf). assert (Hcf : kw_c kw || kw_remove kw || kw_force_metadata kw = true)
        by (by rewrite Hc). by specialize (Hflags Hcf f Hf). }
  cbv zeta. destruct (wants_original t kw) eqn:Hw.
  - destruct (download_original_file_listed fuel E t title pl kw w (Hl w eq_refl) Hflac)
      as (Hcalm & Hval).
    rewrite bind_run.
    destruct (download_original_file fuel E t title pl kw w) as [[[[f|] b]| | |] w1];
      simpl in *.
    + pose proof (Hval f b eq_refl) as Hb. subst b.
      rewrite bind_run. unfold ret at 1.
      destruct (Htail f w1 Hcalm) as (Hq & Ha & Hok).
      split_and!; [done|by right|done|done].
    + destruct (kw_only_original kw) eqn:Hoo.
      * unfold bind, mbind, M_bind, ret, log, emit. simpl.
        split_and!; [|by left; apply Hcalm|done|done].
        destruct Hcalm as [_ (new & Ht & Hq)].
        exists (new ++ [EvLog Info (MsgNoOriginalSkipping title)]).
        rewrite Ht, app_assoc. split; [done|]. rewrite forallb_app. by rewrite Hq.
      * destruct (Hhls w1 Hcalm) as (Hq & Ha & Hok & _).
        split_and!; [done|done|by intros ? _; apply Hok|done].
    + split_and!; [by apply calm_quiet|by left; apply Hcalm|done|done].
    + split_and!; [by apply calm_quiet|by left; apply Hcalm|done|done].
    + split_and!; [by apply calm_quiet|by left; apply Hcalm|done|done].
  - rewrite bind_run. unfold ret at 1.
    destruct (kw_only_original kw) eqn:Hoo.
    + unfold bind, mbind, M_bind, ret, log, emit. simpl.
      split_and!; [by eexists [_]|by left|done|done].
    + destruct (Hhls w (calm_refl w)) as (Hq & Ha & Hok & Hflags).
      split_and!; [done|done|by intros ? _; apply Hok|]. intros _ _. apply Hflags.
Qed.

(** C1, as amended.  With the archive kept and readable and without [flac],
    a run of [download_track] on a track that the archive already names (as
    it does after a first run) fetches no audio: no body of an original file
    is read and no stream is copied.  The archive is left as it was or gets
    the track id appended once more; a run that returns normally past the
    early returns has appended it, so the track then has one entry more than
    before, two at least.  On the stream path with [-c] or [remove] and
    without [force_metadata] the run does return normally. *)
Theorem listed_track_not_fetched {R : Runtime} (fuel : nat) (E : env) (t : track)
    (pl : option playlist_info) (kw : kwargs) (w : world) :
  archive_enabled kw = true ->
  archive_ioerror E = false ->
  kw_flac kw = false ->
  archive_has (archive w) (track_id t) = true ->
  let r := download_track fuel E t pl kw w in
  let line := str_of_Z (track_id t) ++ [LF] in
  (exists new, trace (snd r) = trace w ++ new /\
               forallb (fun e => negb (is_download e)) new = true) /\
  (archive (snd r) = archive w \/ archive (snd r) = archive w ++ line) /\
  (fst r = Ok tt -> streamable t = true -> policy t <> py "BLOCK" ->
   kw_only_original kw = false ->
   archive (snd r) = archive w ++ line /\
   (line_terminated (archive w) ->
    archive_entries (archive (snd r)) (track_id t)
    = S (archive_entries (archive w) (track_id t)) /\
    (2 <= archive_entries (archive (snd r)) (track_id t))%nat)) /\
  (streamable t = true -> policy t <> py "BLOCK" ->
   wants_original t kw = false -> kw_only_original kw = false ->
   kw_c kw || kw_remove kw = true -> kw_force_metadata kw = false ->
   (exists f, get_filename fuel t None (prefers_aac t kw) pl kw = Ok f) ->
   fst r = Ok tt).
Proof.
  intros Hen Hio Hflac Hhas. cbv zeta.
  destruct (streamable t) eqn:Hs.
  2:{ unfold download_track. rewrite utf8_ignore_eq, Hs.
      unfold bind, mbind, M_bind, lift, log, emit. simpl.
      split_and!; [|by left|done|done].
      rewrite <- app_assoc. by eexists [_; _]. }
  destruct (decide (policy t = py "BLOCK")) as [Hp|Hp].
  { unfold download_track. rewrite utf8_ignore_eq, Hs, Hp.
    unfold bind, mbind, M_bind, lift, log, emit. simpl.
    split_and!; [|by left|done|done].
    rewrite <- app_assoc. by eexists [_; _]. }
  rewrite download_track_unblocked by done. cbv zeta.
  set (ttl := List.filter encodable (title t)).
  set (w1 := {| files := files w; archive := archive w; fileToKeep := fileToKeep w;
                trace := trace w ++ [EvLog Info (MsgDownloading ttl)] |}).
  pose proof (download_track_listed_core fuel E t ttl pl kw w1 Hen Hio Hflac Hhas)
    as Hcore. cbv zeta in Hcore.
  match type of Hcore with
  | context [trace (snd (?prog w1))] => set (core := prog) in *
  end.
  change ((log Info (MsgDownloading ttl);; core) w) with (core w1).
  destruct Hcore as ((new & Ht & Hq) & Ha & Hok & Hflags).
  split_and!.
  - exists (EvLog Info (MsgDownloading ttl) :: new). rewrite Ht. subst w1. simpl.
    rewrite <- app_assoc. by split.
  - done.
  - intros Hr _ _ Hoo. specialize (Hok Hr Hoo). split; [done|].
    intros Hterm. rewrite Hok. change (archive w1) with (archive w).
    rewrite archive_entries_append by done.
    rewrite bool_decide_eq_true_2 by done.
    pose proof (archive_has_entries _ _ Hhas). lia.
  - intros _ _. apply Hflags.
Qed.

(** ** The claims about [get_filename] *)

(** The removal of characters adds no octet. *)
Lemma encode_utf8_filter_le (P : N -> Prop) `{!forall c, Decision (P c)}
    (s : pystr) (b : pybytes) :
  encode_utf8 s = Some b ->
  exists b', encode_utf8 (filter P s) = Some b' /\ (length b' <= length b)%nat.
Proof.
  revert b. induction s as [|c s IH]; intros b Hb.
  - exists []. split; [done|]. simpl. lia.
  - simpl in Hb. destruct (encode_char c) as [cb|] eqn:Hc; [|done].
    destruct (encode_utf8 s) as [sb|] eqn:Hs; [|done]. injection Hb as <-.
    destruct (IH sb eq_refl) as (b' & Hb' & Hle).
    rewrite filter_cons. destruct (decide (P c)).
    + exists (cb ++ b'). simpl. rewrite Hc, Hb'. split; [done|].
      rewrite !length_app. lia.
    + exists b'. split; [done|]. rewrite length_app. lia.
Qed.

(** The sample [sanitize_filename] keeps a name within its octets and with
    the extension [.mp3]. *)
Lemma sample_sanitize_keeps_mp3 :
  sanitize_keeps (R := Sample.runtime) (str_lower (Runtime := Sample.runtime) (py ".mp3")).
Proof.
  intros s ls Hlen Hls. change (str_lower (py ".mp3")) with (py ".mp3") in *.
  apply utf8_len_Ok in Hlen as (b & Hb & ->).
  rewrite encode_utf8_app in Hb.
  destruct (encode_utf8 s) as [sb|] eqn:Hs; [|done].
  destruct (encode_utf8 (py ".mp3")) as [eb|] eqn:He; [|done].
  injection Hb as <-.
  destruct (encode_utf8_filter_le (fun c => Sample.illegal c = false) s sb Hs)
    as (fb & Hfb & Hle).
  exists (Sample.sanitize s), (Z.of_nat (length (fb ++ eb))).
  split_and!.
  - change (sanitize_filename (s ++ py ".mp3")) with (Sample.sanitize (s ++ py ".mp3")).
    unfold Sample.sanitize. by rewrite filter_app.
  - apply utf8_len_Ok. exists (fb ++ eb). split; [|done].
    unfold Sample.sanitize. by rewrite encode_utf8_app, Hfb, He.
  - rewrite length_app in *. lia.
Qed.

Lemma get_filename_fits_witness :
  get_filename (R := Sample.runtime) 301 (Sample.track_titled (replicate 300 65%N)) None false None Sample.plain
  = Ok (replicate 251 65%N ++ py ".mp3")
  /\ utf8_len (replicate 251 65%N ++ py ".mp3") = Ok 255.
Proof.
  destruct (get_filename_fits (R := Sample.runtime) 301 (Sample.track_titled (replicate 300 65%N)) None false
              None Sample.plain (replicate 300 65%N) (py ".mp3") 300 4 4) as [_ Hscene].
  - reflexivity.
  - vm_compute. reflexivity.
  - reflexivity.
  - vm_compute. reflexivity.
  - reflexivity.
  - lia.
  - reflexivity.
  - lia.
  - exact sample_sanitize_keeps_mp3.
  - vm_compute. lia.
  - apply Hscene; vm_compute; reflexivity.
Defined.

(** With [--original-name] an original name of 304 octets is returned as it
    is: the ceiling of 255 octets does not bind it. *)
Lemma get_filename_original_name_exceeds :
  get_filename (R := Sample.runtime) 301 Sample.song (Some (replicate 300 65%N ++ py ".mp3")) false None
    Sample.original_name_only
  = Ok (replicate 300 65%N ++ py ".mp3")
  /\ utf8_len (replicate 300 65%N ++ py ".mp3") = Ok 304.
Proof. split; vm_compute; reflexivity. Qed.

(** The loop of line 395 measures the extension, line 397 appends it in
    lower case: with an original name whose extension is a dot and U+0130,
    three octets and four in lower case, a title of 300 letters A is cut to 252
    letters and the name takes 256 octets. *)
Lemma get_filename_lower_exceeds :
  get_filename (R := Sample.runtime_dotted) 301 (Sample.track_titled (replicate 300 65%N))
    (Some [120; 46; 0x130]%N) false None Sample.plain
  = Ok (replicate 252 65%N ++ [46; 0x69; 0x307]%N)
  /\ utf8_len [46; 0x130]%N = Ok 3
  /\ utf8_len (replicate 252 65%N ++ [46; 0x69; 0x307]%N) = Ok 256.
Proof. split_and!; vm_compute; reflexivity. Qed.

(** C5, as amended.  When [original_name] is set and an original file name
    is known (and not empty), [get_filename] returns that name exactly as it
    was given: it is not sanitized, cut or lowered. *)
Theorem get_filename_original_name {R : Runtime} (fuel : nat) (t : track)
    (original_filename : pystr) (aac : bool) (pl : option playlist_info)
    (kw : kwargs) :
  kw_original_name kw = true ->
  original_filename <> [] ->
  get_filename fuel t (Some original_filename) aac pl kw = Ok original_filename.
Proof.
  intros Hflag Hne. unfold get_filename. rewrite Hflag.
  by destruct original_filename.
Qed.

Lemma get_filename_original_name_witness :
  get_filename (R := Sample.runtime) 0 Sample.song (Some (py "Master Final.WAV")) false None
    Sample.original_name_only
  = Ok (py "Master Final.WAV").
Proof.
  apply (get_filename_original_name (R := Sample.runtime) 0 Sample.song (py "Master Final.WAV") false None
           Sample.original_name_only).
  - reflexivity.
  - discriminate.
Defined.

(** With [--original-name] a name with path separators comes back with them:
    sanitizing it would have given another name. *)
Lemma get_filename_original_name_unsanitized :
  get_filename (R := Sample.runtime) 301 Sample.song (Some (py "../../etc/song.wav")) false None
    Sample.original_name_only
  = Ok (py "../../etc/song.wav")
  /\ sanitize_filename (Runtime := Sample.runtime) (py "../../etc/song.wav") = py "....etcsong.wav".
Proof. split; vm_compute; reflexivity. Qed.

(** ** The claims about [already_downloaded] *)

(** C3, as amended.  With [overwrite] set, [already_downloaded] deletes the
    target file and, with [flac] and a convertible name, the [.flac] file
    next to it, and it reports absent when the archive does not name the
    track.  Without [overwrite]: when the target file, the [.flac] sibling
    or the archive says present, the source of a pending conversion is not
    on disk, and none of [-c], [remove], [force_metadata] is set, the run
    ends with [sys.exit(-1)]. *)
Theorem already_downloaded_resolution (E : env) (t : track) (title filename : pystr)
    (kw : kwargs) (w : world) :
  let r := already_downloaded E t title filename kw w in
  let here := bool_decide (filename ∈ files w) in
  let sibling := kw_flac kw && can_convert filename
                 && bool_decide (flac_name filename ∈ files w) in
  let listed := is_listed E t kw w in
  (kw_overwrite kw = true ->
   (filename ∉ files (snd r)) /\
   (kw_flac kw && can_convert filename = true -> flac_name filename ∉ files (snd r)) /\
   (forall f, f <> filename -> f <> flac_name filename ->
              (f ∈ files (snd r) <-> f ∈ files w)) /\
   (listed = false -> fst r = Ok false))
  /\ (kw_overwrite kw = false ->
      kw_c kw || kw_remove kw || kw_force_metadata kw = false ->
      here || sibling || listed = true ->
      kw_flac kw && can_convert filename && here = false ->
      fst r = Exit (-1) /\ files (snd r) = files w).
Proof.
  cbv zeta.
  destruct (already_downloaded_run E t title filename kw w) as (Hres & Hfiles & _).
  split.
  - intros Hov. rewrite Hov in Hfiles. split_and!.
    + rewrite Hfiles. destruct (kw_flac kw && can_convert filename);
        rewrite ?elem_of_difference, !elem_of_singleton; tauto.
    + intros Hfc. rewrite Hfiles, Hfc.
      rewrite !elem_of_difference, !elem_of_singleton. tauto.
    + intros f Hf1 Hf2. rewrite Hfiles.
      destruct (kw_flac kw && can_convert filename);
        rewrite ?elem_of_difference, !elem_of_singleton; tauto.
    + intros Hl. rewrite Hres. unfold verdict. rewrite Hov, Hl. simpl.
      rewrite !andb_false_r.
      by destruct ((kw_flac kw && can_convert filename)
                   && bool_decide (flac_name filename ∈ files w)).
  - intros Hov Hflags Hpresent Hsource. rewrite Hov in Hfiles. split; [|done].
    rewrite Hres, Hflags. unfold verdict. rewrite Hov. simpl. rewrite !andb_true_r.
    rewrite Hsource.
    destruct (bool_decide (filename ∈ files w)),
      (kw_flac kw && can_convert filename),
      (bool_decide (flac_name filename ∈ files w)),
      (is_listed E t kw w); simpl in *; done.
Qed.

Lemma already_downloaded_resolution_witness :
  fst (already_downloaded (Sample.outside None) Sample.song (py "Artist - Title")
         (py "Artist - Title.mp3") Sample.plain
         (Sample.world_with [py "Artist - Title.mp3"] []))
  = Exit (-1).
Proof.
  apply (proj2 (already_downloaded_resolution (Sample.outside None) Sample.song
                  (py "Artist - Title") (py "Artist - Title.mp3") Sample.plain
                  (Sample.world_with [py "Artist - Title.mp3"] [])));
    vm_compute; reflexivity.
Defined.

(** With [--overwrite] and [-c], a track that the archive names and whose
    file is there: the file is deleted, yet the check says present; and with
    [--flac] a [.wav] file that is there is overlooked: the check says
    absent and nothing exits. *)
Lemma already_downloaded_overwrite_listed :
  fst (already_downloaded (Sample.outside None) Sample.song (py "Artist - Title")
         (py "Artist - Title.mp3") Sample.archive_c_overwrite Sample.after_first_run)
  = Ok true
  /\ bool_decide (py "Artist - Title.mp3" ∈ files Sample.after_first_run) = true
  /\ bool_decide (py "Artist - Title.mp3" ∈
       files (snd (already_downloaded (Sample.outside None) Sample.song
                     (py "Artist - Title") (py "Artist - Title.mp3")
                     Sample.archive_c_overwrite Sample.after_first_run))) = false
  /\ fst (already_downloaded (Sample.outside None) Sample.song (py "Artist - Title")
            (py "song.wav") Sample.flac_only (Sample.world_with [py "song.wav"] []))
     = Ok false.
Proof. split_and!; vm_compute; reflexivity. Qed.

(** C7, as amended.  With [flac] set and a convertible name,
    [already_downloaded] reports absent exactly when the source file is on
    disk and [overwrite] is unset (whether or not the [.flac] sibling is
    there or the archive names the track), or when the archive does not name
    the track and no [.flac] sibling is kept (there is none, or [overwrite]
    deletes it). *)
Theorem already_downloaded_flac (E : env) (t : track) (title filename : pystr)
    (kw : kwargs) (w : world) :
  kw_flac kw = true ->
  can_convert filename = true ->
  let r := already_downloaded E t title filename kw w in
  let here := bool_decide (filename ∈ files w) in
  let sibling := bool_decide (flac_name filename ∈ files w) in
  let listed := is_listed E t kw w in
  (fst r = Ok false <->
   (here && negb (kw_overwrite kw))
   || (negb listed && negb (sibling && negb (kw_overwrite kw))) = true)
  /\ (here = true -> kw_overwrite kw = false -> fst r = Ok false).
Proof.
  intros Hflac Hconv. cbv zeta.
  destruct (already_downloaded_run E t title filename kw w) as (Hres & _).
  rewrite Hres. unfold verdict. rewrite Hflac, Hconv. simpl.
  destruct (bool_decide (filename ∈ files w)),
    (bool_decide (flac_name filename ∈ files w)), (kw_overwrite kw),
    (is_listed E t kw w), (kw_c kw || kw_remove kw || kw_force_metadata kw);
    simpl; split; try split; try done.
Qed.

Lemma already_downloaded_flac_witness :
  fst (already_downloaded (Sample.outside None) Sample.song (py "Artist - Title")
         (py "song.wav") Sample.flac_only (Sample.world_with [py "song.wav"] []))
  = Ok false.
Proof.
  apply (proj2 (already_downloaded_flac (Sample.outside None) Sample.song
                  (py "Artist - Title") (py "song.wav") Sample.flac_only
                  (Sample.world_with [py "song.wav"] []) eq_refl eq_refl));
    vm_compute; reflexivity.
Defined.

(** With [--flac] and the name [song.wav]: absent is reported in an empty
    directory, where no source file is present, and also when both
    [song.wav] and [song.flac] are there. *)
Lemma already_downloaded_flac_absent_otherwise :
  fst (already_downloaded (Sample.outside None) Sample.song (py "Artist - Title")
         (py "song.wav") Sample.flac_only (Sample.world_with [] []))
  = Ok false
  /\ bool_decide (py "song.wav" ∈ files (Sample.world_with [] [])) = false
  /\ fst (already_downloaded (Sample.outside None) Sample.song (py "Artist - Title")
            (py "song.wav") Sample.flac_only
            (Sample.world_with [py "song.wav"; py "song.flac"] []))
     = Ok false
  /\ bool_decide (flac_name (py "song.wav") ∈
                  files (Sample.world_with [py "song.wav"; py "song.flac"] [])) = true.
Proof. split_and!; vm_compute; reflexivity. Qed.

(** ** The claims about the archive *)

Lemma in_download_archive_run (E : env) (t : track) (kw : kwargs) (w : world) :
  archive_enabled kw = true ->
  archive_ioerror E = false ->
  in_download_archive E t kw w = (Ok (archive_has (archive w) (track_id t)), w).
Proof. intros Hen Hio. unfold in_download_archive. by rewrite Hen, Hio. Qed.

Lemma record_download_archive_run (E : env) (t : track) (kw : kwargs) (w : world) :
  archive_enabled kw = true ->
  archive_ioerror E = false ->
  archive (snd (record_download_archive E t kw w))
  = archive w ++ str_of_Z (track_id t) ++ [LF].
Proof. intros Hen Hio. unfold record_download_archive. by rewrite Hen, Hio. Qed.

Lemma record_all_run (E : env) (kw : kwargs) (ts : list track) (w : world) (id : Z) :
  archive_enabled kw = true ->
  archive_ioerror E = false ->
  line_terminated (archive w) ->
  line_terminated (archive (snd (record_all E kw ts w))) /\
  archive_has (archive (snd (record_all E kw ts w))) id
  = archive_has (archive w) id || bool_decide (id ∈ map track_id ts).
Proof.
  intros Hen Hio. revert w. induction ts as [|t ts IH]; intros w Hterm.
  - cbn [record_all map]. split; [done|].
    rewrite (bool_decide_eq_false_2 (id ∈ [])) by apply not_elem_of_nil.
    by rewrite orb_false_r.
  - cbn [record_all map]. unfold mbind, M_bind.
    pose proof (record_download_archive_run E t kw w Hen Hio) as Ha.
    destruct (record_download_archive E t kw w) as [o w1] eqn:Hrun.
    assert (Ho : o = Ok tt).
    { unfold record_download_archive in Hrun. rewrite Hen, Hio in Hrun.
      by injection Hrun as <- _. }
    subst o. simpl in Ha.
    destruct (IH w1) as [Hterm1 Hhas1].
    { rewrite Ha. apply line_terminated_append. }
    split; [done|]. rewrite Hhas1, Ha, archive_has_append by done.
    rewrite <- orb_assoc. f_equal.
    destruct (decide (track_id t = id)) as [Heq|Hne].
    + rewrite (bool_decide_eq_true_2 _ Heq). simpl. symmetry.
      apply bool_decide_eq_true_2. apply elem_of_cons. by left.
    + rewrite (bool_decide_eq_false_2 _ Hne). simpl.
      apply bool_decide_ext. rewrite elem_of_cons.
      split; [tauto|]. intros [Heq|Hin]; [congruence|done].
Qed.

(** C6, as amended.  With the archive kept and no I/O error: after
    [record_download_archive] has written a track to an archive whose text
    ends a line (as every text does that the program wrote),
    [in_download_archive] returns [True] for that track; and after the
    tracks of a list were written to an empty archive, it returns [True] for
    a track of the list and [False] for a track that was never written. *)
Theorem archive_round_trip (E : env) (kw : kwargs) :
  archive_enabled kw = true ->
  archive_ioerror E = false ->
  (forall (t : track) (w : world),
     line_terminated (archive w) ->
     fst (in_download_archive E t kw (snd (record_download_archive E t kw w)))
     = Ok true)
  /\ (forall (ts : list track) (t : track) (w : world),
        archive w = [] ->
        fst (in_download_archive E t kw (snd (record_all E kw ts w)))
        = Ok (bool_decide (track_id t ∈ map track_id ts))).
Proof.
  intros Hen Hio. split.
  - intros t w Hterm. rewrite in_download_archive_run by done. simpl.
    rewrite record_download_archive_run by done.
    rewrite archive_has_append by done. rewrite bool_decide_eq_true_2 by done.
    by rewrite orb_true_r.
  - intros ts t w Hw. rewrite in_download_archive_run by done. simpl.
    destruct (record_all_run E kw ts w (track_id t) Hen Hio) as [_ ->].
    { left. done. }
    by rewrite Hw.
Qed.

Lemma archive_round_trip_witness :
  fst (in_download_archive (Sample.outside None) Sample.song Sample.archive_c
         (snd (record_download_archive (Sample.outside None) Sample.song
                 Sample.archive_c Sample.empty_world)))
  = Ok true
  /\ fst (in_download_archive (Sample.outside None) Sample.song Sample.archive_c
            (snd (record_all (Sample.outside None) Sample.archive_c [] Sample.empty_world)))
     = Ok false.
Proof.
  destruct (archive_round_trip (Sample.outside None) Sample.archive_c eq_refl eq_refl)
    as [Hwritten Hlist].
  split.
  - apply Hwritten. left. reflexivity.
  - apply (Hlist [] Sample.song Sample.empty_world). reflexivity.
Defined.

(** An archive whose only line, [7], lacks its line end: the id 42 that
    [record_download_archive] writes joins that line, the text is [742] and a
    line end, and the check that follows does not find the track. *)
Lemma archive_round_trip_unterminated :
  archive_enabled Sample.archive_c = true
  /\ archive_ioerror (Sample.outside None) = false
  /\ archive (snd (record_download_archive (Sample.outside None) Sample.song
                     Sample.archive_c (Sample.world_with [] (py "7"))))
     = py "742" ++ [LF]
  /\ fst (in_download_archive (Sample.outside None) Sample.song Sample.archive_c
            (snd (record_download_archive (Sample.outside None) Sample.song
                    Sample.archive_c (Sample.world_with [] (py "7")))))
     = Ok false.
Proof. split_and!; vm_compute; reflexivity. Qed.

(** ** The claim about artist and title *)

Lemma easy_tags_artist_title (t : track) (a b : pystr) (pl : option playlist_info)
    (kw : kwargs) :
  easy_tags t a b pl kw !! "artist"%string = Some a /\
  easy_tags t a b pl kw !! "title"%string = Some b.
Proof.
  unfold easy_tags, set_if.
  destruct pl, (genre t) as [[|??]|], (permalink_url t) as [[|??]|],
    (strftime (created_at t)), (kw_no_album_tag kw); split;
    by simplify_map_eq.
Qed.

(** C8, as amended.  With [extract_artist] set, the first dash variant in
    the order of the list of line 712 that occurs in the title is taken, and
    the artist tag is the text left of its first occurrence, stripped; when
    that variant occurs once, the title tag is the text right of it,
    stripped.  With [extract_artist] unset, or when no variant occurs, the
    artist tag is the display name of the account and the title is left as
    it is. *)
Theorem artist_and_title_spec (t : track) (kw : kwargs) (pl : option playlist_info) :
  ((kw_extract_artist kw = false \/
    forall d, d ∈ dashes -> contains d (title t) = false) ->
   artist_and_title t kw = Ok (username (track_user t), title t))
  /\ (kw_extract_artist kw = true ->
      forall ds1 dash ds2 l r,
        dashes = ds1 ++ dash :: ds2 ->
        (forall d, d ∈ ds1 -> contains d (title t) = false) ->
        title t = l ++ dash ++ r ->
        contains dash (l ++ removelast dash) = false ->
        exists title',
          artist_and_title t kw = Ok (strip l, title') /\
          (contains dash r = false -> title' = strip r))
  /\ (forall a b, artist_and_title t kw = Ok (a, b) ->
      easy_tags t a b pl kw !! "artist"%string = Some a /\
      easy_tags t a b pl kw !! "title"%string = Some b).
Proof.
  split_and!.
  - intros [Hoff|Hnone]; unfold artist_and_title.
    + by rewrite Hoff.
    + destruct (kw_extract_artist kw); [|done]. by apply extract_artist_none.
  - intros Hon ds1 dash ds2 l r Hds Hnone Htitle Hfirst.
    assert (Hne : dash <> []).
    { apply dashes_nonempty. rewrite Hds. apply elem_of_app. right. by left. }
    pose proof (partition_first dash l r Hne Hfirst) as Hpart.
    rewrite <- Htitle in Hpart.
    unfold artist_and_title. rewrite Hon, Hds.
    rewrite (extract_artist_at ds1 ds2 dash _ (title t) l r) by done.
    eexists. split; [done|]. intros Hr. apply partition_None in Hr. by rewrite Hr.
  - intros a b _. apply easy_tags_artist_title.
Qed.

Lemma artist_and_title_spec_witness :
  exists title',
    artist_and_title (Sample.track_titled (py "Artist - Title")) Sample.extract_only
    = Ok (strip (py "Artist"), title') /\
    (contains (py " - ") (py "Title") = false -> title' = strip (py "Title")).
Proof.
  apply (proj1 (proj2 (artist_and_title_spec (Sample.track_titled (py "Artist - Title"))
                         Sample.extract_only None))
           eq_refl [] (py " - ")
           [[32; 0x2212; 32]; [32; 0x2013; 32]; [32; 0x2014; 32]; [32; 0x2015; 32]]%N
           (py "Artist") (py "Title")).
  - reflexivity.
  - intros d Hd. by apply elem_of_nil in Hd.
  - reflexivity.
  - reflexivity.
Defined.

(** A title with two hyphens loses what follows the second; and a title
    where an en dash stands before a hyphen is cut at the hyphen, which comes
    first in the list. *)
Lemma artist_and_title_not_first_occurrence :
  artist_and_title (Sample.track_titled (py "A - B - C")) Sample.extract_only
  = Ok (py "A", py "B")
  /\ artist_and_title
       (Sample.track_titled (py "A" ++ [32; 0x2013; 32]%N ++ py "B - C"))
       Sample.extract_only
     = Ok (py "A" ++ [32; 0x2013; 32]%N ++ py "B", py "C").
Proof. split; vm_compute; reflexivity. Qed.

(** ** The claims on sample runs *)

Lemma listed_track_not_fetched_witness :
  fst (download_track (R := Sample.runtime) 400 (Sample.outside (Some Sample.refused))
         Sample.song None Sample.archive_c Sample.after_first_run) = Ok tt
  /\ archive_entries
       (archive (snd (download_track (R := Sample.runtime) 400
                        (Sample.outside (Some Sample.refused)) Sample.song None
                        Sample.archive_c Sample.after_first_run))) 42
     = S (archive_entries (archive Sample.after_first_run) 42)
  /\ existsb is_download
       (drop (length (trace Sample.after_first_run))
          (trace (snd (download_track (R := Sample.runtime) 400
                         (Sample.outside (Some Sample.refused)) Sample.song None
                         Sample.archive_c Sample.after_first_run)))) = false.
Proof.
  destruct (listed_track_not_fetched (R := Sample.runtime) 400
              (Sample.outside (Some Sample.refused)) Sample.song None
              Sample.archive_c Sample.after_first_run)
    as (_ & _ & Hok & _).
  - reflexivity.
  - reflexivity.
  - reflexivity.
  - vm_compute. reflexivity.
  - assert (Hrun : fst (download_track (R := Sample.runtime) 400
                          (Sample.outside (Some Sample.refused)) Sample.song None
                          Sample.archive_c Sample.after_first_run) = Ok tt)
      by (vm_compute; reflexivity).
    assert (Hallow : policy Sample.song <> py "BLOCK").
    { intros Hblock. vm_compute in Hblock. discriminate Hblock. }
    destruct (Hok Hrun eq_refl Hallow eq_refl) as [_ Hcount].
    destruct Hcount as [Hcount _].
    { right. exists (py "42"). vm_compute. reflexivity. }
    split; [exact Hrun|]. split; [exact Hcount|].
    vm_compute. reflexivity.
Defined.

(** Two runs on the same track with the archive kept and [-c]: the second
    returns normally and leaves the archive with two lines for the track. *)
Lemma second_run_second_entry :
  archive Sample.after_first_run = str_of_Z 42 ++ [LF]
  /\ fst (download_track (R := Sample.runtime) 400 (Sample.outside (Some Sample.refused))
            Sample.song None Sample.archive_c Sample.after_first_run) = Ok tt
  /\ archive (snd (download_track (R := Sample.runtime) 400
                     (Sample.outside (Some Sample.refused)) Sample.song None
                     Sample.archive_c Sample.after_first_run))
     = (str_of_Z 42 ++ [LF]) ++ (str_of_Z 42 ++ [LF])
  /\ archive_entries
       (archive (snd (download_track (R := Sample.runtime) 400
                        (Sample.outside (Some Sample.refused)) Sample.song None
                        Sample.archive_c Sample.after_first_run))) 42
     = 2%nat.
Proof. split_and!; vm_compute; reflexivity. Qed.

Lemma original_attempt_iff_witness :
  exists new,
    trace (snd (download_track (R := Sample.runtime) 400
                  (Sample.outside (Some Sample.refused)) Sample.song None
                  Sample.plain Sample.empty_world))
    = trace Sample.empty_world ++ new /\
    ((exists id, EvOriginalLink id ∈ new) <-> wants_original Sample.song Sample.plain = true) /\
    (wants_original Sample.song Sample.plain
     = downloadable Sample.song && has_downloads_left Sample.song
       && negb (kw_onlymp3 Sample.plain) && negb (kw_no_original Sample.plain)) /\
    (has_downloads_left Sample.song = false -> forall id, EvOriginalLink id ∉ new) /\
    (downloadable Sample.song = true -> has_downloads_left Sample.song = true ->
     kw_onlymp3 Sample.plain = false -> kw_no_original Sample.plain = false ->
     exists title rest,
       new = EvLog Info (MsgDownloading title) :: EvLog Info MsgDownloadingOriginal
             :: EvOriginalLink (track_id Sample.song) :: rest).
Proof.
  apply (original_attempt_iff (R := Sample.runtime) 400
           (Sample.outside (Some Sample.refused)) Sample.song None Sample.plain
           Sample.empty_world).
  - reflexivity.
  - intros Hblock. vm_compute in Hblock. discriminate Hblock.
Defined.

(** A downloadable track with downloads left, [onlymp3] unset and
    [--no-original] set: the original is never asked for and the stream is
    copied. *)
Lemma no_original_skips_original :
  downloadable Sample.song = true
  /\ has_downloads_left Sample.song = true
  /\ kw_onlymp3 Sample.no_original_only = false
  /\ existsb is_original_attempt
       (trace (snd (download_track (R := Sample.runtime) 400
                      (Sample.outside (Some Sample.refused)) Sample.song None
                      Sample.no_original_only Sample.empty_world))) = false
  /\ existsb is_stream_attempt
       (trace (snd (download_track (R := Sample.runtime) 400
                      (Sample.outside (Some Sample.refused)) Sample.song None
                      Sample.no_original_only Sample.empty_world))) = true.
Proof. split_and!; vm_compute; reflexivity. Qed.

Lemma tagging_by_extension_witness :
  download_track (R := Sample.runtime) 400 (Sample.outside (Some Sample.wav))
    Sample.song None Sample.plain Sample.empty_world
  = (Ok tt,
     {| files := {[py "Artist - Title.wav"]} ∪ ∅; archive := []; fileToKeep := [];
        trace := [EvLog Info (MsgDownloading (py "Artist - Title"));
                  EvLog Info MsgDownloadingOriginal; EvOriginalLink 42; EvRequest;
                  EvLog Debug (MsgFilename (py "Artist - Title.wav")); EvBody 1000]
                 ++ [EvLog Error MsgNoTagging;
                     EvUtime (py "Artist - Title.wav") 1600000000;
                     EvLog Info (MsgDownloaded (py "Artist - Title.wav"))] |}).
Proof.
  apply (proj1 (proj2 (tagging_by_extension (R := Sample.runtime) 400
                         (Sample.outside (Some Sample.wav)) Sample.song None
                         Sample.plain Sample.empty_world)
                 (py "Artist - Title.wav") false
                 {| files := {[py "Artist - Title.wav"]} ∪ ∅; archive := [];
                    fileToKeep := [];
                    trace := [EvLog Info (MsgDownloading (py "Artist - Title"));
                              EvLog Info MsgDownloadingOriginal; EvOriginalLink 42;
                              EvRequest;
                              EvLog Debug (MsgFilename (py "Artist - Title.wav"));
                              EvBody 1000] |}
                 eq_refl ltac:(discriminate) eq_refl eq_refl
                 ltac:(apply elem_of_union_l, elem_of_singleton; reflexivity))).
  reflexivity.
Defined.

(** The whole of [download_track] on an original [.wav] file without
    [--flac]: the body is read, no tag is written, the error of line 582 is
    logged and the run ends with the final message. *)
Example download_track_wav :
  let r := download_track (R := Sample.runtime) 400 (Sample.outside (Some Sample.wav))
             Sample.song None Sample.plain Sample.empty_world in
  fst r = Ok tt
  /\ trace (snd r)
     = [EvLog Info (MsgDownloading (py "Artist - Title"));
        EvLog Info MsgDownloadingOriginal; EvOriginalLink 42; EvRequest;
        EvLog Debug (MsgFilename (py "Artist - Title.wav")); EvBody 1000;
        EvLog Error MsgNoTagging;
        EvUtime (py "Artist - Title.wav") 1600000000;
        EvLog Info (MsgDownloaded (py "Artist - Title.wav"))].
Proof. split; vm_compute; reflexivity. Qed.

(** * Further properties of the code *)

(** ** The filter of undecodable characters *)

Lemma encodable_spec (c : N) :
  encodable c = negb (is_surrogate c) && (c <? 0x110000)%N.
Proof.
  unfold encodable, encode_char, is_surrogate.
  destruct (c <? 0x80)%N eqn:H1; [apply N.ltb_lt in H1|apply N.ltb_ge in H1].
  { symmetry. apply andb_true_iff. split.
    - apply negb_true_iff, andb_false_iff. left. apply N.leb_gt. lia.
    - apply N.ltb_lt. lia. }
  destruct (c <? 0x800)%N eqn:H2; [apply N.ltb_lt in H2|apply N.ltb_ge in H2].
  { symmetry. apply andb_true_iff. split.
    - apply negb_true_iff, andb_false_iff. left. apply N.leb_gt. lia.
    - apply N.ltb_lt. lia. }
  destruct ((0xD800 <=? c)%N && (c <=? 0xDFFF)%N) eqn:H3; [done|].
  destruct (c <? 0x10000)%N eqn:H4; [apply N.ltb_lt in H4|apply N.ltb_ge in H4].
  { symmetry. apply N.ltb_lt. lia. }
  by destruct (c <? 0x110000)%N.
Qed.

Lemma encode_utf8_filter (s : pystr) :
  exists b, encode_utf8 (List.filter encodable s) = Some b.
Proof.
  induction s as [|c s (b & IH)]; simpl; [by eexists|].
  destruct (encodable c) eqn:Hc; simpl; [|by eexists].
  unfold encodable in Hc. destruct (encode_char c) as [x|]; [|done].
  rewrite IH. by eexists.
Qed.

(** X2. [title.encode("utf-8", "ignore").decode("utf-8")] never raises: it
    returns the title without its lone surrogates (and without numbers
    that are no code points), the other characters in their order; what it
    returns can be encoded strictly, and a title without such characters
    comes back unchanged. *)
Theorem utf8_ignore_filters (s : pystr) :
  utf8_ignore s
  = Ok (List.filter (fun c => negb (is_surrogate c) && (c <? 0x110000)%N) s)
  /\ (forall r, utf8_ignore s = Ok r -> encode_utf8 r <> None)
  /\ (forallb (fun c => negb (is_surrogate c) && (c <? 0x110000)%N) s = true ->
      utf8_ignore s = Ok s).
Proof.
  assert (Heq : List.filter (fun c => negb (is_surrogate c) && (c <? 0x110000)%N) s
                = List.filter encodable s).
  { apply List.filter_ext. intros c. by rewrite encodable_spec. }
  split_and!.
  - rewrite Heq. apply utf8_ignore_eq.
  - intros r Hr. rewrite utf8_ignore_eq in Hr. injection Hr as <-.
    destruct (encode_utf8_filter s) as (b & ->). done.
  - intros Hall. rewrite utf8_ignore_eq, <- Heq. f_equal.
    apply forallb_filter_id. done.
Qed.

(** ** [get_filename]: what the filter of line 373 covers *)

Lemma encode_utf8_unencodable (s : pystr) (c : N) :
  c ∈ s -> encodable c = false -> encode_utf8 s = None.
Proof.
  induction s as [|x s IH]; intros Hin Hc; [by apply elem_of_nil in Hin|].
  apply elem_of_cons in Hin as [<-|Hin]; simpl.
  - unfold encodable in Hc. by destruct (encode_char c).
  - rewrite (IH Hin Hc). by destruct (encode_char x).
Qed.

Lemma resolve_ext_returns (o : option pystr) (aac : bool) :
  resolve_ext o aac
  = Ok (match o with
        | Some name => snd (splitext name)
        | None => if aac then py ".m4a" else py ".mp3"
        end).
Proof.
  unfold resolve_ext. destruct o as [name|]; [|done].
  rewrite utf8_ignore_eq. done.
Qed.

(** X3. Without [addtofile] and [addtimestamp] the title of the file name
    is what the name format yields from the fields of the track as they
    are: the filter of line 373 does not reach it.  When that text holds a
    lone surrogate, the first test of the loop of line 395 raises
    [UnicodeEncodeError] and [get_filename] returns no name. *)
Theorem get_filename_unencodable_title {R : Runtime} (fuel : nat) (t : track)
    (o : option pystr) (aac : bool) (pl : option playlist_info) (kw : kwargs)
    (formatted : pystr) (c : N) :
  kw_original_name kw && truthy o = false ->
  kw_addtofile kw = false ->
  kw_addtimestamp kw = false ->
  str_format (match pl with
              | Some _ => kw_playlist_name_format kw
              | None => kw_name_format kw
              end) t pl (str_of_Z (timestamp (created_at t))) = Some formatted ->
  c ∈ formatted ->
  is_surrogate c = true ->
  get_filename (S fuel) t o aac pl kw = Raise UnicodeEncodeError.
Proof.
  intros Hearly Hfile Hstamp Hfmt Hin Hc.
  assert (Ht : compose_title t pl kw = Ok formatted).
  { unfold compose_title. rewrite utf8_ignore_eq, Hfile, Hstamp.
    outcome_simpl. destruct pl; by rewrite Hfmt. }
  rewrite (get_filename_unfold (S fuel) t o aac pl kw formatted _ Hearly Ht
             (resolve_ext_returns o aac)).
  simpl. unfold utf8_len at 1.
  rewrite (encode_utf8_unencodable formatted c Hin); [done|].
  rewrite encodable_spec, Hc. done.
Qed.

Lemma get_filename_unencodable_title_witness :
  get_filename (R := Sample.runtime) 1 (Sample.track_titled [0x41; 0xD83D]%N)
    None false None Sample.plain
  = Raise UnicodeEncodeError.
Proof.
  apply (get_filename_unencodable_title (R := Sample.runtime) 0
           (Sample.track_titled [0x41; 0xD83D]%N) None false None Sample.plain
           [0x41; 0xD83D]%N 0xD83D%N).
  - reflexivity.
  - reflexivity.
  - reflexivity.
  - vm_compute. reflexivity.
  - by repeat constructor.
  - reflexivity.
Defined.

Lemma encode_utf8_numeral (s : pystr) :
  forallb numeral_char s = true -> encode_utf8 s = Some s.
Proof.
  induction s as [|c s IH]; [done|]. simpl. intros [Hc Hs]%andb_true_iff.
  rewrite (IH Hs).
  assert (Hlt : (c <? 0x80)%N = true).
  { unfold numeral_char in Hc. apply N.ltb_lt.
    apply orb_true_iff in Hc as [[H1%N.leb_le H2%N.leb_le]%andb_true_iff|H%N.eqb_eq]; lia. }
  unfold encode_char. rewrite Hlt. done.
Qed.

(** X4. With [addtimestamp] and without [addtofile] the name of a stream
    file is always found, whatever the title of the track holds: the title
    of the file is the creation time, an underscore and the track title
    without its lone surrogates (line 373), all of which can be encoded, so
    that with fuel for every character [get_filename] returns the sanitized
    form of a prefix of that text followed by the extension. *)
Theorem get_filename_addtimestamp_returns {R : Runtime} (fuel : nat) (t : track)
    (aac : bool) (pl : option playlist_info) (kw : kwargs) :
  kw_addtimestamp kw = true ->
  kw_addtofile kw = false ->
  let stamped :=
    str_of_Z (timestamp (created_at t)) ++ py "_"
    ++ List.filter (fun c => negb (is_surrogate c) && (c <? 0x110000)%N) (title t) in
  (length stamped < fuel)%nat ->
  exists k : nat,
    (k <= length stamped)%nat /\
    get_filename fuel t None aac pl kw
    = Ok (sanitize_filename
            (take k stamped ++ str_lower (if aac then py ".m4a" else py ".mp3"))).
Proof.
  intros Hstamp Hfile stamped Hfuel.
  assert (Hfilter : List.filter (fun c => negb (is_surrogate c) && (c <? 0x110000)%N) (title t)
                    = List.filter encodable (title t)).
  { apply List.filter_ext. intros c. by rewrite encodable_spec. }
  assert (Ht : compose_title t pl kw = Ok stamped).
  { unfold compose_title. rewrite utf8_ignore_eq, Hfile, Hstamp.
    outcome_simpl. unfold stamped. by rewrite Hfilter. }
  destruct (encode_utf8_filter (title t)) as (fb & Hfb).
  assert (Htb : exists tb, encode_utf8 stamped = Some tb).
  { unfold stamped. rewrite !encode_utf8_app, Hfilter, Hfb.
    rewrite encode_utf8_numeral by apply str_of_Z_numeral.
    change (encode_utf8 (py "_")) with (Some (py "_")). by eexists. }
  destruct Htb as (tb & Htb).
  set (ext := if aac then py ".m4a" else py ".mp3").
  assert (Heb : encode_utf8 ext = Some ext /\ length ext = 4%nat).
  { unfold ext. by destruct aac. }
  destruct Heb as (Heb & Hlen).
  destruct (truncate_title_spec fuel stamped ext tb ext Htb Heb) as
    (k & kb & Hk & Hrun & _); [lia|done|].
  exists k. split; [done|].
  rewrite (get_filename_unfold fuel t None aac pl kw stamped ext);
    [|apply andb_false_r|done|].
  - by rewrite Hrun.
  - by rewrite resolve_ext_returns.
Qed.

Lemma get_filename_addtimestamp_returns_witness :
  let kw := {| kw_original_name := false; kw_addtofile := false;
               kw_addtimestamp := true; kw_name_format := py "{title}";
               kw_playlist_name_format := py "{playlist[title]}_{title}";
               kw_onlymp3 := false; kw_no_original := false;
               kw_only_original := false; kw_remove := false;
               kw_force_metadata := false; kw_flac := false; kw_overwrite := false;
               kw_download_archive := None; kw_c := false;
               kw_extract_artist := false; kw_no_album_tag := false;
               kw_original_art := false |} in
  exists k : nat,
    (k <= 12)%nat /\
    get_filename (R := Sample.runtime) 20 (Sample.track_titled [0x41; 0xD83D]%N)
      None false None kw
    = Ok (Sample.sanitize (take k (py "1600000000_A") ++ Sample.lower (py ".mp3"))).
Proof.
  intros kw.
  apply (get_filename_addtimestamp_returns (R := Sample.runtime) 20
           (Sample.track_titled [0x41; 0xD83D]%N) false None kw).
  - reflexivity.
  - reflexivity.
  - vm_compute. lia.
Defined.

(** ** [can_convert] and the name of the [.flac] file *)

Lemma rpartition_at_spec (c : N) (s h t : pystr) :
  rpartition_at c s = Some (h, t) -> s = h ++ t /\ h = removelast h ++ [c].
Proof.
  revert h t. induction s as [|x s IH]; intros h t Hs; [done|].
  simpl in Hs. destruct (rpartition_at c s) as [[h' t']|].
  - injection Hs as <- <-. destruct (IH h' t' eq_refl) as (-> & Hh).
    split; [done|]. destruct h' as [|y h']; [by destruct (removelast [])|].
    change (removelast (x :: y :: h')) with (x :: removelast (y :: h')).
    rewrite <- app_comm_cons. f_equal. exact Hh.
  - destruct (x =? c)%N eqn:Hx; [|done]. apply N.eqb_eq in Hx as ->.
    by injection Hs as <- <-.
Qed.

Lemma skip_dots_spec (s d r : pystr) : skip_dots s = (d, r) -> s = d ++ r.
Proof.
  revert d r. induction s as [|x s IH]; intros d r Hs; simpl in Hs.
  - by injection Hs as <- <-.
  - destruct (x =? dot)%N.
    + destruct (skip_dots s) as [d' r']. injection Hs as <- <-.
      by rewrite (IH d' r' eq_refl).
    + by injection Hs as <- <-.
Qed.

(** The two parts of [splitext] make up the path, and the extension is
    empty or starts at a dot. *)
Lemma splitext_spec (p root ext : pystr) :
  splitext p = (root, ext) ->
  p = root ++ ext /\ (ext = [] \/ exists e, ext = dot :: e).
Proof.
  unfold splitext. intros Hp.
  destruct (rpartition_at slash p) as [[dir base]|] eqn:Hdir.
  - apply rpartition_at_spec in Hdir as (-> & _).
    destruct (skip_dots base) as [dots rest] eqn:Hdots.
    apply skip_dots_spec in Hdots as ->.
    destruct (rpartition_at dot rest) as [[h e]|] eqn:Hext.
    + apply rpartition_at_spec in Hext as (-> & Hh). injection Hp as <- <-.
      split; [|right; by eexists]. rewrite Hh at 1.
      rewrite <- !app_assoc. done.
    + injection Hp as <- <-. split; [by rewrite app_nil_r|by left].
  - destruct (skip_dots p) as [dots rest] eqn:Hdots.
    apply skip_dots_spec in Hdots as ->.
    destruct (rpartition_at dot rest) as [[h e]|] eqn:Hext.
    + apply rpartition_at_spec in Hext as (-> & Hh). injection Hp as <- <-.
      split; [|right; by eexists]. rewrite Hh at 1.
      rewrite <- !app_assoc. done.
    + injection Hp as <- <-. split; [by rewrite app_nil_r|by left].
Qed.

Lemma startswith_length (p s : pystr) :
  startswith p s = true -> (length p <= length s)%nat.
Proof.
  revert s. induction p as [|a p IH]; intros [|b s] Hs; simpl in *; try done; try lia.
  apply andb_true_iff in Hs as [_ Hs]. apply IH in Hs. lia.
Qed.

Lemma contains_length (sub s : pystr) :
  contains sub s = true -> (length sub <= length s)%nat.
Proof.
  induction s as [|c s IH]; simpl; intros Hs.
  - rewrite orb_false_r in Hs. by apply startswith_length in Hs.
  - apply orb_true_iff in Hs as [Hs|Hs].
    + by apply startswith_length in Hs.
    + apply IH in Hs. lia.
Qed.

(** X5. A name that [can_convert] accepts has an extension of four
    characters at least, and [filename[:-4] + ".flac"] is the root of the
    name, the extension without its last four characters, and [.flac]: for
    an extension of four characters ([.wav], [.aif]) the extension is
    replaced; for a longer one ([.aiff], [.wave]) its first characters stay
    in the name. *)
Theorem flac_name_of_convertible (filename : pystr) :
  can_convert filename = true ->
  let root := fst (splitext filename) in
  let ext := snd (splitext filename) in
  (4 <= length ext)%nat /\
  flac_name filename = root ++ take (length ext - 4) ext ++ py ".flac" /\
  (length ext = 4%nat -> flac_name filename = root ++ py ".flac").
Proof.
  intros Hc root ext. unfold can_convert in Hc. simpl in Hc.
  destruct (splitext_spec filename root ext) as (Hname & Hext).
  { unfold root, ext. by destruct (splitext filename). }
  fold ext in Hc.
  assert (Hlen : (4 <= length ext)%nat).
  { destruct Hext as [->|(e & ->)]; [done|].
    assert (He : contains (py "wav") e || contains (py "aif") e = true).
    { apply orb_true_iff in Hc. apply orb_true_iff.
      destruct Hc as [Hc|Hc]; [left|right]; simpl in Hc;
        change (dot =? 119)%N with false in Hc; change (dot =? 97)%N with false in Hc;
        simpl in Hc; exact Hc. }
    apply orb_true_iff in He as [He|He]; apply contains_length in He;
      simpl in *; lia. }
  assert (Hflac : flac_name filename = root ++ take (length ext - 4) ext ++ py ".flac").
  { unfold flac_name, slice_to_neg. rewrite Hname, length_app, take_app.
    rewrite take_ge by lia. rewrite <- app_assoc. do 3 f_equal. lia. }
  split_and!; [done|done|].
  intros H4. rewrite Hflac, H4. done.
Qed.

Lemma flac_name_of_convertible_witness :
  can_convert (py "song.aiff") = true /\
  snd (splitext (py "song.aiff")) = py ".aiff" /\
  flac_name (py "song.aiff") = py "song..flac".
Proof.
  split; [reflexivity|]. split; [reflexivity|].
  destruct (flac_name_of_convertible (py "song.aiff") eq_refl) as (_ & H & _).
  exact H.
Defined.

(** ** An archive whose last line is not ended *)

Lemma archive_has_merged (a s : pystr) (id : Z) :
  line_terminated a ->
  s <> [] ->
  forallb numeral_char s = true ->
  archive_has (a ++ s ++ [LF]) id
  = archive_has a id || bool_decide (s = str_of_Z id).
Proof.
  intros Ha Hne Hs. unfold archive_has, readlines.
  assert (Hlast : existsb (fun line => bool_decide (strip line = str_of_Z id))
                    (readlines_from [] (s ++ [LF]))
                  = bool_decide (s = str_of_Z id)).
  { rewrite (readlines_from_plain s [] []) by done. simpl.
    rewrite orb_false_r, strip_numeral_line by done. done. }
  destruct Ha as [->|(a' & ->)]; [done|].
  rewrite <- app_assoc. simpl.
  rewrite (readlines_from_app a' [] (s ++ [LF])), existsb_app.
  by rewrite Hlast.
Qed.

Lemma readlines_from_plain_end (s cur : pystr) :
  forallb numeral_char s = true ->
  s <> [] ->
  readlines_from cur s = [reverse cur ++ s].
Proof.
  revert cur. induction s as [|c s IH]; intros cur Hs Hne; [done|].
  simpl in Hs. apply andb_true_iff in Hs as [Hc Hs].
  simpl. destruct (numeral_char_plain c Hc) as (_ & -> & ->).
  destruct s as [|c' s].
  - simpl. by rewrite reverse_cons.
  - rewrite IH by done. by rewrite reverse_cons, <- app_assoc.
Qed.

Lemma strip_numeral (s : pystr) :
  forallb numeral_char s = true -> strip s = s.
Proof.
  intros Hs. destruct s as [|c s]; [done|].
  pose proof (strip_numeral_line (c :: s) ltac:(done) Hs) as Hline.
  unfold strip in *. simpl in Hs. apply andb_true_iff in Hs as [Hc Hs'].
  destruct (numeral_char_plain c Hc) as (Hsp & _).
  rewrite lstrip_plain by done.
  change ((c :: s) ++ [LF]) with (c :: (s ++ [LF])) in Hline.
  rewrite lstrip_plain in Hline by done.
  change (c :: (s ++ [LF])) with ((c :: s) ++ [LF]) in Hline.
  rewrite reverse_app in Hline. simpl in Hline.
  change (is_space LF) with true in Hline. simpl in Hline. exact Hline.
Qed.

Lemma archive_has_unterminated (a s : pystr) (id : Z) :
  line_terminated a ->
  s <> [] ->
  forallb numeral_char s = true ->
  archive_has (a ++ s) id = archive_has a id || bool_decide (s = str_of_Z id).
Proof.
  intros Ha Hne Hs. unfold archive_has, readlines.
  assert (Hlast : existsb (fun line => bool_decide (strip line = str_of_Z id))
                    (readlines_from [] s)
                  = bool_decide (s = str_of_Z id)).
  { rewrite (readlines_from_plain_end s []) by done. simpl.
    rewrite orb_false_r, strip_numeral by done. done. }
  destruct Ha as [->|(a' & ->)]; [done|].
  rewrite <- app_assoc. simpl.
  rewrite (readlines_from_app a' [] s), existsb_app.
  by rewrite Hlast.
Qed.

(** X6. When the last line of the archive lacks its end of line, the id
    that [record_download_archive] appends joins that line.  Let the
    archive be lines that are ended, followed by the id [m] alone: before
    the write the archive names [m]; after it the archive names the
    recorded track and [m] only if the lines before name them, so that the
    track just recorded is not found by [in_download_archive] and the track
    [m] is found no more. *)
Theorem record_joins_unterminated_line (E : env) (t : track) (kw : kwargs)
    (w : world) (a : pystr) (m : Z) :
  archive_enabled kw = true ->
  archive_ioerror E = false ->
  line_terminated a ->
  archive w = a ++ str_of_Z m ->
  let w' := snd (record_download_archive E t kw w) in
  fst (in_download_archive E t kw w') = Ok (archive_has a (track_id t)) /\
  archive_has (archive w) m = true /\
  archive_has (archive w') m = archive_has a m.
Proof.
  intros Hen Hio Ha Hw w'.
  assert (Hw' : archive w' = a ++ (str_of_Z m ++ str_of_Z (track_id t)) ++ [LF]).
  { unfold w', record_download_archive. rewrite Hen, Hio. simpl.
    rewrite Hw, <- !app_assoc. done. }
  assert (Hnum : forallb numeral_char (str_of_Z m ++ str_of_Z (track_id t)) = true).
  { rewrite forallb_app, !str_of_Z_numeral. done. }
  assert (Hne : str_of_Z m ++ str_of_Z (track_id t) <> []).
  { intros [H _]%app_eq_nil. by apply str_of_Z_nonempty in H. }
  assert (Hlen : forall n, (0 < length (str_of_Z n))%nat).
  { intros n. pose proof (str_of_Z_nonempty n). destruct (str_of_Z n); simpl; [done|lia]. }
  assert (Hmerged : forall id, (id = m \/ id = track_id t) ->
            bool_decide ((str_of_Z m ++ str_of_Z (track_id t)) = str_of_Z id) = false).
  { intros id Hid. apply bool_decide_eq_false. intros Heq.
    apply (f_equal length) in Heq. rewrite length_app in Heq.
    pose proof (Hlen m). pose proof (Hlen (track_id t)).
    destruct Hid as [->| ->]; lia. }
  split_and!.
  - unfold in_download_archive. rewrite Hen, Hio. simpl. run_M.
    rewrite Hw', archive_has_merged by done.
    rewrite Hmerged by (by right). by rewrite orb_false_r.
  - rewrite Hw, archive_has_unterminated;
      [|done|apply str_of_Z_nonempty|apply str_of_Z_numeral].
    rewrite bool_decide_eq_true_2 by done. apply orb_true_r.
  - rewrite Hw', archive_has_merged by done.
    rewrite Hmerged by (by left). by rewrite orb_false_r.
Qed.

Lemma record_joins_unterminated_line_witness :
  let w := Sample.world_with [] (py "7") in
  let w' := snd (record_download_archive (Sample.outside None) Sample.song
                   Sample.archive_c w) in
  archive w' = py "742" ++ [LF] /\
  fst (in_download_archive (Sample.outside None) Sample.song Sample.archive_c w')
  = Ok false /\
  archive_has (archive w) 7 = true /\
  archive_has (archive w') 7 = false.
Proof.
  split; [reflexivity|].
  apply (record_joins_unterminated_line (Sample.outside None) Sample.song
           Sample.archive_c (Sample.world_with [] (py "7")) [] 7).
  - reflexivity.
  - reflexivity.
  - by left.
  - reflexivity.
Defined.

(** ** What a computation keeps *)

Lemma keeps_seq {A B} (P Q S : world -> world -> Prop) (m : M A) (k : A -> M B) :
  keeps P m ->
  (forall a, keeps Q (k a)) ->
  (forall w w1, P w w1 -> S w w1) ->
  (forall w w1 w2, P w w1 -> Q w1 w2 -> S w w2) ->
  keeps S (mbind k m).
Proof.
  intros Hm Hk HP HPQ w. specialize (Hm w).
  unfold mbind, M_bind. destruct (m w) as [[a|c|e|] w1]; simpl in *; eauto.
  eapply HPQ; [done|]. apply Hk.
Qed.

Lemma keeps_bind {A B} (R : world -> world -> Prop) `{!PreOrder R}
    (m : M A) (k : A -> M B) :
  keeps R m -> (forall a, keeps R (k a)) -> keeps R (mbind k m).
Proof.
  intros Hm Hk. apply (keeps_seq R R R); [done|done|done|].
  intros w w1 w2 H1 H2. by etrans.
Qed.

Lemma keeps_refl {A} (R : world -> world -> Prop) `{!Reflexive R} (m : M A) :
  (forall w, snd (m w) = w) -> keeps R m.
Proof. intros Hm w. by rewrite Hm. Qed.

Lemma keeps_try_except {A} (R : world -> world -> Prop) `{!PreOrder R}
    (m handler : M A) :
  keeps R m -> keeps R handler -> keeps R (try_except m handler).
Proof.
  intros Hm Hh w. specialize (Hm w). unfold try_except.
  destruct (m w) as [[a|c|e|] w1]; simpl in *; try done.
  - etrans; [done|]. apply Hh.
  - etrans; [done|]. apply Hh.
Qed.

#[global] Instance same_archive_preorder : PreOrder same_archive.
Proof.
  split; [done|]. intros w w1 w2 H1 H2. unfold same_archive in *. congruence.
Qed.

#[global] Instance files_stay_preorder : PreOrder files_stay.
Proof.
  split.
  - intros w. unfold files_stay. reflexivity.
  - intros w w1 w2 H1 H2. unfold files_stay in *. by etrans.
Qed.

(** One step through a computation that keeps a relation of worlds. *)
Ltac keeps_step :=
  match goal with
  | |- keeps _ (mbind _ _) => apply keeps_bind; [tc_solve| |intros]
  | |- keeps _ (bind _ _) => unfold bind; apply keeps_bind; [tc_solve| |intros]
  | |- keeps _ (ret _) => by apply keeps_refl
  | |- keeps _ (lift _) => by apply keeps_refl
  | |- keeps _ (isfile _) => by apply keeps_refl
  | |- keeps _ (sys_exit _) => by apply keeps_refl
  | |- keeps _ (raise _) => by apply keeps_refl
  | |- keeps _ read_archive => by apply keeps_refl
  | |- keeps _ (try_except _ _) => apply keeps_try_except; [tc_solve| |]
  | |- keeps _ (if ?b then _ else _) => destruct b eqn:?
  | |- keeps _ (match ?x with _ => _ end) => destruct x eqn:?
  end.

Lemma keeps_same_archive_emit (e : event) : keeps same_archive (emit e).
Proof. done. Qed.

Lemma keeps_same_archive_log (l : level) (m : message) : keeps same_archive (log l m).
Proof. done. Qed.

Lemma keeps_same_archive_os_remove (f : pystr) : keeps same_archive (os_remove f).
Proof. done. Qed.

Lemma keeps_same_archive_create_file (f : pystr) : keeps same_archive (create_file f).
Proof. done. Qed.

Lemma keeps_same_archive_keep_file (f : pystr) : keeps same_archive (keep_file f).
Proof. done. Qed.

Ltac same_archive_step :=
  first [ keeps_step
        | apply keeps_same_archive_emit
        | apply keeps_same_archive_log
        | apply keeps_same_archive_os_remove
        | apply keeps_same_archive_create_file
        | apply keeps_same_archive_keep_file ].

Lemma already_downloaded_same_archive (E : env) (t : track) (title f : pystr)
    (kw : kwargs) :
  keeps same_archive (already_downloaded E t title f kw).
Proof. unfold already_downloaded, in_download_archive. repeat same_archive_step. Qed.

Lemma download_original_file_same_archive {R : Runtime} (fuel : nat) (E : env)
    (t : track) (title : pystr) (pl : option playlist_info) (kw : kwargs) :
  keeps same_archive (download_original_file fuel E t title pl kw).
Proof.
  unfold download_original_file.
  repeat first [ apply already_downloaded_same_archive | same_archive_step ].
Qed.

Lemma download_hls_same_archive {R : Runtime} (fuel : nat) (E : env)
    (t : track) (title : pystr) (pl : option playlist_info) (kw : kwargs) :
  keeps same_archive (download_hls fuel E t title pl kw).
Proof.
  unfold download_hls, get_track_m3u8.
  repeat first [ apply already_downloaded_same_archive | same_archive_step ].
Qed.

Lemma tag_and_finish_same_archive (E : env) (t : track) (f : pystr)
    (pl : option playlist_info) (kw : kwargs) :
  keeps same_archive (tag_and_finish E t f pl kw).
Proof.
  unfold tag_and_finish, set_metadata, try_utime. repeat same_archive_step.
Qed.

Lemma record_download_archive_one_line (E : env) (t : track) (kw : kwargs) :
  keeps (one_line_more (str_of_Z (track_id t) ++ [LF])) (record_download_archive E t kw).
Proof.
  intros w. unfold record_download_archive.
  destruct (archive_enabled kw); simpl; [|by left].
  destruct (archive_ioerror E); simpl; [by left|by right].
Qed.

Lemma same_archive_one_line (line : pystr) (w w1 : world) :
  same_archive w w1 -> one_line_more line w w1.
Proof. intros H. by left. Qed.

Lemma same_archive_then_one_line (line : pystr) (w w1 w2 : world) :
  same_archive w w1 -> one_line_more line w1 w2 -> one_line_more line w w2.
Proof. unfold same_archive, one_line_more. intros -> H. done. Qed.

Lemma one_line_then_same_archive (line : pystr) (w w1 w2 : world) :
  one_line_more line w w1 -> same_archive w1 w2 -> one_line_more line w w2.
Proof. unfold same_archive, one_line_more. intros H ->. done. Qed.

Lemma keeps_weaken {A} (P Q : world -> world -> Prop) (m : M A) :
  (forall w w1, P w w1 -> Q w w1) -> keeps P m -> keeps Q m.
Proof. intros HPQ Hm w. apply HPQ, Hm. Qed.

(** X7. Whatever the track, the options and the answers from outside, a run
    of [download_track] leaves the archive as it was or with the line of
    this track appended once: nothing else is written to it, and what it
    held stays.  Without [--download-archive], or when the archive cannot
    be opened, it is left as it was. *)
Theorem download_track_archive_once {R : Runtime} (fuel : nat) (E : env) (t : track)
    (pl : option playlist_info) (kw : kwargs) (w : world) :
  let w1 := snd (download_track fuel E t pl kw w) in
  (archive w1 = archive w \/
   archive w1 = archive w ++ str_of_Z (track_id t) ++ [LF]) /\
  (archive_enabled kw && negb (archive_ioerror E) = false -> archive w1 = archive w).
Proof.
  set (line := str_of_Z (track_id t) ++ [LF]).
  assert (Hsame : forall (A : Type) (m : M A), keeps same_archive m ->
                    keeps (one_line_more line) m).
  { intros A m. apply keeps_weaken, same_archive_one_line. }
  assert (Hall : keeps (one_line_more line) (download_track fuel E t pl kw)).
  { unfold download_track, bind.
    apply (keeps_seq same_archive (one_line_more line));
      [by apply keeps_refl| |apply same_archive_one_line
      |apply same_archive_then_one_line].
    intros title.
    apply (keeps_seq same_archive (one_line_more line));
      [apply keeps_same_archive_log| |apply same_archive_one_line
      |apply same_archive_then_one_line].
    intros _.
    destruct (negb (streamable t)); [apply Hsame, keeps_same_archive_log|].
    destruct (bool_decide (policy t = py "BLOCK")); [apply Hsame, keeps_same_archive_log|].
    apply (keeps_seq same_archive (one_line_more line));
      [| |apply same_archive_one_line|apply same_archive_then_one_line].
    { destruct (wants_original t kw);
        [apply download_original_file_same_archive|by apply keeps_refl]. }
    intros [filename d].
    apply (keeps_seq same_archive (one_line_more line));
      [| |apply same_archive_one_line|apply same_archive_then_one_line].
    { destruct filename as [f|]; [by apply keeps_refl|].
      destruct (kw_only_original kw).
      - repeat same_archive_step.
      - apply keeps_bind; [tc_solve|apply download_hls_same_archive|].
        intros r. by apply keeps_refl. }
    intros [[f d']|]; [|by apply Hsame, keeps_refl].
    apply (keeps_seq same_archive (one_line_more line));
      [repeat same_archive_step| |apply same_archive_one_line
      |apply same_archive_then_one_line].
    intros _.
    apply (keeps_seq (one_line_more line) same_archive);
      [apply record_download_archive_one_line| |done|apply one_line_then_same_archive].
    intros _. destruct (d' && negb (kw_force_metadata kw)).
    - apply keeps_same_archive_log.
    - apply tag_and_finish_same_archive. }
  intros w1. split; [apply Hall|].
  intros Hoff.
  assert (Hoff' : keeps same_archive (record_download_archive E t kw)).
  { intros w0. unfold record_download_archive.
    destruct (archive_enabled kw); simpl in *; [|done].
    destruct (archive_ioerror E); simpl in *; done. }
  assert (Hall' : keeps same_archive (download_track fuel E t pl kw)).
  { unfold download_track.
    repeat first [ apply download_original_file_same_archive
                 | apply download_hls_same_archive
                 | apply tag_and_finish_same_archive
                 | apply Hoff'
                 | same_archive_step ]. }
  apply Hall'.
Qed.

(** ** How a run ends *)

Lemma exits_only_bind {A B} (code : Z) (m : M A) (k : A -> M B) :
  exits_only code m -> (forall a, exits_only code (k a)) ->
  exits_only code (mbind k m).
Proof.
  intros Hm Hk w c. specialize (Hm w). unfold mbind, M_bind.
  destruct (m w) as [[a|c'|e|] w1]; simpl in *; try done.
  - apply Hk.
  - intros [= <-]. by apply Hm.
Qed.

Lemma exits_only_returns {A} (code : Z) (m : M A) :
  (forall w c, fst (m w) <> Exit c) -> exits_only code m.
Proof. intros Hm w c Hc. by apply Hm in Hc. Qed.

Lemma exits_only_try_except {A} (code : Z) (m handler : M A) :
  exits_only code handler -> exits_only code (try_except m handler).
Proof.
  intros Hh w c. unfold try_except.
  destruct (m w) as [[a|c'|e|] w1]; simpl; try done; apply Hh.
Qed.

Lemma truncate_title_no_exit (fuel : nat) (title ext : pystr) (c : Z) :
  truncate_title fuel title ext <> Exit c.
Proof.
  revert title. induction fuel as [|fuel IH]; intros title; [done|].
  simpl. unfold utf8_len.
  destruct (encode_utf8 title); outcome_simpl; [|done].
  destruct (encode_utf8 ext); outcome_simpl; [|done].
  match goal with |- context [if ?b then _ else _] => destruct b end; [apply IH|done].
Qed.

(** [get_filename] returns, raises or does not end; it never leaves by
    [sys.exit]. *)
Lemma get_filename_no_exit {R : Runtime} (fuel : nat) (t : track) (o : option pystr)
    (aac : bool) (pl : option playlist_info) (kw : kwargs) (c : Z) :
  get_filename fuel t o aac pl kw <> Exit c.
Proof.
  unfold get_filename. destruct (kw_original_name kw && truthy o); [done|].
  rewrite resolve_ext_returns.
  destruct (compose_title t pl kw) as [title| | |] eqn:Ht; outcome_simpl; try done.
  - pose proof (truncate_title_no_exit fuel title
                  match o with
                  | Some name => (splitext name).2
                  | None => if aac then py ".m4a" else py ".mp3"
                  end c) as Hc.
    by destruct (truncate_title fuel title _).
  - unfold compose_title in Ht. rewrite utf8_ignore_eq in Ht. outcome_simpl.
    destruct (negb (kw_addtofile kw) && negb (kw_addtimestamp kw)); [|done].
    destruct pl; by destruct (str_format _ _ _ _).
Qed.

(** One step through a computation that exits with one code only. *)
Ltac exits_step :=
  match goal with
  | |- exits_only _ (mbind _ _) => apply exits_only_bind; [|intros]
  | |- exits_only _ (bind _ _) => unfold bind; apply exits_only_bind; [|intros]
  | |- exits_only _ (try_except _ _) => apply exits_only_try_except
  | |- exits_only _ (sys_exit _) => by intros ? ? [= <-]
  | |- exits_only _ (lift (get_filename _ _ _ _ _ _)) =>
      apply exits_only_returns; intros ? ?; apply get_filename_no_exit
  | |- exits_only _ (lift (or_raise _ ?o)) =>
      apply exits_only_returns; intros ? ?; by destruct o
  | |- exits_only _ (if ?b then _ else _) => destruct b eqn:?
  | |- exits_only _ (match ?x with _ => _ end) => destruct x eqn:?
  | |- exits_only _ _ => by apply exits_only_returns
  end.

(** X8. A run of [download_track] that leaves by [sys.exit] does so with
    the code -1: at the track that is already there without [-c] (line
    628), at the body that arrives incomplete (line 457), at the file that
    is missing after the download (line 569); what [set_metadata] raises or
    exits with is caught at line 579. *)
Theorem download_track_exit_code {R : Runtime} (fuel : nat) (E : env) (t : track)
    (pl : option playlist_info) (kw : kwargs) (w : world) (c : Z) :
  fst (download_track fuel E t pl kw w) = Exit c -> c = -1.
Proof.
  revert w c. change (exits_only (-1) (download_track fuel E t pl kw)).
  unfold download_track, download_original_file, download_hls, get_track_m3u8,
    already_downloaded, in_download_archive, record_download_archive,
    tag_and_finish, try_utime.
  repeat exits_step.
  - apply exits_only_returns. intros w c. unfold lift.
    rewrite utf8_ignore_eq. done.
Qed.

Lemma download_track_exit_code_witness :
  let r := download_track (R := Sample.runtime) 400 (Sample.outside (Some Sample.refused))
             Sample.song None Sample.plain
             (Sample.world_with [py "Artist - Title.mp3"] []) in
  exists c, fst r = Exit c /\ c = -1.
Proof.
  intros r. exists (-1). split; [vm_compute; reflexivity|].
  apply (download_track_exit_code (R := Sample.runtime) 400
           (Sample.outside (Some Sample.refused)) Sample.song None Sample.plain
           (Sample.world_with [py "Artist - Title.mp3"] []) (-1)).
  vm_compute. reflexivity.
Defined.

(** ** [--only-original] *)

(** X9. With [--only-original] a run of [download_track] never turns to
    the stream: it neither asks for the manifest nor has [ffmpeg] copy a
    stream, whatever becomes of the original file.  When the original file
    is not even asked for, the run returns with the directory, the archive
    and the list of files to keep as they were. *)
Theorem only_original_never_streams {R : Runtime} (fuel : nat) (E : env) (t : track)
    (pl : option playlist_info) (kw : kwargs) (w : world) :
  kw_only_original kw = true ->
  let r := download_track fuel E t pl kw w in
  (exists new, trace (snd r) = trace w ++ new /\
               forallb (fun e => negb (is_stream_attempt e)) new = true) /\
  (wants_original t kw = false ->
   fst r = Ok tt /\ files (snd r) = files w /\ archive (snd r) = archive w /\
   fileToKeep (snd r) = fileToKeep w).
Proof.
  intros Honly r. split.
  - assert (Hall : emits (fun e => negb (is_stream_attempt e))
                     (download_track fuel E t pl kw)); [|apply Hall].
    unfold download_track. rewrite Honly. cbv iota.
    unfold download_original_file, already_downloaded, in_download_archive,
      record_download_archive, tag_and_finish, set_metadata, try_utime.
    repeat emits_step.
  - intros Hwants. unfold r, download_track. rewrite Hwants, Honly.
    unfold bind, mbind, M_bind, lift. rewrite utf8_ignore_eq. simpl.
    destruct (negb (streamable t)); [done|].
    destruct (bool_decide (policy t = py "BLOCK")); done.
Qed.

Lemma only_original_never_streams_witness :
  let kw := {| kw_original_name := false; kw_addtofile := false;
               kw_addtimestamp := false; kw_name_format := py "{title}";
               kw_playlist_name_format := py "{playlist[title]}_{title}";
               kw_onlymp3 := false; kw_no_original := false;
               kw_only_original := true; kw_remove := false;
               kw_force_metadata := false; kw_flac := false; kw_overwrite := false;
               kw_download_archive := None; kw_c := false;
               kw_extract_artist := false; kw_no_album_tag := false;
               kw_original_art := false |} in
  let r := download_track (R := Sample.runtime) 400 (Sample.outside (Some Sample.refused))
             Sample.song None kw Sample.empty_world in
  (exists new, trace (snd r) = trace Sample.empty_world ++ new /\
               forallb (fun e => negb (is_stream_attempt e)) new = true) /\
  (wants_original Sample.song kw = false ->
   fst r = Ok tt /\ files (snd r) = files Sample.empty_world /\
   archive (snd r) = archive Sample.empty_world /\
   fileToKeep (snd r) = fileToKeep Sample.empty_world).
Proof.
  intros kw.
  apply (only_original_never_streams (R := Sample.runtime) 400
           (Sample.outside (Some Sample.refused)) Sample.song None kw
           Sample.empty_world).
  reflexivity.
Defined.

(** ** Files that are there before a run *)

Lemma keeps_files_same {A} (m : M A) :
  (forall w, files (snd (m w)) = files w) -> keeps files_stay m.
Proof. intros Hm w. unfold files_stay. by rewrite Hm. Qed.

Lemma keeps_files_create_file (f : pystr) : keeps files_stay (create_file f).
Proof. intros w. unfold files_stay. simpl. apply union_subseteq_r. Qed.

Ltac files_stay_step :=
  first [ keeps_step
        | apply keeps_files_create_file
        | by apply keeps_files_same ].

Lemma andb_false_l_if {A} (b : bool) (x y : A) :
  (if false && b then x else y) = y.
Proof. done. Qed.

(** X10. Without [--overwrite] and [--flac] a run of [download_track]
    deletes nothing: every file of the directory is still there when the
    run ends, however it ends, and [os.remove] is not called. *)
Theorem download_track_removes_nothing {R : Runtime} (fuel : nat) (E : env)
    (t : track) (pl : option playlist_info) (kw : kwargs) (w : world) :
  kw_overwrite kw = false ->
  kw_flac kw = false ->
  let w1 := snd (download_track fuel E t pl kw w) in
  files w ⊆ files w1 /\
  exists new, trace w1 = trace w ++ new /\
              forallb (fun e => negb (is_removal e)) new = true.
Proof.
  intros Hov Hflac w1. split.
  - assert (Hall : keeps files_stay (download_track fuel E t pl kw)); [|apply Hall].
    unfold download_track, download_original_file, download_hls, get_track_m3u8,
      already_downloaded, in_download_archive, record_download_archive,
      tag_and_finish, set_metadata, try_utime.
    rewrite Hov, Hflac. cbv beta iota delta [andb].
    repeat files_stay_step.
  - assert (Hall : emits (fun e => negb (is_removal e))
                     (download_track fuel E t pl kw)); [|apply Hall].
    unfold download_track, download_original_file, download_hls, get_track_m3u8,
      already_downloaded, in_download_archive, record_download_archive,
      tag_and_finish, set_metadata, try_utime.
    rewrite Hov, Hflac. cbv beta iota delta [andb].
    repeat emits_step.
Qed.

Lemma download_track_removes_nothing_witness :
  let w := Sample.world_with [py "notes.txt"] [] in
  let w1 := snd (download_track (R := Sample.runtime) 400
                   (Sample.outside (Some Sample.wav)) Sample.song None Sample.plain w) in
  files w ⊆ files w1 /\
  exists new, trace w1 = trace w ++ new /\
              forallb (fun e => negb (is_removal e)) new = true.
Proof.
  apply (download_track_removes_nothing (R := Sample.runtime) 400
           (Sample.outside (Some Sample.wav)) Sample.song None Sample.plain
           (Sample.world_with [py "notes.txt"] [])).
  - reflexivity.
  - reflexivity.
Defined.

(** ** A copy of the stream that leaves no file *)

Lemma is_listed_trace (E : env) (t : track) (kw : kwargs) (w w1 : world) :
  archive w1 = archive w -> is_listed E t kw w1 = is_listed E t kw w.
Proof. unfold is_listed. by intros ->. Qed.

(** [already_downloaded] answers no where the file is not there, [flac] is
    off and the archive does not name the track; the file is still not
    there afterwards. *)
Lemma already_downloaded_absent (E : env) (t : track) (title f : pystr)
    (kw : kwargs) (w : world) :
  (f ∉ files w) ->
  kw_flac kw = false ->
  is_listed E t kw w = false ->
  exists w1, already_downloaded E t title f kw w = (Ok false, w1) /\
             (f ∉ files w1) /\ archive w1 = archive w /\
             fileToKeep w1 = fileToKeep w.
Proof.
  intros Hf Hflac Hl.
  destruct (already_downloaded_run E t title f kw w) as (Hres & Hfiles & Harch & Hkeep).
  destruct (already_downloaded E t title f kw w) as [o w1]. simpl in *.
  exists w1. split_and!; [|..|done|done].
  - rewrite Hres. unfold verdict. rewrite Hflac, Hl.
    rewrite (bool_decide_eq_false_2 _ Hf). done.
  - rewrite Hfiles, Hflac. simpl. destruct (kw_overwrite kw); [|done].
    intros [? _]%elem_of_difference. done.
Qed.

(** X11. The track is written to the archive (line 558) before the file is
    looked for (line 566).  So when the stream is copied and [ffmpeg]
    leaves no file, the run ends with [sys.exit(-1)], there is no file, and
    yet the archive names the track from then on. *)
Theorem failed_copy_is_recorded {R : Runtime} (fuel : nat) (E : env) (t : track)
    (pl : option playlist_info) (kw : kwargs) (w : world) (f : pystr) :
  streamable t = true ->
  policy t <> py "BLOCK" ->
  wants_original t kw = false ->
  kw_only_original kw = false ->
  kw_flac kw = false ->
  get_filename fuel t None (prefers_aac t kw) pl kw = Ok f ->
  (f ∉ files w) ->
  archive_enabled kw = true ->
  archive_ioerror E = false ->
  line_terminated (archive w) ->
  archive_has (archive w) (track_id t) = false ->
  pick_transcoding t (prefers_aac t kw) <> None ->
  manifest_url E <> None ->
  remux_writes_file E = false ->
  let r := download_track fuel E t pl kw w in
  fst r = Exit (-1) /\
  (f ∉ files (snd r)) /\
  archive (snd r) = archive w ++ str_of_Z (track_id t) ++ [LF] /\
  is_listed E t kw (snd r) = true.
Proof.
  intros Hs Hp Hwants Honly Hflac Hget Hf Hen Hio Hterm Hhas Hpick Hman Hremux r.
  assert (Hl : forall w0, archive w0 = archive w -> is_listed E t kw w0 = false).
  { intros w0 Hw0. unfold is_listed. by rewrite Hw0, Hhas, andb_false_r. }
  assert (Hr : fst r = Exit (-1) /\ (f ∉ files (snd r)) /\
               archive (snd r) = archive w ++ str_of_Z (track_id t) ++ [LF]).
  { unfold r, download_track. rewrite Hwants, Honly, Hs.
    rewrite (bool_decide_eq_false_2 _ Hp).
    unfold download_hls, bind, mbind, M_bind, lift, log, emit, ret.
    rewrite utf8_ignore_eq, Hget. simpl.
    match goal with |- context [already_downloaded E t ?ti f kw ?w0] =>
      destruct (already_downloaded_absent E t ti f kw w0) as (w1 & -> & Hf1 & Ha1 & Hk1);
        [done|done|by apply Hl|]
    end.
    simpl in Ha1. unfold get_track_m3u8.
    destruct (pick_transcoding t (prefers_aac t kw)) as [u|]; [|done].
    destruct (manifest_url E) as [m|]; [|done].
    unfold record_download_archive, tag_and_finish.
    rewrite Hremux, Hen, Hio. simpl.
    unfold bind, mbind, M_bind, lift, log, emit, ret, isfile, sys_exit, keep_file,
      archive_append.
    destruct (remux_stderr E), (kw_remove kw); simpl;
      rewrite (bool_decide_eq_false_2 _ Hf1); simpl; by rewrite Ha1. }
  destruct Hr as (Hexit & Hfiles & Harch). split_and!; try done.
  unfold is_listed. rewrite Hen, Hio, Harch. simpl.
  rewrite archive_has_append by done. rewrite bool_decide_eq_true_2 by done.
  apply orb_true_r.
Qed.

Lemma failed_copy_is_recorded_witness :
  let E := {| original_download := None;
              manifest_url := Some (py "https://cf-hls/playlist.m3u8");
              remux_writes_file := false; remux_stderr := true;
              convert_writes_file := true; archive_ioerror := false;
              mutagen_raises := false; cover_art_found := true;
              utime_fails := false |} in
  let r := download_track (R := Sample.runtime) 400 E Sample.song None
             Cases.no_original_archive Sample.empty_world in
  fst r = Exit (-1) /\
  (py "Artist - Title.mp3" ∉ files (snd r)) /\
  archive (snd r) = archive Sample.empty_world ++ str_of_Z 42 ++ [LF] /\
  is_listed E Sample.song Cases.no_original_archive (snd r) = true.
Proof.
  intros E.
  apply (failed_copy_is_recorded (R := Sample.runtime) 400 E Sample.song None
           Cases.no_original_archive Sample.empty_world (py "Artist - Title.mp3")).
  - reflexivity.
  - intros H. by apply py_inj in H.
  - reflexivity.
  - reflexivity.
  - reflexivity.
  - vm_compute. reflexivity.
  - apply not_elem_of_empty.
  - reflexivity.
  - reflexivity.
  - by left.
  - reflexivity.
  - done.
  - done.
  - reflexivity.
Defined.

(** ** The choice of the transcoding *)

Lemma pick_transcoding_fold (aac : bool) (l : list transcoding) (init : option pystr) :
  fold_left
    (fun url tr =>
       if bool_decide (protocol tr = py "hls") then
         if (negb aac && bool_decide (mime_type tr = py "audio/mpeg"))
            || (aac && startswith (py "audio/mp4") (mime_type tr))
         then Some (transcoding_url tr) else url
       else url) l init
  = fold_left (fun url tr => if transcoding_fits aac tr
                             then Some (transcoding_url tr) else url) l init.
Proof.
  revert init. induction l as [|tr l IH]; intros init; [done|].
  simpl. rewrite IH. f_equal. unfold transcoding_fits.
  destruct (bool_decide (protocol tr = py "hls")); simpl; [|done].
  by destruct (negb aac && bool_decide (mime_type tr = py "audio/mpeg")
               || aac && startswith (py "audio/mp4") (mime_type tr)).
Qed.

Lemma pick_none_fits (aac : bool) (l : list transcoding) (init : option pystr) :
  forallb (fun tr => negb (transcoding_fits aac tr)) l = true ->
  fold_left (fun url tr => if transcoding_fits aac tr
                           then Some (transcoding_url tr) else url) l init = init.
Proof.
  revert init. induction l as [|tr l IH]; intros init Hl; [done|].
  simpl in *. apply andb_true_iff in Hl as [Htr Hl].
  apply negb_true_iff in Htr. rewrite Htr. by apply IH.
Qed.

Lemma pick_some_stays (aac : bool) (l : list transcoding) (u : pystr) :
  exists u', fold_left (fun url tr => if transcoding_fits aac tr
                                      then Some (transcoding_url tr) else url) l (Some u)
             = Some u'.
Proof.
  revert u. induction l as [|tr l IH]; intros u; [by eexists|].
  simpl. destruct (transcoding_fits aac tr); apply IH.
Qed.

(** X12. The loop of lines 475-480 keeps the url of the last transcoding
    that fits ([hls], and [audio/mpeg] or, with [aac], a type that starts
    with [audio/mp4]): a later one replaces an earlier one, and no url is
    found exactly when no transcoding fits. *)
Theorem pick_transcoding_last (t : track) (aac : bool) :
  (pick_transcoding t aac = None <->
   forallb (fun tr => negb (transcoding_fits aac tr)) (transcodings t) = true) /\
  (forall (l1 l2 : list transcoding) (tr : transcoding),
     transcodings t = l1 ++ tr :: l2 ->
     transcoding_fits aac tr = true ->
     forallb (fun x => negb (transcoding_fits aac x)) l2 = true ->
     pick_transcoding t aac = Some (transcoding_url tr)).
Proof.
  unfold pick_transcoding. rewrite pick_transcoding_fold. split.
  - split.
    + generalize (transcodings t). intros l.
      induction l as [|tr l IH]; [done|]. simpl.
      destruct (transcoding_fits aac tr) eqn:Htr; simpl; [|done].
      intros Hl. destruct (pick_some_stays aac l (transcoding_url tr)) as (u' & Hu').
      congruence.
    + apply pick_none_fits.
  - intros l1 l2 tr -> Htr Hl2.
    rewrite fold_left_app. simpl. rewrite Htr. by apply pick_none_fits.
Qed.

(** X13. The container is chosen from all transcodings (lines 496-499),
    the url from those over [hls] only (line 476).  When a transcoding
    has a type that starts with [audio/mp4] but none of those over [hls]
    has, [download_hls] names the file [.m4a], finds no url, and the call
    of [ffmpeg] with [None] for the url raises [TypeError]: nothing is
    asked for or copied, and no file is written. *)
Theorem download_hls_aac_without_hls {R : Runtime} (fuel : nat) (E : env) (t : track)
    (title : pystr) (pl : option playlist_info) (kw : kwargs) (w : world) (f : pystr) :
  kw_onlymp3 kw = false ->
  existsb (fun tr => startswith (py "audio/mp4") (mime_type tr)) (transcodings t) = true ->
  forallb (fun tr => negb (transcoding_fits true tr)) (transcodings t) = true ->
  get_filename fuel t None true pl kw = Ok f ->
  (f ∉ files w) ->
  kw_flac kw = false ->
  is_listed E t kw w = false ->
  let r := download_hls fuel E t title pl kw w in
  fst r = Raise TypeError /\
  (exists new, trace (snd r) = trace w ++ new /\
               forallb (fun e => negb (is_stream_attempt e)) new = true) /\
  (f ∉ files (snd r)).
Proof.
  intros Hmp3 Hany Hnone Hget Hf Hflac Hl r.
  assert (Haac : prefers_aac t kw = true) by (unfold prefers_aac; by rewrite Hmp3).
  assert (Hpick : pick_transcoding t true = None).
  { unfold pick_transcoding. rewrite pick_transcoding_fold. by apply pick_none_fits. }
  assert (Hquiet : emits (fun e => negb (is_stream_attempt e))
                     (already_downloaded E t title f kw)).
  { unfold already_downloaded, in_download_archive. repeat emits_step. }
  unfold r, download_hls. rewrite Haac, Hget.
  unfold bind, mbind, M_bind, lift, log, emit. simpl.
  match goal with |- context [already_downloaded E t title f kw ?w0] =>
    destruct (already_downloaded_absent E t title f kw w0) as (w1 & Hrun & Hf1 & _);
      [done|done|by rewrite (is_listed_trace E t kw w)|];
    destruct (Hquiet w0) as (new & Htrace & Hnew)
  end.
  rewrite Hrun in *. simpl in *.
  unfold get_track_m3u8. rewrite Hpick. simpl.
  split_and!; [done| |done].
  exists (EvLog Debug (MsgFilename f) :: new).
  rewrite Htrace, <- app_assoc. done.
Qed.

Lemma download_hls_aac_without_hls_witness :
  let r := download_hls (R := Sample.runtime) 400 (Sample.outside None)
             Cases.progressive_aac (py "Artist - Title") None Sample.plain
             Sample.empty_world in
  fst r = Raise TypeError /\
  (exists new, trace (snd r) = trace Sample.empty_world ++ new /\
               forallb (fun e => negb (is_stream_attempt e)) new = true) /\
  (py "Artist - Title.m4a" ∉ files (snd r)).
Proof.
  apply (download_hls_aac_without_hls (R := Sample.runtime) 400 (Sample.outside None)
           Cases.progressive_aac (py "Artist - Title") None Sample.plain
           Sample.empty_world (py "Artist - Title.m4a")).
  - reflexivity.
  - reflexivity.
  - reflexivity.
  - vm_compute. reflexivity.
  - apply not_elem_of_empty.
  - reflexivity.
  - reflexivity.
Defined.

(** ** The tags of artist and title *)

(** X14. The artist and the title of the tags are always found: a dash
    variant that occurs in the title cuts it in two parts at least, so
    that the indices 0 and 1 of lines 715-716 are there and no
    [IndexError] is raised.  Without [--extract-artist] they are the name
    of the uploader and the title as they are. *)
Theorem artist_and_title_total (t : track) (kw : kwargs) :
  (exists a b, artist_and_title t kw = Ok (a, b)) /\
  (kw_extract_artist kw = false ->
   artist_and_title t kw = Ok (username (track_user t), title t)).
Proof.
  split; [apply artist_and_title_returns|].
  intros Hoff. unfold artist_and_title. by rewrite Hoff.
Qed.

(** ** The original file: an incomplete body, a conversion *)

(** [download_original_file] from the check of line 435 on, when the
    response carries a name. *)
Lemma download_original_file_named {R : Runtime} (fuel : nat) (E : env) (t : track)
    (title : pystr) (pl : option playlist_info) (kw : kwargs) (w : world)
    (r : response) (d f : pystr) :
  original_download E = Some r ->
  status_code r <> 401 ->
  status_code r <> 404 ->
  disposition_filename r = Some d ->
  get_filename fuel t (Some (response_filename r d)) false pl kw = Ok f ->
  exists w0,
    files w0 = files w /\ archive w0 = archive w /\ fileToKeep w0 = fileToKeep w /\
    download_original_file fuel E t title pl kw w
    = (skip <- already_downloaded E t title f kw;
       if skip then
         ret (Some (if kw_flac kw && can_convert f then flac_name f else f), true)
       else
         total_length <- lift (or_raise HeaderError (content_length r));
         emit (EvBody (body_received r));;
         if negb (body_received r =? total_length) then
           log Error MsgIncomplete;; sys_exit (-1)
         else
           create_file f;;
           if kw_flac kw && can_convert f then
             log Info MsgConverting;;
             emit (EvConvert f (flac_name f));;
             (if convert_writes_file E then create_file (flac_name f) else ret tt);;
             os_remove f;;
             ret (Some (flac_name f), false)
           else ret (Some f, false)) w0.
Proof.
  intros Ho H401 H404 Hd Hget.
  unfold download_original_file. rewrite Ho.
  apply Z.eqb_neq in H401, H404.
  unfold response_filename in Hget.
  unfold bind, mbind, M_bind, lift, log, emit. simpl.
  rewrite H401, H404, Hd. simpl.
  destruct (splitext d) as [base ext]. simpl in Hget. rewrite Hget. simpl.
  eexists. split_and!; [| | |reflexivity]; done.
Qed.

(** X15. [--overwrite] deletes the file that is there before the new one is
    fetched (line 605).  So when the body of the original file then arrives
    incomplete, the run ends with [sys.exit(-1)] and the file is gone,
    whether it was there or not. *)
Theorem overwrite_deletes_before_download {R : Runtime} (fuel : nat) (E : env)
    (t : track) (title : pystr) (pl : option playlist_info) (kw : kwargs)
    (w : world) (r : response) (d f : pystr) (n : Z) :
  original_download E = Some r ->
  status_code r <> 401 ->
  status_code r <> 404 ->
  disposition_filename r = Some d ->
  get_filename fuel t (Some (response_filename r d)) false pl kw = Ok f ->
  kw_overwrite kw = true ->
  is_listed E t kw w = false ->
  content_length r = Some n ->
  body_received r <> n ->
  let res := download_original_file fuel E t title pl kw w in
  fst res = Exit (-1) /\ (f ∉ files (snd res)).
Proof.
  intros Ho H401 H404 Hd Hget Hov Hl Hn Hcut res.
  destruct (download_original_file_named fuel E t title pl kw w r d f)
    as (w0 & Hf0 & Ha0 & _ & Hrun); try done.
  unfold res. rewrite Hrun. clear Hrun res.
  destruct (already_downloaded_run E t title f kw w0) as (Hres & Hfiles & _).
  unfold bind, mbind, M_bind.
  destruct (already_downloaded E t title f kw w0) as [o w1]. simpl in *.
  assert (Hgone : f ∉ files w1).
  { rewrite Hfiles, Hov.
    destruct (kw_flac kw && can_convert f); rewrite !elem_of_difference, elem_of_singleton;
      tauto. }
  rewrite Hres. unfold verdict. rewrite Hov, (is_listed_trace E t kw w w0 Ha0), Hl.
  rewrite !andb_false_r. simpl.
  destruct (kw_flac kw && can_convert f && bool_decide (flac_name f ∈ files w0)); simpl.
  all: unfold lift, emit, log, sys_exit; rewrite Hn; simpl.
  all: apply Z.eqb_neq in Hcut; rewrite Hcut; simpl; done.
Qed.

Lemma overwrite_deletes_before_download_witness :
  let res := download_original_file (R := Sample.runtime) 400
               (Sample.outside (Some Cases.cut_short)) Sample.song
               (py "Artist - Title") None Cases.overwrite_only
               (Sample.world_with [py "Artist - Title.wav"] []) in
  (py "Artist - Title.wav" ∈ files (Sample.world_with [py "Artist - Title.wav"] [])) /\
  fst res = Exit (-1) /\ (py "Artist - Title.wav" ∉ files (snd res)).
Proof.
  split; [apply elem_of_list_to_set; by repeat constructor|].
  apply (overwrite_deletes_before_download (R := Sample.runtime) 400
           (Sample.outside (Some Cases.cut_short)) Sample.song
           (py "Artist - Title") None Cases.overwrite_only
           (Sample.world_with [py "Artist - Title.wav"] [])
           Cases.cut_short (py "song.wav") (py "Artist - Title.wav") 1000).
  - reflexivity.
  - done.
  - done.
  - reflexivity.
  - vm_compute. reflexivity.
  - reflexivity.
  - reflexivity.
  - reflexivity.
  - done.
Defined.

(** X16. With [--flac] and a convertible name, an original file that is
    fetched in full is handed to [ffmpeg] and then deleted (line 467)
    whatever [ffmpeg] did: the function returns the [.flac] name, the
    source is not in the directory, and the [.flac] file is there only if
    [ffmpeg] wrote it or a file of that name was there and was kept. *)
Theorem flac_conversion_removes_source {R : Runtime} (fuel : nat) (E : env)
    (t : track) (title : pystr) (pl : option playlist_info) (kw : kwargs)
    (w : world) (r : response) (d f : pystr) :
  original_download E = Some r ->
  status_code r <> 401 ->
  status_code r <> 404 ->
  disposition_filename r = Some d ->
  get_filename fuel t (Some (response_filename r d)) false pl kw = Ok f ->
  kw_flac kw = true ->
  can_convert f = true ->
  verdict kw true (bool_decide (f ∈ files w)) (bool_decide (flac_name f ∈ files w))
    (is_listed E t kw w) = false ->
  content_length r = Some (body_received r) ->
  let res := download_original_file fuel E t title pl kw w in
  fst res = Ok (Some (flac_name f), false) /\
  (f ∉ files (snd res)) /\
  (flac_name f ∈ files (snd res) <->
   convert_writes_file E = true \/
   (flac_name f ∈ files w /\ kw_overwrite kw = false)).
Proof.
  intros Ho H401 H404 Hd Hget Hflac Hconv Hverdict Hn res.
  destruct (download_original_file_named fuel E t title pl kw w r d f)
    as (w0 & Hf0 & Ha0 & _ & Hrun); try done.
  unfold res. rewrite Hrun. clear Hrun res.
  destruct (already_downloaded_run E t title f kw w0) as (Hres & Hfiles & _).
  unfold bind, mbind, M_bind.
  destruct (already_downloaded E t title f kw w0) as [o w1]. simpl in *.
  rewrite Hf0, (is_listed_trace E t kw w w0 Ha0), Hconv, Hverdict in Hres.
  rewrite Hflac, Hconv, Hf0 in Hfiles. simpl in Hfiles.
  rewrite Hres, Hflac, Hconv. simpl.
  unfold lift, emit, log, create_file, os_remove, ret. rewrite Hn. simpl.
  rewrite Z.eqb_refl. simpl.
  pose proof (flac_name_neq f) as Hne.
  destruct (convert_writes_file E); simpl; (split_and!; [done| |]);
    rewrite Hfiles; destruct (kw_overwrite kw);
    rewrite ?elem_of_difference, ?elem_of_union, ?elem_of_difference,
      ?elem_of_singleton; intuition congruence.
Qed.

Lemma flac_conversion_removes_source_witness :
  let res := download_original_file (R := Sample.runtime) 400
               (Cases.no_conversion (Some Sample.wav)) Sample.song
               (py "Artist - Title") None Sample.flac_only Sample.empty_world in
  fst res = Ok (Some (py "Artist - Title.flac"), false) /\
  (py "Artist - Title.wav" ∉ files (snd res)) /\
  (py "Artist - Title.flac" ∈ files (snd res) <->
   false = true \/
   (py "Artist - Title.flac" ∈ files Sample.empty_world /\ false = false)).
Proof.
  apply (flac_conversion_removes_source (R := Sample.runtime) 400
           (Cases.no_conversion (Some Sample.wav)) Sample.song
           (py "Artist - Title") None Sample.flac_only Sample.empty_world
           Sample.wav (py "song.wav") (py "Artist - Title.wav")).
  - reflexivity.
  - done.
  - done.
  - reflexivity.
  - vm_compute. reflexivity.
  - reflexivity.
  - reflexivity.
  - reflexivity.
  - reflexivity.
Defined.

(** ** A file that is already there *)

(** X17. With [-c], without [--overwrite], [--flac] and
    [--force-metadata], a track whose stream file is in the directory is
    not fetched again: the run returns normally after the message that the
    track is already downloaded, the directory is as it was, no manifest is
    asked for, nothing is copied and no tag is written. *)
Theorem present_file_not_fetched {R : Runtime} (fuel : nat) (E : env) (t : track)
    (pl : option playlist_info) (kw : kwargs) (w : world) (f : pystr) :
  streamable t = true ->
  policy t <> py "BLOCK" ->
  wants_original t kw = false ->
  kw_only_original kw = false ->
  get_filename fuel t None (prefers_aac t kw) pl kw = Ok f ->
  f ∈ files w ->
  kw_c kw = true ->
  kw_overwrite kw = false ->
  kw_flac kw = false ->
  kw_force_metadata kw = false ->
  let r := download_track fuel E t pl kw w in
  fst r = Ok tt /\
  files (snd r) = files w /\
  exists title0 new,
    utf8_ignore (title t) = Ok title0 /\
    trace (snd r) = trace w ++ new ++ [EvLog Info (MsgAlreadyDownloaded title0)] /\
    forallb (fun e => negb (is_stream_attempt e) && negb (is_download e)
                      && match e with EvTags _ _ => false | _ => true end) new = true.
Proof.
  intros Hs Hp Hwants Honly Hget Hf Hc Hov Hflac Hforce r.
  set (p := fun e => negb (is_stream_attempt e) && negb (is_download e)
                     && match e with EvTags _ _ => false | _ => true end).
  assert (Hquiet : forall ti, emits p (already_downloaded E t ti f kw)).
  { intros ti. unfold already_downloaded, in_download_archive. repeat emits_step. }
  unfold r, download_track. rewrite Hwants, Honly, Hs, Hforce.
  rewrite (bool_decide_eq_false_2 _ Hp).
  unfold download_hls, bind, mbind, M_bind, lift, log, emit, ret.
  rewrite utf8_ignore_eq, Hget. simpl.
  match goal with |- context [already_downloaded E t ?ti f kw ?w0] =>
    destruct (already_downloaded_run E t ti f kw w0) as (Hres & Hfiles & Harch & Hkeep);
    destruct (Hquiet ti w0) as (new & Htrace & Hnew);
    destruct (already_downloaded E t ti f kw w0) as [o w1]
  end.
  simpl in *. rewrite Hov in Hfiles.
  rewrite Hres. unfold verdict. rewrite Hov, Hflac, Hc.
  rewrite (bool_decide_eq_true_2 _ Hf). simpl.
  assert (Hverdict : (if is_listed E t kw
                           {| files := files w; archive := archive w;
                              fileToKeep := fileToKeep w;
                              trace := (trace w ++ [EvLog Info (MsgDownloading
                                          (List.filter encodable (title t)))])
                                       ++ [EvLog Debug (MsgFilename f)] |}
                      then true else true) = true) by (by destruct (is_listed _ _ _ _)).
  rewrite Hverdict. simpl.
  unfold record_download_archive, keep_file, archive_append.
  destruct (kw_remove kw), (archive_enabled kw), (archive_ioerror E); simpl;
    (split_and!; [done|done|]); eexists; rewrite Htrace, <- !app_assoc; simpl.
  all: match goal with
       | |- context [ ?a :: ?b :: ?n ++ [?x; ?y; ?z] ] => exists (a :: b :: n ++ [x; y])
       | |- context [ ?a :: ?b :: ?n ++ [?x; ?z] ] => exists (a :: b :: n ++ [x])
       | |- context [ ?a :: ?b :: ?n ++ [?z] ] => exists (a :: b :: n)
       end.
  all: split_and!; [reflexivity|simpl; by rewrite <- ?app_assoc|].
  all: simpl; by rewrite ?forallb_app, Hnew.
Qed.

Lemma present_file_not_fetched_witness :
  let w := Sample.world_with [py "Artist - Title.mp3"] [] in
  let r := download_track (R := Sample.runtime) 400 (Sample.outside None)
             Sample.song None Cases.continue_no_original w in
  fst r = Ok tt /\
  files (snd r) = files w /\
  exists title0 new,
    utf8_ignore (title Sample.song) = Ok title0 /\
    trace (snd r) = trace w ++ new ++ [EvLog Info (MsgAlreadyDownloaded title0)] /\
    forallb (fun e => negb (is_stream_attempt e) && negb (is_download e)
                      && match e with EvTags _ _ => false | _ => true end) new = true.
Proof.
  apply (present_file_not_fetched (R := Sample.runtime) 400 (Sample.outside None)
           Sample.song None Cases.continue_no_original
           (Sample.world_with [py "Artist - Title.mp3"] [])
           (py "Artist - Title.mp3")).
  - reflexivity.
  - intros H. by apply py_inj in H.
  - reflexivity.
  - reflexivity.
  - vm_compute. reflexivity.
  - apply elem_of_list_to_set. by repeat constructor.
  - reflexivity.
  - reflexivity.
  - reflexivity.
  - reflexivity.
Defined.

(** ** [--force-metadata] on a track that was found *)

Lemma grown_by_trans (p : event -> bool) (w w1 w2 : world) :
  grown_by p w w1 -> grown_by p w1 w2 -> grown_by p w w2.
Proof.
  intros (new1 & Ht1 & Hp1) (new2 & Ht2 & Hp2). exists (new1 ++ new2).
  split; [by rewrite Ht2, Ht1, app_assoc|]. by rewrite forallb_app, Hp1, Hp2.
Qed.

(** The stream path of [download_track] for a track that
    [already_downloaded] finds: up to line 555 nothing is asked of the
    site. *)
Lemma stream_path_found {R : Runtime} (fuel : nat) (E : env) (t : track)
    (pl : option playlist_info) (kw : kwargs) (w : world) (f : pystr) :
  streamable t = true ->
  policy t <> py "BLOCK" ->
  wants_original t kw = false ->
  kw_only_original kw = false ->
  get_filename fuel t None (prefers_aac t kw) pl kw = Ok f ->
  verdict kw (can_convert f) (bool_decide (f ∈ files w))
    (bool_decide (flac_name f ∈ files w)) (is_listed E t kw w) = true ->
  kw_c kw || kw_remove kw || kw_force_metadata kw = true ->
  exists w1,
    grown_by (fun e => negb (is_stream_attempt e) && negb (is_download e)
                       && match e with EvTags _ _ => false | _ => true end) w w1 /\
    (kw_overwrite kw = false -> files w1 = files w) /\
    (forall g, g ∈ files w1 -> g ∈ files w) /\
    archive w1 = archive w /\
    download_track fuel E t pl kw w
    = ((if kw_remove kw then keep_file f else ret tt);;
       record_download_archive E t kw;;
       if negb (kw_force_metadata kw)
       then log Info (MsgAlreadyDownloaded (List.filter encodable (title t)))
       else tag_and_finish E t f pl kw) w1.
Proof.
  intros Hs Hp Hwants Honly Hget Hverdict Hc.
  set (p := fun e => negb (is_stream_attempt e) && negb (is_download e)
                     && match e with EvTags _ _ => false | _ => true end).
  assert (Hquiet : forall ti, emits p (already_downloaded E t ti f kw)).
  { intros ti. unfold already_downloaded, in_download_archive. repeat emits_step. }
  unfold download_track. rewrite Hwants, Honly, Hs.
  rewrite (bool_decide_eq_false_2 _ Hp).
  unfold download_hls, bind, mbind, M_bind, lift, log, emit, ret.
  rewrite utf8_ignore_eq, Hget. simpl.
  match goal with |- context [already_downloaded E t ?ti f kw ?w0] =>
    destruct (already_downloaded_run E t ti f kw w0) as (Hres & Hfiles & Harch & Hkeep);
    destruct (Hquiet ti w0) as (new & Htrace & Hnew);
    destruct (already_downloaded E t ti f kw w0) as [o w1]
  end.
  simpl in *.
  rewrite (is_listed_trace E t kw w) in Hres by done.
  rewrite Hverdict, Hc in Hres. subst o. simpl.
  exists w1. split_and!; [| | |done|done].
  - eexists. split; [by rewrite Htrace, <- !app_assoc|]. simpl. done.
  - intros Hov. by rewrite Hfiles, Hov.
  - intros g. rewrite Hfiles.
    destruct (kw_overwrite kw); [|done].
    destruct (kw_flac kw && can_convert f); rewrite !elem_of_difference; tauto.
Qed.

(** X18. [--force-metadata] on a track whose stream file is in the
    directory writes the tags anew without fetching anything: with a
    tagged extension, without [--overwrite] and [--flac], and when
    [mutagen] does not fail, the run returns normally, the directory is as
    it was, tags are saved to the file, with the artist and the title that
    lines 710-717 find, and neither manifest nor stream is asked for. *)
Theorem force_metadata_retags {R : Runtime} (fuel : nat) (E : env) (t : track)
    (pl : option playlist_info) (kw : kwargs) (w : world) (f : pystr) :
  streamable t = true ->
  policy t <> py "BLOCK" ->
  wants_original t kw = false ->
  kw_only_original kw = false ->
  get_filename fuel t None (prefers_aac t kw) pl kw = Ok f ->
  f ∈ files w ->
  kw_overwrite kw = false ->
  kw_flac kw = false ->
  kw_force_metadata kw = true ->
  tagged_extension f = true ->
  mutagen_raises E = false ->
  let r := download_track fuel E t pl kw w in
  fst r = Ok tt /\
  files (snd r) = files w /\
  (exists a b tags,
     artist_and_title t kw = Ok (a, b) /\
     EvTags f tags ∈ trace (snd r) /\
     tags !! "artist"%string = Some a /\
     tags !! "title"%string = Some b) /\
  grown_by (fun e => negb (is_stream_attempt e) && negb (is_download e)) w (snd r).
Proof.
  intros Hs Hp Hwants Honly Hget Hf Hov Hflac Hforce Htag Hmut r.
  destruct (stream_path_found fuel E t pl kw w f)
    as (w1 & Hgrown & Hfiles & _ & _ & Hrun); try done.
  { unfold verdict. rewrite Hov, Hflac, (bool_decide_eq_true_2 _ Hf). simpl.
    by destruct (is_listed E t kw w). }
  { rewrite Hforce. by rewrite !orb_true_r. }
  specialize (Hfiles Hov).
  destruct (artist_and_title_returns t kw) as (a & b & Hab).
  assert (Hgrown' : grown_by (fun e => negb (is_stream_attempt e) && negb (is_download e))
                      w w1).
  { destruct Hgrown as (new & Htrace & Hnew). exists new. split; [done|].
    rewrite forallb_forall in *. intros e He. specialize (Hnew e He).
    by apply andb_true_iff in Hnew as [-> _]. }
  unfold r. rewrite Hrun, Hforce. clear Hrun r. simpl negb. cbv iota.
  unfold record_download_archive, tag_and_finish, set_metadata, try_except, try_utime.
  rewrite Htag, Hmut. run_M. unfold keep_file, archive_append.
  rewrite Hab. simpl.
  destruct (kw_remove kw), (archive_enabled kw), (archive_ioerror E),
    (cover_art_found E), (utime_fails E); simpl;
    rewrite ?Hfiles, (bool_decide_eq_true_2 _ Hf); simpl.
  all: split_and!; [done|done| |].
  all: try (exists a, b, (easy_tags t a b pl kw);
            split; [done|]; split; [|apply easy_tags_artist_title];
            rewrite !elem_of_app, ?elem_of_cons; set_unfold; tauto).
  all: eapply grown_by_trans; [exact Hgrown'|];
       eexists; (split; [simpl; by rewrite <- ?app_assoc|]); done.
Qed.

Lemma force_metadata_retags_witness :
  let w := Sample.world_with [py "Artist - Title.mp3"] [] in
  let r := download_track (R := Sample.runtime) 400 (Sample.outside None)
             Sample.song None Cases.force_metadata_no_original w in
  fst r = Ok tt /\
  files (snd r) = files w /\
  (exists a b tags,
     artist_and_title Sample.song Cases.force_metadata_no_original = Ok (a, b) /\
     EvTags (py "Artist - Title.mp3") tags ∈ trace (snd r) /\
     tags !! "artist"%string = Some a /\
     tags !! "title"%string = Some b) /\
  grown_by (fun e => negb (is_stream_attempt e) && negb (is_download e)) w (snd r).
Proof.
  apply (force_metadata_retags (R := Sample.runtime) 400 (Sample.outside None)
           Sample.song None Cases.force_metadata_no_original
           (Sample.world_with [py "Artist - Title.mp3"] [])
           (py "Artist - Title.mp3")).
  - reflexivity.
  - intros H. by apply py_inj in H.
  - reflexivity.
  - reflexivity.
  - vm_compute. reflexivity.
  - apply elem_of_list_to_set. by repeat constructor.
  - reflexivity.
  - reflexivity.
  - reflexivity.
  - reflexivity.
  - reflexivity.
Defined.

(** X19. [--force-metadata] on a track that the archive names but whose
    file is not in the directory ends the run: the track counts as
    downloaded, nothing is fetched, the file is looked for at line 566, and
    the run leaves by [sys.exit(-1)] after the message that an error
    occurred downloading it. *)
Theorem force_metadata_needs_the_file {R : Runtime} (fuel : nat) (E : env)
    (t : track) (pl : option playlist_info) (kw : kwargs) (w : world) (f : pystr) :
  streamable t = true ->
  policy t <> py "BLOCK" ->
  wants_original t kw = false ->
  kw_only_original kw = false ->
  get_filename fuel t None (prefers_aac t kw) pl kw = Ok f ->
  is_listed E t kw w = true ->
  (f ∉ files w) ->
  kw_flac kw = false ->
  kw_force_metadata kw = true ->
  let r := download_track fuel E t pl kw w in
  fst r = Exit (-1) /\
  (f ∉ files (snd r)) /\
  exists new,
    trace (snd r)
    = trace w ++ new ++ [EvLog Error (MsgErrorDownloading f); EvLog Error MsgExiting] /\
    forallb (fun e => negb (is_stream_attempt e) && negb (is_download e)
                      && match e with EvTags _ _ => false | _ => true end) new = true.
Proof.
  intros Hs Hp Hwants Honly Hget Hl Hf Hflac Hforce r.
  destruct (stream_path_found fuel E t pl kw w f)
    as (w1 & (new & Htrace & Hnew) & _ & Hsub & _ & Hrun); try done.
  { unfold verdict. by rewrite Hl, Hflac. }
  { rewrite Hforce. by rewrite !orb_true_r. }
  assert (Hf1 : f ∉ files w1) by (intros Hin; by apply Hf, Hsub).
  unfold r. rewrite Hrun, Hforce. clear Hrun r. simpl negb. cbv iota.
  unfold record_download_archive, tag_and_finish.
  unfold is_listed in Hl. apply andb_true_iff in Hl as [[Hen Hio%negb_true_iff]%andb_true_iff _].
  rewrite Hen, Hio. run_M. unfold keep_file, archive_append.
  destruct (kw_remove kw); simpl; rewrite (bool_decide_eq_false_2 _ Hf1); simpl;
    (split_and!; [done|done|]);
    exists (new ++ [EvArchiveWrite (str_of_Z (track_id t) ++ [LF])]);
    (split; [by rewrite Htrace, <- !app_assoc|]);
    by rewrite forallb_app, Hnew.
Qed.

Lemma force_metadata_needs_the_file_witness :
  let w := Sample.world_with [] (py "42" ++ [LF]) in
  let r := download_track (R := Sample.runtime) 400 (Sample.outside None)
             Sample.song None Cases.force_metadata_archive w in
  fst r = Exit (-1) /\
  (py "Artist - Title.mp3" ∉ files (snd r)) /\
  exists new,
    trace (snd r)
    = trace w ++ new ++ [EvLog Error (MsgErrorDownloading (py "Artist - Title.mp3"));
                         EvLog Error MsgExiting] /\
    forallb (fun e => negb (is_stream_attempt e) && negb (is_download e)
                      && match e with EvTags _ _ => false | _ => true end) new = true.
Proof.
  apply (force_metadata_needs_the_file (R := Sample.runtime) 400 (Sample.outside None)
           Sample.song None Cases.force_metadata_archive
           (Sample.world_with [] (py "42" ++ [LF])) (py "Artist - Title.mp3")).
  - reflexivity.
  - intros H. by apply py_inj in H.
  - reflexivity.
  - reflexivity.
  - vm_compute. reflexivity.
  - reflexivity.
  - apply not_elem_of_empty.
  - reflexivity.
  - reflexivity.
Defined.

(** ** What [already_downloaded] leaves alone *)

(** X20. [already_downloaded] only looks and, with [--overwrite], deletes:
    it never writes to the archive or to the list of files to keep, no
    file appears, without [--overwrite] the directory is as it was, it
    leaves by [sys.exit] with the code -1 only, and with [-c], [--remove]
    or [--force-metadata] it always returns an answer. *)
Theorem already_downloaded_frame (E : env) (t : track) (title f : pystr)
    (kw : kwargs) (w : world) :
  let r := already_downloaded E t title f kw w in
  archive (snd r) = archive w /\
  fileToKeep (snd r) = fileToKeep w /\
  files (snd r) ⊆ files w /\
  (kw_overwrite kw = false -> files (snd r) = files w) /\
  (forall c, fst r = Exit c -> c = -1) /\
  (kw_c kw || kw_remove kw || kw_force_metadata kw = true ->
   exists found : bool, fst r = Ok found).
Proof.
  intros r.
  destruct (already_downloaded_run E t title f kw w) as (Hres & Hfiles & Harch & Hkeep).
  fold r in Hres, Hfiles, Harch, Hkeep.
  split_and!; [done|done| | | |].
  - rewrite Hfiles. destruct (kw_overwrite kw); [|done].
    destruct (kw_flac kw && can_convert f); intros g; rewrite !elem_of_difference; tauto.
  - intros Hov. by rewrite Hfiles, Hov.
  - intros c. rewrite Hres.
    destruct (verdict _ _ _ _ _); [|done].
    destruct (kw_c kw || kw_remove kw || kw_force_metadata kw); [done|].
    by intros [= <-].
  - intros Hc. rewrite Hres, Hc. destruct (verdict _ _ _ _ _); by eexists.
Qed.

(** ** Decimal numerals *)

(** The characters of the digits of [d]. *)
Lemma to_string_py (s : string) :
  string_of_list_ascii (map ascii_of_N (py s)) = s.
Proof.
  unfold py. rewrite map_map.
  rewrite (map_ext _ id) by (intros a; apply ascii_N_embedding).
  rewrite map_id. apply string_of_list_ascii_of_string.
Qed.

Lemma py_String (a : ascii) (s : string) : py (String a s) = N_of_ascii a :: py s.
Proof. done. Qed.

Lemma py_digits_length (d : Decimal.uint) :
  length (py (NilEmpty.string_of_uint d)) = Decimal.nb_digits d.
Proof.
  induction d as [|d IH|d IH|d IH|d IH|d IH|d IH|d IH|d IH|d IH|d IH]; [done|..];
    simpl NilEmpty.string_of_uint; rewrite py_String; simpl; by rewrite IH.
Qed.

Lemma py_digits_zeros (k : nat) (d : Decimal.uint) :
  replicate k 48%N ++ py (NilEmpty.string_of_uint d)
  = py (NilEmpty.string_of_uint (Nat.iter k Decimal.D0 d)).
Proof. induction k as [|k IH]; [done|]. simpl. by rewrite IH. Qed.

Lemma iter_D0_nonnil (k : nat) (d : Decimal.uint) :
  d <> Decimal.Nil -> Nat.iter k Decimal.D0 d <> Decimal.Nil.
Proof. destruct k; simpl; done. Qed.

Lemma of_int_iter_D0_pos (k : nat) (d : Decimal.uint) :
  Z.of_int (Decimal.Pos (Nat.iter k Decimal.D0 d)) = Z.of_int (Decimal.Pos d).
Proof. induction k as [|k IH]; [done|]. simpl in *. exact IH. Qed.

Lemma of_int_iter_D0_neg (k : nat) (d : Decimal.uint) :
  Z.of_int (Decimal.Neg (Nat.iter k Decimal.D0 d)) = Z.of_int (Decimal.Neg d).
Proof. induction k as [|k IH]; [done|]. simpl in *. exact IH. Qed.

Lemma py_digits_ascii (d : Decimal.uint) :
  forallb (fun c => (c <? 128)%N) (py (NilEmpty.string_of_uint d)) = true.
Proof.
  induction d as [|d IH|d IH|d IH|d IH|d IH|d IH|d IH|d IH|d IH|d IH]; [done|..];
    simpl NilEmpty.string_of_uint; rewrite py_String; simpl; exact IH.
Qed.

Lemma read_int_digits (d : Decimal.uint) :
  d <> Decimal.Nil ->
  read_int (py (NilEmpty.string_of_uint d)) = Some (Z.of_int (Decimal.Pos d)).
Proof.
  intros Hd. unfold read_int. rewrite py_digits_ascii, to_string_py.
  change (NilEmpty.string_of_uint d) with (NilEmpty.string_of_int (Decimal.Pos d)).
  replace (NilEmpty.string_of_int (Decimal.Pos d))
    with (NilZero.string_of_int (Decimal.Pos d)) by (by destruct d).
  rewrite NilZero.isi; [done|congruence|done].
Qed.

Lemma read_int_minus_digits (d : Decimal.uint) :
  d <> Decimal.Nil ->
  read_int (45%N :: py (NilEmpty.string_of_uint d)) = Some (Z.of_int (Decimal.Neg d)).
Proof.
  intros Hd. unfold read_int.
  replace (forallb (fun c => (c <? 128)%N) (45%N :: py (NilEmpty.string_of_uint d)))
    with true by (simpl; by rewrite py_digits_ascii).
  change (45%N :: py (NilEmpty.string_of_uint d))
    with (py (String "-" (NilEmpty.string_of_uint d))).
  rewrite to_string_py.
  replace (String "-" (NilEmpty.string_of_uint d))
    with (NilZero.string_of_int (Decimal.Neg d)) by (by destruct d).
  rewrite NilZero.isi; [done|done|congruence].
Qed.

(** [str] of an [int], by its sign. *)
Lemma str_of_Z_cases (n : Z) :
  exists d, d <> Decimal.Nil /\
    ((0 <= n /\ str_of_Z n = py (NilEmpty.string_of_uint d) /\
      Z.of_int (Decimal.Pos d) = n) \/
     (n < 0 /\ str_of_Z n = 45%N :: py (NilEmpty.string_of_uint d) /\
      Z.of_int (Decimal.Neg d) = n)).
Proof.
  unfold str_of_Z. destruct n as [|p|p].
  - exists (Decimal.D0 Decimal.Nil). split; [done|]. left. done.
  - exists (Pos.to_uint p). split; [apply DecimalPos.Unsigned.to_uint_nonnil|]. left.
    split_and!; [lia| |apply (DecimalZ.of_to (Z.pos p))].
    simpl. pose proof (DecimalPos.Unsigned.to_uint_nonnil p).
    by destruct (Pos.to_uint p).
  - exists (Pos.to_uint p). split; [apply DecimalPos.Unsigned.to_uint_nonnil|]. right.
    split_and!; [lia| |apply (DecimalZ.of_to (Z.neg p))].
    simpl. pose proof (DecimalPos.Unsigned.to_uint_nonnil p).
    by destruct (Pos.to_uint p).
Qed.

Lemma py_digits_head (d : Decimal.uint) :
  d <> Decimal.Nil ->
  exists c r, py (NilEmpty.string_of_uint d) = c :: r /\
              ((c =? 43) || (c =? 45))%N = false.
Proof. intros Hd. destruct d; [done|..]; by eexists _, _. Qed.

(** [zfill] of a numeral denotes the same number. *)
Lemma read_int_zfill (width : nat) (n : Z) :
  read_int (zfill width (str_of_Z n)) = Some n.
Proof.
  destruct (str_of_Z_cases n) as (d & Hd & [(_ & -> & Hn)|(_ & -> & Hn)]).
  - destruct (py_digits_head d Hd) as (c & r & Hcr & Hc).
    unfold zfill. rewrite Hcr, Hc, <- Hcr.
    rewrite py_digits_zeros, read_int_digits by (by apply iter_D0_nonnil).
    by rewrite of_int_iter_D0_pos, Hn.
  - unfold zfill. change ((45 =? 43) || (45 =? 45))%N with true. cbv iota.
    rewrite py_digits_zeros, read_int_minus_digits by (by apply iter_D0_nonnil).
    by rewrite of_int_iter_D0_neg, Hn.
Qed.

Lemma zfill_length (width : nat) (s : pystr) :
  length (zfill width s) = Nat.max width (length s).
Proof.
  unfold zfill. destruct s as [|c r]; simpl.
  - rewrite length_replicate. lia.
  - destruct ((c =? 43) || (c =? 45))%N; simpl;
      rewrite length_app, length_replicate; simpl; lia.
Qed.

(** ** The number of digits of a numeral *)

Lemma usize_nb_digits (d : Decimal.uint) :
  DecimalPos.Unsigned.usize d = N.of_nat (Decimal.nb_digits d).
Proof.
  induction d as [|d IH|d IH|d IH|d IH|d IH|d IH|d IH|d IH|d IH|d IH]; [done|..];
    simpl DecimalPos.Unsigned.usize; simpl Decimal.nb_digits; rewrite IH; lia.
Qed.

(** The value of digits behind a first digit that is not zero. *)
Lemma of_uint_acc_value (d : Decimal.uint) (acc : positive) :
  N.pos (Pos.of_uint_acc d acc)
  = (Pos.of_uint d + N.pos acc * 10 ^ DecimalPos.Unsigned.usize d)%N.
Proof.
  rewrite DecimalPos.Unsigned.of_uint_acc_rev.
  by rewrite DecimalPos.Unsigned.of_uint_alt.
Qed.

Lemma of_uint_lt (d : Decimal.uint) :
  (Pos.of_uint d < 10 ^ DecimalPos.Unsigned.usize d)%N.
Proof.
  induction d as [|d IH|d IH|d IH|d IH|d IH|d IH|d IH|d IH|d IH|d IH];
    simpl DecimalPos.Unsigned.usize; rewrite ?N.pow_succ_r'; [done|..];
    simpl Pos.of_uint; rewrite ?of_uint_acc_value; lia.
Qed.

Lemma to_uint_head (p : positive) :
  forall d, Pos.to_uint p <> Decimal.D0 d.
Proof.
  intros d Hp.
  pose proof (DecimalPos.Unsigned.to_of (Pos.to_uint p)) as Hnorm.
  rewrite DecimalPos.Unsigned.of_to in Hnorm. simpl in Hnorm.
  rewrite Hp in Hnorm.
  change (Decimal.unorm (Decimal.D0 d)) with (Decimal.unorm d) in Hnorm.
  assert (Hcase : d = Decimal.Nil \/ d <> Decimal.Nil) by (destruct d; by eauto).
  destruct Hcase as [->|Hnil].
  { by apply (DecimalPos.Unsigned.to_uint_nonzero p). }
  pose proof (DecimalFacts.nb_digits_unorm d Hnil) as Hle.
  rewrite <- Hnorm in Hle. simpl in Hle. lia.
Qed.

(** A positive number of [k] digits lies from [10^(k-1)] up to, but not
    at, [10^k]. *)
Lemma digits_bounds (p : positive) :
  let k := N.of_nat (Decimal.nb_digits (Pos.to_uint p)) in
  (10 ^ (k - 1) <= N.pos p < 10 ^ k)%N.
Proof.
  intros k. unfold k. clear k.
  pose proof (DecimalPos.Unsigned.of_to p) as Hp.
  pose proof (to_uint_head p) as Hhead.
  pose proof (of_uint_lt (Pos.to_uint p)) as Hlt.
  rewrite Hp, usize_nb_digits in Hlt. split; [|done].
  destruct (Pos.to_uint p) as [|d|d|d|d|d|d|d|d|d|d] eqn:Hd;
    [by apply DecimalPos.Unsigned.to_uint_nonnil in Hd|by destruct (Hhead d)|..].
  all: simpl Decimal.nb_digits.
  all: replace (N.of_nat (S (Decimal.nb_digits d)) - 1)%N
         with (DecimalPos.Unsigned.usize d) by (rewrite usize_nb_digits; lia).
  all: rewrite <- Hp; simpl Pos.of_uint; rewrite of_uint_acc_value; lia.
Qed.

Lemma nb_digits_mono (p q : positive) :
  (p <= q)%positive ->
  (Decimal.nb_digits (Pos.to_uint p) <= Decimal.nb_digits (Pos.to_uint q))%nat.
Proof.
  intros Hpq.
  destruct (digits_bounds p) as [Hlow _]. destruct (digits_bounds q) as [_ Hup].
  set (a := Decimal.nb_digits (Pos.to_uint p)) in *.
  set (b := Decimal.nb_digits (Pos.to_uint q)) in *.
  destruct (Nat.le_gt_cases a b) as [|Hgt]; [done|exfalso].
  assert (Hpow : (10 ^ N.of_nat b <= 10 ^ (N.of_nat a - 1))%N).
  { apply N.pow_le_mono_r; lia. }
  lia.
Qed.

Lemma str_of_Z_pos_length (p : positive) :
  length (str_of_Z (Z.pos p)) = Decimal.nb_digits (Pos.to_uint p).
Proof.
  unfold str_of_Z. simpl.
  pose proof (DecimalPos.Unsigned.to_uint_nonnil p) as Hp.
  rewrite <- py_digits_length. by destruct (Pos.to_uint p).
Qed.

(** A number from 1 to [n] has no more digits than [n]. *)
Lemma str_of_Z_length_mono (a b : Z) :
  1 <= a <= b -> (length (str_of_Z a) <= length (str_of_Z b))%nat.
Proof.
  intros [Ha Hab]. destruct a as [|p|p]; [lia| |lia]. destruct b as [|q|q]; [lia| |lia].
  rewrite !str_of_Z_pos_length. apply nb_digits_mono. lia.
Qed.

(** ** The tracks of a playlist and their numbers *)

(** An entry of [numbered]. *)
Lemma numbered_lookup (p : playlist) (offset : Z) (tracks : list track)
    (j : nat) (counter : Z) (t : track) (info : playlist_info) :
  numbered p offset tracks !! j = Some (counter, t, info) ->
  tracks !! j = Some t /\ counter = offset + Z.of_nat j.
Proof.
  unfold numbered. rewrite list_lookup_imap. intros Hj.
  destruct (tracks !! j) as [t'|] eqn:Ht; [|done]. simpl in Hj.
  by injection Hj as <- <- <-.
Qed.

(** X21. The track number that [download_playlist] hands to
    [download_track] is the counter of [enumerate], which starts at the
    offset, written in decimal and filled with zeros to the number of
    digits of the count of tracks: it denotes the counter, it is as wide as
    that count or as the counter when the counter has more digits, and
    with the offset 1 all numbers of a playlist have one width. *)
Theorem tracknumber_reads_back (p : playlist) (offset : Z) (tracks : list track)
    (j : nat) (counter : Z) (t : track) (info : playlist_info) :
  numbered p offset tracks !! j = Some (counter, t, info) ->
  tracks !! j = Some t /\
  counter = offset + Z.of_nat j /\
  read_int (pl_tracknumber info) = Some counter /\
  length (pl_tracknumber info)
  = Nat.max (length (str_of_Z (Z.of_nat (length tracks)))) (length (str_of_Z counter)) /\
  (offset = 1 ->
   length (pl_tracknumber info) = length (str_of_Z (Z.of_nat (length tracks)))).
Proof.
  unfold numbered. rewrite list_lookup_imap. intros Hj.
  destruct (tracks !! j) as [t'|] eqn:Ht; [|done]. simpl in Hj.
  injection Hj as <- <- <-. simpl.
  split_and!; [done|done|apply read_int_zfill|apply zfill_length|].
  intros ->. rewrite zfill_length. apply Nat.max_l.
  apply lookup_lt_Some in Ht. apply str_of_Z_length_mono. lia.
Qed.

Lemma tracknumber_reads_back_witness :
  numbered Cases.album 1 (playlist_tracks Cases.album) !! 2%nat
  = Some (3, Cases.track_at 3 200,
          {| pl_author := py "Artist"; pl_title := py "Album";
             pl_tracknumber := py "3" |}) /\
  playlist_tracks Cases.album !! 2%nat = Some (Cases.track_at 3 200) /\
  3 = 1 + Z.of_nat 2 /\
  read_int (py "3") = Some 3 /\
  length (py "3")
  = Nat.max (length (str_of_Z (Z.of_nat (length (playlist_tracks Cases.album)))))
      (length (str_of_Z 3)) /\
  (1 = 1 ->
   length (py "3") = length (str_of_Z (Z.of_nat (length (playlist_tracks Cases.album))))).
Proof.
  split; [reflexivity|].
  apply (tracknumber_reads_back Cases.album 1 (playlist_tracks Cases.album) 2 3
           (Cases.track_at 3 200)
           {| pl_author := py "Artist"; pl_title := py "Album";
              pl_tracknumber := py "3" |}).
  reflexivity.
Defined.

Lemma drop_slice_stop {A} (k : Z) (l : list A) :
  0 <= k -> drop (slice_stop k (length l)) l = drop (Z.to_nat k) l.
Proof.
  intros Hk. unfold slice_stop. replace (k <? 0) with false by lia.
  destruct (Z.le_gt_cases k (Z.of_nat (length l))) as [Hle|Hgt].
  - by rewrite Z.min_l.
  - rewrite Z.min_r, !drop_ge by lia. done.
Qed.

Lemma take_slice_stop {A} (k : Z) (l : list A) :
  0 <= k -> take (slice_stop k (length l)) l = take (Z.to_nat k) l.
Proof.
  intros Hk. unfold slice_stop. replace (k <? 0) with false by lia.
  destruct (Z.le_gt_cases k (Z.of_nat (length l))) as [Hle|Hgt].
  - by rewrite Z.min_l.
  - rewrite Z.min_r, !take_ge by lia. done.
Qed.

(** X22. Without [-n] and with an offset of 1 at least, the tracks before
    the offset are left out, the others are downloaded in their order, and
    the counter of a track is its place in the playlist as it was served,
    counted from 1. *)
Theorem offset_keeps_positions {B : Builtins} (p : playlist) (pk : playlist_kwargs) :
  truthy (kw_n pk) = false ->
  1 <= kw_offset pk ->
  exists selected,
    select_tracks pk (playlist_tracks p) = Some selected /\
    selected = drop (Z.to_nat (kw_offset pk - 1)) (playlist_tracks p) /\
    forall (j : nat) (counter : Z) (t : track) (info : playlist_info),
      numbered p (kw_offset pk) selected !! j = Some (counter, t, info) ->
      playlist_tracks p !! Z.to_nat (counter - 1) = Some t.
Proof.
  intros Hn Hoff. exists (drop (Z.to_nat (kw_offset pk - 1)) (playlist_tracks p)).
  split_and!; [|done|].
  - unfold select_tracks. rewrite Hn. f_equal. apply drop_slice_stop. lia.
  - intros j counter t info Hj.
    apply numbered_lookup in Hj as (Ht & ->).
    rewrite lookup_drop in Ht. rewrite <- Ht. f_equal. lia.
Qed.

Lemma offset_keeps_positions_witness :
  exists selected,
    select_tracks (B := Cases.builtins) Cases.from_third (playlist_tracks Cases.album)
    = Some selected /\
    selected = drop (Z.to_nat (3 - 1)) (playlist_tracks Cases.album) /\
    forall (j : nat) (counter : Z) (t : track) (info : playlist_info),
      numbered Cases.album 3 selected !! j = Some (counter, t, info) ->
      playlist_tracks Cases.album !! Z.to_nat (counter - 1) = Some t.
Proof.
  apply (offset_keeps_positions (B := Cases.builtins) Cases.album Cases.from_third).
  - reflexivity.
  - simpl. lia.
Defined.

(** ** The newest tracks of a playlist *)

Lemma insert_newest_perm {B : Builtins} (x : track) (l : list track) :
  insert_newest x l ≡ₚ x :: l.
Proof.
  induction l as [|y l IH]; simpl; [done|].
  destruct (instant (created_at x) <? instant (created_at y)); [|done].
  rewrite IH. apply Permutation_swap.
Qed.

Lemma sort_newest_first_perm {B : Builtins} (l : list track) :
  sort_newest_first l ≡ₚ l.
Proof.
  induction l as [|x l IH]; simpl; [done|].
  rewrite insert_newest_perm. by rewrite IH.
Qed.

Lemma insert_newest_sorted {B : Builtins} (x : track) (l : list track) :
  newest_first l -> newest_first (insert_newest x l).
Proof.
  induction l as [|y l IH]; simpl; [done|]. intros [Hy Hl].
  destruct (instant (created_at x) <? instant (created_at y)) eqn:Hxy; simpl.
  - split; [|by apply IH].
    rewrite insert_newest_perm. constructor; [lia|done].
  - split; [|done]. constructor; [lia|].
    eapply Forall_impl; [exact Hy|]. simpl. intros z Hz. lia.
Qed.

Lemma sort_newest_first_sorted {B : Builtins} (l : list track) :
  newest_first (sort_newest_first l).
Proof.
  induction l as [|x l IH]; simpl; [done|]. by apply insert_newest_sorted.
Qed.

(** The sort is stable: the tracks of one instant keep their order. *)
Lemma insert_newest_stable {B : Builtins} (i : Z) (x : track) (l : list track) :
  filter (fun t => instant (created_at t) = i) (insert_newest x l)
  = filter (fun t => instant (created_at t) = i) (x :: l).
Proof.
  induction l as [|y l IH]; simpl; [done|].
  destruct (instant (created_at x) <? instant (created_at y)) eqn:Hxy; [|done].
  rewrite filter_cons, IH, !filter_cons.
  repeat case_decide; try done; lia.
Qed.

Lemma sort_newest_first_stable {B : Builtins} (i : Z) (l : list track) :
  filter (fun t => instant (created_at t) = i) (sort_newest_first l)
  = filter (fun t => instant (created_at t) = i) l.
Proof.
  induction l as [|x l IH]; simpl; [done|].
  rewrite insert_newest_stable, !filter_cons, IH. done.
Qed.

Lemma newest_first_app {B : Builtins} (l1 l2 : list track) (a b : track) :
  newest_first (l1 ++ l2) -> a ∈ l1 -> b ∈ l2 ->
  instant (created_at b) <= instant (created_at a).
Proof.
  induction l1 as [|x l1 IH]; simpl; intros Hs Ha Hb;
    [by apply elem_of_nil in Ha|].
  destruct Hs as [Hx Hl].
  apply elem_of_cons in Ha as [->|Ha]; [|by apply IH].
  rewrite Forall_forall in Hx. apply Hx. apply elem_of_app. by right.
Qed.

(** X23. With [-n k] for a count [k] that is not negative, the tracks that
    are downloaded are the first [k] of the playlist sorted by creation,
    the newest first and tracks of one instant in the order of the
    playlist: they and the tracks left out make up the playlist, none of
    those left out is newer than one that is chosen, and [-n 0] chooses
    none. *)
Theorem select_newest {B : Builtins} (pk : playlist_kwargs) (tracks : list track)
    (n : pystr) (k : Z) :
  kw_n pk = Some n ->
  n <> [] ->
  py_int n = Some k ->
  0 <= k ->
  exists selected rest,
    select_tracks pk tracks = Some selected /\
    selected ++ rest ≡ₚ tracks /\
    length selected = Nat.min (Z.to_nat k) (length tracks) /\
    newest_first (selected ++ rest) /\
    (forall a b, a ∈ selected -> b ∈ rest ->
                 instant (created_at b) <= instant (created_at a)) /\
    (forall i, filter (fun t => instant (created_at t) = i) (selected ++ rest)
               = filter (fun t => instant (created_at t) = i) tracks).
Proof.
  intros Hn Hne Hint Hk.
  exists (take (Z.to_nat k) (sort_newest_first tracks)),
         (drop (Z.to_nat k) (sort_newest_first tracks)).
  rewrite take_drop.
  split_and!.
  - unfold select_tracks. rewrite Hn. destruct n as [|c n]; [done|].
    change (truthy (Some (c :: n))) with true. cbv iota zeta.
    change (default [] (Some (c :: n))) with (c :: n). rewrite Hint.
    unfold bind, mbind, option_bind. by rewrite take_slice_stop.
  - apply sort_newest_first_perm.
  - rewrite length_take, (Permutation_length (sort_newest_first_perm tracks)). done.
  - apply sort_newest_first_sorted.
  - intros a b. apply newest_first_app. rewrite take_drop.
    apply sort_newest_first_sorted.
  - intros i. apply sort_newest_first_stable.
Qed.

Lemma select_newest_witness :
  exists selected rest,
    select_tracks (B := Cases.builtins) Cases.newest_two (playlist_tracks Cases.album)
    = Some selected /\
    selected ++ rest ≡ₚ playlist_tracks Cases.album /\
    length selected = Nat.min (Z.to_nat 2) (length (playlist_tracks Cases.album)) /\
    newest_first (B := Cases.builtins) (selected ++ rest) /\
    (forall a b, a ∈ selected -> b ∈ rest ->
                 instant (Builtins := Cases.builtins) (created_at b)
                 <= instant (Builtins := Cases.builtins) (created_at a)) /\
    (forall i, filter (fun t => instant (Builtins := Cases.builtins) (created_at t) = i)
                 (selected ++ rest)
               = filter (fun t => instant (Builtins := Cases.builtins) (created_at t) = i)
                   (playlist_tracks Cases.album)).
Proof.
  apply (select_newest (B := Cases.builtins) Cases.newest_two
           (playlist_tracks Cases.album) (py "2") 2).
  - reflexivity.
  - done.
  - reflexivity.
  - lia.
Defined.

Example select_tracks_newest_two :
  select_tracks (B := Cases.builtins) Cases.newest_two (playlist_tracks Cases.album)
  = Some [Cases.track_at 2 300; Cases.track_at 4 300].
Proof. reflexivity. Qed.
(** ** [remove_files] *)

Lemma remove_entry_run (a : option pystr) (g : pystr) (w : world) :
  remove_entry a g w
  = (Ok tt, {| files := files w ∖ {[g]};
               archive := if bool_decide (a = Some g) then [] else archive w;
               fileToKeep := fileToKeep w;
               trace := trace w ++ [EvRemove g] |}).
Proof.
  unfold remove_entry, drop_archive, os_remove, ret, mbind, M_bind.
  by destruct (bool_decide (a = Some g)).
Qed.

Lemma remove_unkept_cons (a : option pystr) (g : pystr) (fs : list pystr) (w : world) :
  remove_unkept a (g :: fs) w
  = if bool_decide (g ∈ fileToKeep w) then remove_unkept a fs w
    else remove_unkept a fs
           {| files := files w ∖ {[g]};
              archive := if bool_decide (a = Some g) then [] else archive w;
              fileToKeep := fileToKeep w;
              trace := trace w ++ [EvRemove g] |}.
Proof.
  cbn [remove_unkept]. unfold bind. unfold mbind at 1, M_bind at 1, not_kept.
  destruct (bool_decide (g ∈ fileToKeep w)); cbn [negb].
  - reflexivity.
  - unfold mbind, M_bind. by rewrite remove_entry_run.
Qed.

(** The loop of [remove_files] over a list of names: of the names of the
    list, those that are kept stay; the other files are not touched.  The
    text of the archive goes when its entry is in the list and not kept. *)
Lemma remove_unkept_run (a : option pystr) (fs : list pystr) (w : world) :
  let r := remove_unkept a fs w in
  fst r = Ok tt /\
  (forall f, f ∈ files (snd r) <->
             f ∈ files w /\ (f ∈ fs -> f ∈ fileToKeep w)) /\
  archive (snd r)
  = match a with
    | Some n =>
        if negb (bool_decide (n ∈ fileToKeep w)) && bool_decide (n ∈ fs)
        then [] else archive w
    | None => archive w
    end /\
  fileToKeep (snd r) = fileToKeep w /\
  exists new, trace (snd r) = trace w ++ new /\
              forallb is_removal new = true.
Proof.
  revert w. induction fs as [|g fs IH]; intros w.
  - cbn [remove_unkept]. unfold ret. cbn [fst snd]. split_and!; try done.
    + intros f. split; [intros Hf; split; [done|]|by intros [? _]].
      intros Hin. by apply elem_of_nil in Hin.
    + destruct a as [n|]; [|done].
      rewrite (bool_decide_eq_false_2 (n ∈ [])); [by rewrite andb_false_r|].
      intros Hin. by apply elem_of_nil in Hin.
    + exists []. by rewrite app_nil_r.
  - rewrite remove_unkept_cons.
    destruct (bool_decide (g ∈ fileToKeep w)) eqn:Hg.
    + apply bool_decide_eq_true in Hg.
      destruct (IH w) as (Hres & Hfiles & Harch & Hkeep & Htrace).
      cbn zeta in *. split_and!; try done.
      * intros f. rewrite Hfiles, elem_of_cons. split.
        -- intros [Hf Hin]. split; [done|]. intros [->|Hfs]; [done|by apply Hin].
        -- intros [Hf Hin]. split; [done|]. intros Hfs. apply Hin. by right.
      * rewrite Harch. destruct a as [n|]; [|done].
        destruct (decide (n = g)) as [->|Hne].
        -- by rewrite (bool_decide_eq_true_2 (g ∈ fileToKeep w)) by done.
        -- rewrite (bool_decide_ext (n ∈ g :: fs) (n ∈ fs)); [done|].
           rewrite elem_of_cons. split; [intros [|]; done|by right].
    + apply bool_decide_eq_false in Hg.
      match goal with |- context [remove_unkept a fs ?w0] =>
        destruct (IH w0) as (Hres & Hfiles & Harch & Hkeep & (new & Htrace & Hnew))
      end.
      cbn zeta in *. cbn [files archive fileToKeep trace] in *.
      split_and!.
      * done.
      * intros f. rewrite Hfiles, elem_of_cons, elem_of_difference, elem_of_singleton.
        split.
        -- intros [[Hf Hne] Hin]. split; [done|]. intros [->|Hin']; [done|by apply Hin].
        -- intros [Hf Hin]. split_and!; [done| |].
           ++ intros ->. apply Hg, Hin. by left.
           ++ intros Hin'. apply Hin. by right.
      * rewrite Harch. destruct a as [n|].
        -- destruct (decide (n = g)) as [->|Hne].
           ++ rewrite (bool_decide_eq_true_2 (Some g = Some g)) by done.
              rewrite (bool_decide_eq_false_2 (g ∈ fileToKeep w)) by done.
              rewrite (bool_decide_eq_true_2 (g ∈ g :: fs)) by (by left).
              cbn. by destruct (bool_decide _).
           ++ rewrite (bool_decide_eq_false_2 (Some n = Some g)) by congruence.
              rewrite (bool_decide_ext (n ∈ g :: fs) (n ∈ fs)); [done|].
              rewrite elem_of_cons. split; [intros [|]; done|by right].
        -- by rewrite (bool_decide_eq_false_2 (None = Some g)) by done.
      * done.
      * exists (EvRemove g :: new). rewrite Htrace, <- app_assoc. done.
Qed.

(** The run of [remove_files] in a directory of plain names. *)
Lemma remove_files_run (a : option pystr) (s : session) :
  plain_entries a (cwd s) = true ->
  let r := remove_files a s in
  fst r = Fine tt /\
  (forall f, f ∈ files (cwd (snd r)) <->
             f ∈ files (cwd s) /\ f ∈ fileToKeep (cwd s)) /\
  fileToKeep (cwd (snd r)) = fileToKeep (cwd s) /\
  archive (cwd (snd r)) = (if archive_goes a (cwd s) then [] else archive (cwd s)) /\
  (exists new, trace (cwd (snd r)) = trace (cwd s) ++ new /\
               forallb is_removal new = true) /\
  folders (snd r) = folders s /\
  folder (snd r) = folder s /\
  start_files (snd r) = start_files s.
Proof.
  intros Hplain.
  unfold remove_files, log_note, run_here, listdir_files.
  unfold mbind, Sess_bind, bind, mbind, M_bind. simpl.
  unfold plain_entries in Hplain. rewrite Hplain.
  match goal with |- context [remove_unkept a ?fs ?w0] =>
    destruct (remove_unkept_run a fs w0) as (Hres & Hfiles & Harch & Hkeep & Htrace);
    destruct (remove_unkept a fs w0) as [o w1]
  end.
  simpl in *. subst o. simpl. split_and!; try done.
  - intros f. rewrite Hfiles. split.
    + intros [Hf Hin]. split; [done|]. apply Hin. apply elem_of_elements.
      unfold regular_files. destruct a; [by apply elem_of_union_r|done].
    + intros [Hf Hin]. done.
  - rewrite Harch. destruct a as [n|]; [|done]. simpl.
    rewrite (bool_decide_eq_true_2 (n ∈ elements _)); [by rewrite andb_true_r|].
    apply elem_of_elements. by apply elem_of_union_l, elem_of_singleton.
Qed.

(** The session stops before anything is deleted when a name of the
    directory is not plain. *)
Lemma remove_files_beyond (a : option pystr) (s : session) :
  plain_entries a (cwd s) = false ->
  fst (remove_files a s) = Stop StopBeyond /\ cwd (snd (remove_files a s)) = cwd s.
Proof.
  intros Hplain.
  unfold remove_files, log_note, run_here, listdir_files.
  unfold mbind, Sess_bind, bind, mbind, M_bind. simpl.
  unfold plain_entries in Hplain. by rewrite Hplain.
Qed.

(** X24. In a directory whose regular files have plain names,
    [remove_files] leaves exactly the files whose names are in
    [fileToKeep] and deletes the others; it returns normally, does nothing
    but delete, does not change [fileToKeep], and touches no other
    directory.  The archive is one of the files it deletes when it lies in
    this directory and its name is not in [fileToKeep]: its text is gone
    then, and stays as it was otherwise. *)
Theorem remove_files_keeps_the_kept (a : option pystr) (s : session) :
  plain_entries a (cwd s) = true ->
  let r := remove_files a s in
  fst r = Fine tt /\
  (forall f, f ∈ files (cwd (snd r)) <->
             f ∈ files (cwd s) /\ f ∈ fileToKeep (cwd s)) /\
  (exists new, trace (cwd (snd r)) = trace (cwd s) ++ new /\
               forallb is_removal new = true) /\
  fileToKeep (cwd (snd r)) = fileToKeep (cwd s) /\
  archive (cwd (snd r)) = (if archive_goes a (cwd s) then [] else archive (cwd s)) /\
  folders (snd r) = folders s /\
  folder (snd r) = folder s.
Proof.
  intros Hplain r.
  destruct (remove_files_run a s Hplain) as (? & ? & ? & ? & ? & ? & ? & ?).
  done.
Qed.

Lemma remove_files_keeps_the_kept_witness :
  let s := {| cwd := {| files := list_to_set [py "notes.txt"; py "Artist - Title.mp3"];
                        archive := py "42" ++ [LF];
                        fileToKeep := [py "Artist - Title.mp3"]; trace := [] |};
              notes := []; folder := None; start_files := ∅; folders := ∅ |} in
  let r := remove_files (Some (py "archive.txt")) s in
  fst r = Fine tt /\
  (forall f, f ∈ files (cwd (snd r)) <->
             f ∈ files (cwd s) /\ f ∈ fileToKeep (cwd s)) /\
  (exists new, trace (cwd (snd r)) = trace (cwd s) ++ new /\
               forallb is_removal new = true) /\
  fileToKeep (cwd (snd r)) = fileToKeep (cwd s) /\
  archive (cwd (snd r)) = [] /\
  folders (snd r) = folders s /\
  folder (snd r) = folder s.
Proof.
  intros s.
  apply (remove_files_keeps_the_kept (Some (py "archive.txt")) s).
  vm_compute. reflexivity.
Defined.

(** ** [--remove]: the files of the tracks that were downloaded *)

Lemma emits_keeps {A} (p : event -> bool) (m : M A) :
  emits p m <-> keeps (grown_by p) m.
Proof. done. Qed.

Lemma grown_without_downloaded (w w1 : world) :
  grown_by (fun e => negb (is_downloaded_message e)) w w1 ->
  downloaded_is_kept w w1.
Proof.
  intros (new & Htrace & Hnew). exists new. split; [done|].
  intros f new' ->. rewrite forallb_app in Hnew.
  apply andb_true_iff in Hnew as [_ Hnew]. done.
Qed.

Lemma grown_then_downloaded (w w1 w2 : world) :
  grown_by (fun e => negb (is_downloaded_message e)) w w1 ->
  downloaded_is_kept w1 w2 ->
  downloaded_is_kept w w2.
Proof.
  intros (new1 & Ht1 & Hnew1) (new2 & Ht2 & Hkept).
  exists (new1 ++ new2). split; [by rewrite Ht2, Ht1, app_assoc|].
  intros f new' Heq.
  destruct (decide (new2 = [])) as [->|Hne].
  - rewrite app_nil_r in Heq. subst new1. rewrite forallb_app in Hnew1.
    apply andb_true_iff in Hnew1 as [_ Hnew1]. done.
  - destruct (exists_last Hne) as (new2' & e & ->).
    rewrite app_assoc in Heq. apply app_inj_tail in Heq as [_ ->].
    by apply (Hkept f new2').
Qed.

(** Lines 565-588 around the writing of the tags. *)
Lemma finish_downloaded (mid : M unit) (E : env) (t : track) (f : pystr) (w : world) :
  emits (fun e => negb (is_downloaded_message e)) mid ->
  (forall w0, files (snd (mid w0)) = files w0 /\
              fileToKeep (snd (mid w0)) = fileToKeep w0) ->
  let r := (there <- isfile f;
            if negb there then
              log Error (MsgErrorDownloading f);; log Error MsgExiting;; sys_exit (-1)
            else
              mid;;
              try_utime E f (mktime (created_at t));;
              log Info (MsgDownloaded f)) w in
  files (snd r) = files w /\
  fileToKeep (snd r) = fileToKeep w /\
  exists new, trace (snd r) = trace w ++ new /\
    forall g new', new = new' ++ [EvLog Info (MsgDownloaded g)] ->
                   g = f /\ f ∈ files w.
Proof.
  intros Hmid Hsame.
  unfold try_utime, bind, mbind, M_bind, isfile.
  destruct (bool_decide (f ∈ files w)) eqn:Hf; simpl.
  - apply bool_decide_eq_true in Hf.
    destruct (Hmid w) as (new1 & Htrace & Hp). destruct (Hsame w) as (Hfiles & Hkeep).
    destruct (mid w) as [[[]|c|e|] w1]; simpl in *.
    + destruct (utime_fails E); simpl; (split_and!; [done|done|]);
        eexists; (split; [by rewrite Htrace, <- !app_assoc|]);
        intros g new' Heq; rewrite app_assoc in Heq;
        apply app_inj_tail in Heq as [_ [= ->]]; done.
    + split_and!; [done|done|]. exists new1. split; [done|].
      intros g new' ->. rewrite forallb_app in Hp.
      apply andb_true_iff in Hp as [_ Hp]. done.
    + split_and!; [done|done|]. exists new1. split; [done|].
      intros g new' ->. rewrite forallb_app in Hp.
      apply andb_true_iff in Hp as [_ Hp]. done.
    + split_and!; [done|done|]. exists new1. split; [done|].
      intros g new' ->. rewrite forallb_app in Hp.
      apply andb_true_iff in Hp as [_ Hp]. done.
  - split_and!; [done|done|]. eexists. split; [by rewrite <- app_assoc|].
    intros g new' Heq. simpl in Heq.
    change [EvLog Error (MsgErrorDownloading f); EvLog Error MsgExiting]
      with ([EvLog Error (MsgErrorDownloading f)] ++ [EvLog Error MsgExiting]) in Heq.
    by apply app_inj_tail in Heq as [_ ?].
Qed.

(** The end of [download_track], from the check that the file is there:
    the directory and the files to keep stay, and the message that a file
    is downloaded names the file that was checked. *)
Lemma tag_and_finish_downloaded (E : env) (t : track) (f : pystr)
    (pl : option playlist_info) (kw : kwargs) (w : world) :
  let r := tag_and_finish E t f pl kw w in
  files (snd r) = files w /\
  fileToKeep (snd r) = fileToKeep w /\
  exists new, trace (snd r) = trace w ++ new /\
    forall g new', new = new' ++ [EvLog Info (MsgDownloaded g)] ->
                   g = f /\ f ∈ files w.
Proof.
  unfold tag_and_finish. apply finish_downloaded.
  - unfold set_metadata. repeat emits_step.
  - intros w0. unfold set_metadata, try_except. run_M.
    destruct (artist_and_title_returns t kw) as (a & b & ->).
    by destruct (tagged_extension f), (cover_art_found E), (mutagen_raises E).
Qed.

(** Lines 555-588 with [--remove]. *)
Lemma keep_and_finish_downloaded (E : env) (t : track) (title f : pystr) (d : bool)
    (pl : option playlist_info) (kw : kwargs) :
  kw_remove kw = true ->
  keeps downloaded_is_kept
    ((if kw_remove kw then keep_file f else ret tt);;
     record_download_archive E t kw;;
     if d && negb (kw_force_metadata kw) then log Info (MsgAlreadyDownloaded title)
     else tag_and_finish E t f pl kw).
Proof.
  intros Hremove w. rewrite Hremove.
  set (p := fun e => negb (is_downloaded_message e)).
  assert (Hrec : emits p (record_download_archive E t kw)).
  { unfold record_download_archive. repeat emits_step. }
  assert (Hrec' : forall w0,
            fst (record_download_archive E t kw w0) = Ok tt /\
            files (snd (record_download_archive E t kw w0)) = files w0 /\
            fileToKeep (snd (record_download_archive E t kw w0)) = fileToKeep w0).
  { intros w0. unfold record_download_archive.
    by destruct (archive_enabled kw), (archive_ioerror E). }
  unfold mbind, M_bind, keep_file. simpl.
  match goal with |- context [record_download_archive E t kw ?w0] =>
    destruct (Hrec w0) as (new1 & Ht1 & Hp1);
    destruct (Hrec' w0) as (Hok & Hf1 & Hk1);
    destruct (record_download_archive E t kw w0) as [o w1]
  end.
  simpl in *. subst o.
  apply (grown_then_downloaded w w1); [by exists new1|].
  destruct (d && negb (kw_force_metadata kw)).
  - apply grown_without_downloaded. by exists [EvLog Info (MsgAlreadyDownloaded title)].
  - destruct (tag_and_finish_downloaded E t f pl kw w1) as (Hf2 & Hk2 & new2 & Ht2 & Hlast).
    exists new2. split; [done|]. intros g new' Heq.
    destruct (Hlast g new' Heq) as (-> & Hin).
    rewrite Hf2, Hk2, Hk1. split; [done|].
    apply elem_of_app. right. by constructor.
Qed.

Lemma download_track_downloaded {R : Runtime} (fuel : nat) (E : env) (t : track)
    (pl : option playlist_info) (kw : kwargs) :
  kw_remove kw = true ->
  keeps downloaded_is_kept (download_track fuel E t pl kw).
Proof.
  intros Hremove.
  set (p := fun e => negb (is_downloaded_message e)).
  assert (Hquiet : forall (A : Type) (m : M A), emits p m -> keeps downloaded_is_kept m).
  { intros A m Hm w. apply grown_without_downloaded, Hm. }
  assert (Hseq : forall (A B : Type) (m : M A) (k : A -> M B),
            emits p m -> (forall a, keeps downloaded_is_kept (k a)) ->
            keeps downloaded_is_kept (mbind k m)).
  { intros A B m k Hm Hk.
    apply (keeps_seq (grown_by p) downloaded_is_kept); [done|done| |].
    - apply grown_without_downloaded.
    - apply grown_then_downloaded. }
  unfold download_track, bind.
  apply Hseq; [by apply emits_still|]. intros title.
  apply Hseq; [by apply emits_emit|]. intros _.
  destruct (negb (streamable t)); [by apply Hquiet, emits_emit|].
  destruct (bool_decide (policy t = py "BLOCK")); [by apply Hquiet, emits_emit|].
  apply Hseq.
  { destruct (wants_original t kw); [|apply emits_ret].
    unfold download_original_file, already_downloaded, in_download_archive.
    repeat emits_step. }
  intros [filename d].
  apply Hseq.
  { destruct filename as [f|]; [apply emits_ret|].
    destruct (kw_only_original kw); [repeat emits_step|].
    unfold download_hls, get_track_m3u8, already_downloaded, in_download_archive.
    repeat emits_step. }
  intros [[f d']|]; [|apply Hquiet, emits_ret].
  by apply keep_and_finish_downloaded.
Qed.

(** X25. With [--remove], a track that [download_track] ends on with the
    message that its file is downloaded has its file in the directory
    after the [remove_files] that follows, while every file whose name is
    not among the files to keep is gone; this for a directory in which
    the regular files have plain names after the run, the file of the
    track among them. *)
Theorem downloaded_file_survives_remove {R : Runtime} (fuel : nat) (E : env)
    (t : track) (pl : option playlist_info) (kw : kwargs) (a : option pystr)
    (s : session) (f : pystr) (new : list event) :
  kw_remove kw = true ->
  let s1 := snd (run_here (download_track fuel E t pl kw) s) in
  trace (cwd s1) = trace (cwd s) ++ new ++ [EvLog Info (MsgDownloaded f)] ->
  plain_entries a (cwd s1) = true ->
  let r := remove_files a s1 in
  fst r = Fine tt /\
  plain_name f = true /\
  f ∈ files (cwd (snd r)) /\
  (forall g, g ∉ fileToKeep (cwd s1) -> g ∉ files (cwd (snd r))).
Proof.
  intros Hremove s1 Htrace Hplain r.
  destruct (remove_files_run a s1 Hplain) as (Hfine & Hfiles & _).
  fold r in Hfine, Hfiles.
  assert (Hw : cwd s1 = snd (download_track fuel E t pl kw (cwd s))).
  { unfold s1, run_here. by destruct (download_track fuel E t pl kw (cwd s)) as [[| | |] ?]. }
  destruct (download_track_downloaded fuel E t pl kw Hremove (cwd s))
    as (new0 & Htrace0 & Hkept).
  rewrite <- Hw in *.
  assert (Hf : f ∈ files (cwd s1) /\ f ∈ fileToKeep (cwd s1)).
  { apply (Hkept f new). rewrite Htrace in Htrace0. by apply app_inv_head in Htrace0. }
  split_and!.
  - done.
  - unfold plain_entries in Hplain. rewrite forallb_forall in Hplain.
    apply Hplain, list_elem_of_In, elem_of_elements.
    unfold regular_files. destruct a; [apply elem_of_union_r|]; apply Hf.
  - by apply Hfiles.
  - intros g Hg [_ Hin]%Hfiles. done.
Qed.

Lemma downloaded_file_survives_remove_witness :
  let s := {| cwd := Sample.world_with [py "notes.txt"] []; notes := [];
              folder := None; start_files := ∅; folders := ∅ |} in
  let s1 := snd (run_here (download_track (R := Sample.runtime) 400
                             (Sample.outside None) Sample.song None
                             Cases.remove_no_original) s) in
  let r := remove_files None s1 in
  fst r = Fine tt /\
  plain_name (py "Artist - Title.mp3") = true /\
  py "Artist - Title.mp3" ∈ files (cwd (snd r)) /\
  (forall g, g ∉ fileToKeep (cwd s1) -> g ∉ files (cwd (snd r))).
Proof.
  intros s.
  apply (downloaded_file_survives_remove (R := Sample.runtime) 400
           (Sample.outside None) Sample.song None Cases.remove_no_original None s
           (py "Artist - Title.mp3")
           [EvLog Info (MsgDownloading (py "Artist - Title"));
            EvLog Debug (MsgFilename (py "Artist - Title.mp3"));
            EvManifest; EvRemux (py "Artist - Title.mp3");
            EvLog Info MsgSettingTags;
            EvTags (py "Artist - Title.mp3")
              (easy_tags Sample.song (py "Artist") (py "Artist - Title") None
                 Cases.remove_no_original);
            EvUtime (py "Artist - Title.mp3") 1600000000]).
  - reflexivity.
  - vm_compute. reflexivity.
  - vm_compute. reflexivity.
Defined.

(** ** [download_playlist]: the folder of the playlist *)

Lemma run_here_frame {A} (m : M A) (s : session) :
  let r := run_here m s in
  folder (snd r) = folder s /\ start_files (snd r) = start_files s /\
  folders (snd r) = folders s /\ notes (snd r) = notes s /\
  cwd (snd r) = snd (m (cwd s)).
Proof. unfold run_here. by destruct (m (cwd s)) as [[a|c|e|] w]. Qed.

(** The loop over the tracks stays in the directory it starts in and
    touches no other directory. *)
Lemma download_each_frame {R : Runtime} (fuel : nat) (c : client) (kw : kwargs)
    (items : list (Z * track * playlist_info)) (s : session) :
  let r := download_each fuel c kw items s in
  folder (snd r) = folder s /\ start_files (snd r) = start_files s /\
  folders (snd r) = folders s.
Proof.
  revert s. induction items as [|[[counter t] info] items IH]; intros s; [done|].
  simpl. unfold mbind, Sess_bind, log_note. simpl.
  match goal with |- context [run_here ?m ?s0] =>
    destruct (run_here_frame m s0) as (Hf & Hs & Hd & _);
    destruct (run_here m s0) as [[[]|e] s1]
  end; simpl in *; [|done].
  destruct (IH s1) as (Hf' & Hs' & Hd'). split_and!; congruence.
Qed.

(** The name of the folder of a playlist (lines 328-330). *)
Lemma playlist_name_run {R : Runtime} (p : playlist) (s : session) :
  run_here (lift (utf8_ignore (playlist_title p))) s
  = (Fine (List.filter encodable (playlist_title p)), with_cwd s (cwd s)).
Proof. unfold run_here, lift. by rewrite utf8_ignore_eq. Qed.

(** With a folder for the playlist, [download_playlist] is its [try]
    statement run in the folder, which is there or has been made. *)
Lemma download_playlist_enters {R : Runtime} {B : Builtins} (fuel : nat)
    (c : client) (p : playlist) (kw : kwargs) (pk : playlist_kwargs) (s : session)
    (name : pystr) :
  kw_no_playlist_folder pk = false ->
  folder s = None ->
  sanitize_filename (List.filter encodable (playlist_title p)) = name ->
  plain_name name = true ->
  (name ∉ files (cwd s)) ->
  exists fs mid,
    name ∈ dom mid /\
    (forall other, other <> name -> mid !! other = folders s !! other) /\
    download_playlist fuel c p kw pk s
    = try_finally
        (match select_tracks pk (playlist_tracks p) with
         | Some tracks => download_each fuel c kw (numbered p (kw_offset pk) tracks)
         | None => stop_with StopValueError
         end) chdir_up
        {| cwd := set_files (cwd s) fs; notes := notes s; folder := Some name;
           start_files := files (cwd s); folders := mid |}.
Proof.
  intros Hflag Hstart Hname Hplain Hfile.
  assert (Hne : bool_decide (name = []) = false).
  { apply bool_decide_eq_false. intros ->. done. }
  assert (Henter : exists fs mid,
    (there <- path_exists name;
     (if negb there then makedirs name else mret tt);; chdir name)
      (with_cwd s (cwd s))
    = (Fine tt, {| cwd := set_files (cwd s) fs; notes := notes s;
                   folder := Some name; start_files := files (cwd s);
                   folders := mid |}) /\
    name ∈ dom mid /\
    (forall other, other <> name -> mid !! other = folders s !! other)).
  { unfold bind, mbind, Sess_bind, path_exists, makedirs, chdir, with_cwd. simpl.
    rewrite Hstart, Hne, Hplain. simpl.
    rewrite (bool_decide_eq_false_2 _ Hfile), orb_false_r.
    destruct (bool_decide (name ∈ dom (folders s))) eqn:Hdir; simpl.
    - apply bool_decide_eq_true in Hdir.
      rewrite ?Hstart, ?Hne, ?Hplain.
      apply elem_of_dom in Hdir as (fs & Hfs). rewrite Hfs.
      exists fs, (folders s). split_and!; [done| |done].
      apply elem_of_dom. by eexists.
    - rewrite ?Hstart, ?Hne, ?Hplain. simpl. rewrite ?Hne, ?Hplain, ?lookup_insert_eq.
      exists ∅, (<[name := ∅]> (folders s)). split_and!; [done| |].
      + apply elem_of_dom. rewrite lookup_insert_eq. by eexists.
      + intros other Hother. by rewrite lookup_insert_ne. }
  destruct Henter as (fs & mid & Hrun & Hdom & Hother).
  exists fs, mid. split_and!; [done|done|].
  unfold download_playlist, bind. unfold mbind at 1. unfold Sess_bind at 1.
  rewrite playlist_name_run, Hname, Hflag. simpl negb. cbv iota.
  unfold bind in Hrun. unfold mbind at 1. unfold Sess_bind at 1. by rewrite Hrun.
Qed.

(** A [try] statement that is run in a folder, stays there and touches no
    other directory, and whose [finally] goes back up: the program is in
    the starting directory with the files it had, and the folder holds
    what the statement left. *)
Lemma try_finally_leaves (body : Sess unit) (s0 : session) (name : pystr) :
  folder s0 = Some name ->
  (folder (snd (body s0)) = folder s0 /\
   start_files (snd (body s0)) = start_files s0 /\
   folders (snd (body s0)) = folders s0) ->
  let r := try_finally body chdir_up s0 in
  folder (snd r) = None /\
  files (cwd (snd r)) = start_files s0 /\
  name ∈ dom (folders (snd r)) /\
  (forall other, other <> name -> folders (snd r) !! other = folders s0 !! other).
Proof.
  intros Hin (Hf & Hs & Hd). unfold try_finally.
  destruct (body s0) as [res s1]. simpl in *.
  unfold chdir_up. rewrite Hf, Hin. simpl. rewrite Hs, Hd.
  split_and!; [done|done| |].
  - apply elem_of_dom. rewrite lookup_insert_eq. by eexists.
  - intros other Hne. by rewrite lookup_insert_ne.
Qed.

Lemma playlist_body_frame {R : Runtime} {B : Builtins} (fuel : nat) (c : client)
    (p : playlist) (kw : kwargs) (pk : playlist_kwargs) (s0 : session) :
  let body := match select_tracks pk (playlist_tracks p) with
              | Some tracks => download_each fuel c kw (numbered p (kw_offset pk) tracks)
              | None => stop_with StopValueError
              end in
  folder (snd (body s0)) = folder s0 /\
  start_files (snd (body s0)) = start_files s0 /\
  folders (snd (body s0)) = folders s0.
Proof.
  destruct (select_tracks pk (playlist_tracks p)) as [tracks|]; [|done].
  apply download_each_frame.
Qed.

(** X26. With a playlist folder whose name is plain and is not the name of
    a file, [download_playlist] works in that folder, which it makes when
    it is not there, and is back in the starting directory when it ends,
    however it ends: the files of the starting directory are as they were,
    and so are the other folders.  This without an archive, for a run in
    which every file name that [download_track] logs (lines 432 and 502)
    is plain, so that it names an entry of the folder. *)
Theorem playlist_folder_holds_the_run {R : Runtime} {B : Builtins} (fuel : nat)
    (c : client) (p : playlist) (kw : kwargs) (pk : playlist_kwargs) (s : session)
    (name : pystr) :
  kw_no_playlist_folder pk = false ->
  kw_download_archive kw = None ->
  folder s = None ->
  sanitize_filename (List.filter encodable (playlist_title p)) = name ->
  plain_name name = true ->
  (name ∉ files (cwd s)) ->
  let r := download_playlist fuel c p kw pk s in
  forallb names_plainly (trace (cwd (snd r))) = true ->
  folder (snd r) = None /\
  files (cwd (snd r)) = files (cwd s) /\
  name ∈ dom (folders (snd r)) /\
  (forall other, other <> name -> folders (snd r) !! other = folders s !! other).
Proof.
  intros Hflag _ Hstart Hname Hplain Hfile r _.
  destruct (download_playlist_enters fuel c p kw pk s name)
    as (fs & mid & Hdom & Hother & Hrun); try done.
  unfold r. rewrite Hrun.
  match goal with |- context [try_finally ?body chdir_up ?s0] =>
    destruct (try_finally_leaves body s0 name eq_refl) as (Hf & Hfiles & Hin & Hrest);
      [apply playlist_body_frame|]
  end.
  split_and!; [done|done|done|].
  intros other Hne. rewrite Hrest by done. by apply Hother.
Qed.

Lemma playlist_folder_holds_the_run_witness :
  let r := download_playlist (R := Sample.runtime) (B := Cases.builtins) 400
             Cases.site Cases.album Cases.remove_no_original Cases.from_third
             (Cases.start [py "notes.txt"]) in
  folder (snd r) = None /\
  files (cwd (snd r)) = files (cwd (Cases.start [py "notes.txt"])) /\
  py "Album" ∈ dom (folders (snd r)) /\
  (forall other, other <> py "Album" ->
     folders (snd r) !! other = folders (Cases.start [py "notes.txt"]) !! other).
Proof.
  apply (playlist_folder_holds_the_run (R := Sample.runtime) (B := Cases.builtins) 400
           Cases.site Cases.album Cases.remove_no_original Cases.from_third
           (Cases.start [py "notes.txt"]) (py "Album")).
  - reflexivity.
  - reflexivity.
  - reflexivity.
  - reflexivity.
  - reflexivity.
  - intros Hin. apply elem_of_list_to_set in Hin.
    apply list_elem_of_singleton in Hin. by apply py_inj in Hin.
  - vm_compute. reflexivity.
Defined.

(** X27. When the title of the playlist leaves no character in the file
    name that [sanitize_filename] makes of it, a playlist folder cannot be
    made: [os.makedirs] of the empty name raises [FileNotFoundError]
    before any track is looked at, and nothing has changed. *)
Theorem playlist_without_name {R : Runtime} {B : Builtins} (fuel : nat)
    (c : client) (p : playlist) (kw : kwargs) (pk : playlist_kwargs) (s : session) :
  kw_no_playlist_folder pk = false ->
  folder s = None ->
  sanitize_filename (List.filter encodable (playlist_title p)) = [] ->
  let r := download_playlist fuel c p kw pk s in
  fst r = Stop StopFileNotFound /\
  cwd (snd r) = cwd s /\
  notes (snd r) = notes s /\
  folder (snd r) = None /\
  folders (snd r) = folders s.
Proof.
  intros Hflag Hstart Hname r.
  assert (Hall : download_playlist fuel c p kw pk s
                 = (Stop StopFileNotFound, with_cwd s (cwd s))).
  { unfold download_playlist, bind. unfold mbind at 1. unfold Sess_bind at 1.
    rewrite playlist_name_run, Hname, Hflag. simpl negb. cbv iota.
    unfold mbind, Sess_bind, path_exists, makedirs, with_cwd. simpl.
    rewrite Hstart. simpl. by rewrite ?Hstart. }
  unfold r. rewrite Hall. done.
Qed.

Lemma playlist_without_name_witness :
  let r := download_playlist (R := Sample.runtime) (B := Cases.builtins) 400
             Cases.site Cases.nameless Cases.remove_no_original Cases.from_third
             (Cases.start [py "notes.txt"]) in
  fst r = Stop StopFileNotFound /\
  cwd (snd r) = cwd (Cases.start [py "notes.txt"]) /\
  notes (snd r) = notes (Cases.start [py "notes.txt"]) /\
  folder (snd r) = None /\
  folders (snd r) = folders (Cases.start [py "notes.txt"]).
Proof.
  apply (playlist_without_name (R := Sample.runtime) (B := Cases.builtins) 400
           Cases.site Cases.nameless Cases.remove_no_original Cases.from_third
           (Cases.start [py "notes.txt"])).
  - reflexivity.
  - reflexivity.
  - reflexivity.
Defined.

(** X28. [remove_files] after a playlist was downloaded into its folder
    works in the starting directory: of the files that were there before
    the playlist, those stay whose names are among the files to keep, which
    are the names of track files in the folder, and the others are
    deleted; the folder of the playlist and the other folders are not
    looked at.  This without an archive, for a starting directory whose
    regular files have plain names and a run in which every file name
    that [download_track] logs is plain. *)
Theorem remove_after_playlist {R : Runtime} {B : Builtins} (fuel : nat)
    (c : client) (p : playlist) (kw : kwargs) (pk : playlist_kwargs)
    (a : option pystr) (s : session) (name : pystr) :
  kw_no_playlist_folder pk = false ->
  kw_download_archive kw = None ->
  folder s = None ->
  sanitize_filename (List.filter encodable (playlist_title p)) = name ->
  plain_name name = true ->
  (name ∉ files (cwd s)) ->
  plain_entries a (cwd s) = true ->
  let s1 := snd (download_playlist fuel c p kw pk s) in
  forallb names_plainly (trace (cwd s1)) = true ->
  let r := remove_files a s1 in
  fst r = Fine tt /\
  (forall f, f ∈ files (cwd (snd r)) <->
             f ∈ files (cwd s) /\ f ∈ fileToKeep (cwd s1)) /\
  folders (snd r) = folders s1 /\
  name ∈ dom (folders (snd r)).
Proof.
  intros Hflag _ Hstart Hname Hplain Hfile Hentries s1 _ r.
  destruct (download_playlist_enters fuel c p kw pk s name)
    as (fs & mid & _ & _ & Hrun); try done.
  assert (Hback : files (cwd s1) = files (cwd s) /\ name ∈ dom (folders s1)).
  { unfold s1. rewrite Hrun.
    match goal with |- context [try_finally ?body chdir_up ?s0] =>
      destruct (try_finally_leaves body s0 name eq_refl) as (_ & Hfiles & Hin & _);
        [apply playlist_body_frame|]
    end.
    done. }
  destruct Hback as (Hfiles & Hdom).
  assert (Hentries1 : plain_entries a (cwd s1) = true).
  { unfold plain_entries, regular_files in *. by rewrite Hfiles. }
  destruct (remove_files_run a s1 Hentries1) as (Hfine & Hkept & _ & _ & _ & Hfolders & _).
  fold r in Hfine, Hkept, Hfolders.
  split_and!; [done| |done|by rewrite Hfolders].
  intros f. by rewrite Hkept, Hfiles.
Qed.

Lemma remove_after_playlist_witness :
  let s := Cases.start [py "notes.txt"] in
  let s1 := snd (download_playlist (R := Sample.runtime) (B := Cases.builtins) 400
                   Cases.site Cases.album Cases.remove_no_original Cases.from_third s) in
  let r := remove_files None s1 in
  fst r = Fine tt /\
  (forall f, f ∈ files (cwd (snd r)) <->
             f ∈ files (cwd s) /\ f ∈ fileToKeep (cwd s1)) /\
  folders (snd r) = folders s1 /\
  py "Album" ∈ dom (folders (snd r)).
Proof.
  apply (remove_after_playlist (R := Sample.runtime) (B := Cases.builtins) 400
           Cases.site Cases.album Cases.remove_no_original Cases.from_third
           None (Cases.start [py "notes.txt"]) (py "Album")).
  - reflexivity.
  - reflexivity.
  - reflexivity.
  - reflexivity.
  - reflexivity.
  - intros Hin. apply elem_of_list_to_set in Hin.
    apply list_elem_of_singleton in Hin. by apply py_inj in Hin.
  - vm_compute. reflexivity.
  - vm_compute. reflexivity.
Defined.

Example remove_after_playlist_deletes_notes :
  let s := Cases.start [py "notes.txt"] in
  let s1 := snd (download_playlist (R := Sample.runtime) (B := Cases.builtins) 400
                   Cases.site Cases.album Cases.remove_no_original Cases.from_third s) in
  fileToKeep (cwd s1) = [py "Album_Title 3.mp3"; py "Album_Title 4.mp3"] /\
  folders s1 !! py "Album"
  = Some (list_to_set [py "Album_Title 3.mp3"; py "Album_Title 4.mp3"]) /\
  files (cwd (snd (remove_files None s1))) = ∅.
Proof. split_and!; vm_compute; reflexivity. Qed.

(** X29. When [int] does not read the count given with [-n],
    [download_playlist] raises [ValueError] inside the [try]: the playlist
    folder has been made and entered by then and is left again by the
    [finally], so the program is in its starting directory, the folder is
    there, and no track has been looked at. *)
Theorem playlist_count_unreadable {R : Runtime} {B : Builtins} (fuel : nat)
    (c : client) (p : playlist) (kw : kwargs) (pk : playlist_kwargs) (s : session)
    (name n : pystr) :
  kw_no_playlist_folder pk = false ->
  folder s = None ->
  sanitize_filename (List.filter encodable (playlist_title p)) = name ->
  plain_name name = true ->
  (name ∉ files (cwd s)) ->
  kw_n pk = Some n ->
  n <> [] ->
  py_int n = None ->
  let r := download_playlist fuel c p kw pk s in
  fst r = Stop StopValueError /\
  folder (snd r) = None /\
  name ∈ dom (folders (snd r)) /\
  trace (cwd (snd r)) = trace (cwd s) /\
  files (cwd (snd r)) = files (cwd s) /\
  notes (snd r) = notes s.
Proof.
  intros Hflag Hstart Hname Hplain Hfile Hn Hne Hint r.
  assert (Hsel : select_tracks pk (playlist_tracks p) = None).
  { unfold select_tracks. rewrite Hn. destruct n as [|x n]; [done|].
    change (truthy (Some (x :: n))) with true. cbv iota zeta.
    change (default [] (Some (x :: n))) with (x :: n). by rewrite Hint. }
  destruct (download_playlist_enters fuel c p kw pk s name)
    as (fs & mid & Hdom & _ & Hrun); try done.
  unfold r. rewrite Hrun, Hsel. unfold try_finally, stop_with, chdir_up. simpl.
  split_and!; try done.
  apply elem_of_dom. rewrite lookup_insert_eq. by eexists.
Qed.

Lemma playlist_count_unreadable_witness :
  let r := download_playlist (R := Sample.runtime) (B := Cases.builtins) 400
             Cases.site Cases.album Cases.remove_no_original Cases.some_tracks
             (Cases.start [py "notes.txt"]) in
  fst r = Stop StopValueError /\
  folder (snd r) = None /\
  py "Album" ∈ dom (folders (snd r)) /\
  trace (cwd (snd r)) = trace (cwd (Cases.start [py "notes.txt"])) /\
  files (cwd (snd r)) = files (cwd (Cases.start [py "notes.txt"])) /\
  notes (snd r) = notes (Cases.start [py "notes.txt"]).
Proof.
  apply (playlist_count_unreadable (R := Sample.runtime) (B := Cases.builtins) 400
           Cases.site Cases.album Cases.remove_no_original Cases.some_tracks
           (Cases.start [py "notes.txt"]) (py "Album") (py "some")).
  - reflexivity.
  - reflexivity.
  - reflexivity.
  - reflexivity.
  - intros Hin. apply elem_of_list_to_set in Hin.
    apply list_elem_of_singleton in Hin. by apply py_inj in Hin.
  - reflexivity.
  - done.
  - reflexivity.
Defined.

(** ** The loop over the tracks of a playlist *)

(** X30. The loop of lines 346-356 takes the tracks in their order and
    ends at the first run of [download_track] that does not return: the
    messages of the session are those of the first [k] tracks, each with
    its counter, where [k] is the number of all tracks when the loop
    returns, and the run of the [k]-th track is the one that stopped the
    loop when it does not; no later track is looked at. *)
Theorem playlist_tracks_in_order {R : Runtime} (fuel : nat) (c : client)
    (kw : kwargs) (items : list (Z * track * playlist_info)) (s : session) :
  let r := download_each fuel c kw items s in
  exists k : nat,
    (k <= length items)%nat /\
    map snd (notes (snd r))
    = map snd (notes s)
      ++ flat_map (fun '(counter, t, _) =>
                     [(Debug, NoteTrack t); (Info, NoteTrackNumber counter)])
           (take k items) /\
    (fst r = Fine tt -> k = length items) /\
    (forall e, fst r = Stop e ->
       exists counter t info,
         items !! (k - 1)%nat = Some (counter, t, info) /\ (1 <= k)%nat /\
         (e = StopFuel \/ (exists code, e = StopExit code) \/ exists x, e = StopRaise x)).
Proof.
  revert s. induction items as [|[[counter t] info] items IH]; intros s; simpl.
  - exists 0%nat. split_and!; [done|by rewrite app_nil_r|done|done].
  - unfold mbind, Sess_bind, log_note. simpl.
    match goal with |- context [run_here ?m ?s0] =>
      destruct (run_here_frame m s0) as (_ & _ & _ & Hnotes & _);
      pose proof (eq_refl (run_here m s0)) as Hrun;
      unfold run_here at 2 in Hrun;
      destruct (run_here m s0) as [[[]|e] s1]
    end; simpl in *.
    + destruct (IH s1) as (k & Hk & Hlog & Hfine & Hstop).
      exists (Datatypes.S k). split_and!; [lia| |by intros ->%Hfine|].
      * rewrite Hlog, Hnotes, !map_app, <- !app_assoc. done.
      * intros e He. destruct (Hstop e He) as (c' & t' & i' & Hlook & Hpos & Hkind).
        exists c', t', i'. split_and!; [|lia|done].
        destruct k as [|k]; [lia|]. simpl in *. by rewrite Nat.sub_0_r in Hlook.
    + exists 1%nat. split_and!; [lia| |done|].
      * rewrite Hnotes, !map_app, <- !app_assoc. simpl. rewrite ?take_0. done.
      * intros e' [= <-]. exists counter, t, info. split_and!; [done|lia|].
        match type of Hrun with _ = match ?m with _ => _ end =>
          destruct m as [[a|code|exc|] w1]
        end; simplify_eq; eauto.
Qed.
